(** * Chrono: durations, instants and the [atTime] scheduler

    A shallow embedding of [src/index.ts] (the classes [TimePeriod] and
    [TimePoint], the functions [wait] and [atTime]) and the properties its
    specification states about them.

    Conventions of the embedding.

    - A JavaScript [number] is modelled by the type [number] below: the
      IEEE-754 special values [NaN], [+Infinity], [-Infinity] and the finite
      values, the latter as exact rationals.  Arithmetic on finite values is
      therefore exact: binary64 rounding is abstracted away, and the two
      zeros are identified.  All special-value rules ([NaN] propagation,
      comparisons with [NaN], division by zero, [Math.floor], [%]) follow
      ECMA-262.  A property whose conclusion needs the arithmetic to be exact
      is stated for whole numbers within the safe integers, where binary64
      is exact too.
    - A JavaScript object used as a unit-to-amount mapping keeps its keys in
      insertion order; it is modelled as an association list with
      assignment in place ([obj_set]).
    - [throw] is modelled by the [Result] type.
    - Host collaborators are explicit.  The date parser and the printing of
      numbers are the two fields of a [Platform], a parameter of the section
      that holds [TimePoint].  The length of a month, which the constructor
      asks of the host's [Date], follows the abstract operations of ECMA-262:
      for a host in UTC in [new_TimePoint], for a host in a given time zone
      in [new_TimePoint_in].
      The clock and the single-shot timers are a state, [EventLoop], which is
      threaded through the scheduler; how late the host fires each timer is
      an input of [run], and how far the clock moves between the two
      readings of [wait] is an input of [wait].
    - The earlier revision of the two classes that [src/index.ts] also
      holds is the module [Rev1]; everything outside it is the current
      revision. *)

From Stdlib Require Import QArith Qabs Qround ZArith List Bool.
From Stdlib Require Import Permutation Sorted Lia Lqa String Ascii.
Import ListNotations.

Set Implicit Arguments.

(* ================================================================== *)
(** ** JavaScript numbers *)
(* ================================================================== *)

Inductive number : Type :=
| NaN
| PosInf
| NegInf
| Fin (q : Q).

Declare Scope js_scope.
Delimit Scope js_scope with js.
Bind Scope js_scope with number.

(** Integer literals of the source. *)
Definition num (z : Z) : number := Fin (inject_Z z).

(** Three-way comparison of a rational with zero. *)
Definition Qsign (q : Q) : comparison := (q ?= 0)%Q.

Definition num_neg (x : number) : number :=
  match x with
  | NaN => NaN
  | PosInf => NegInf
  | NegInf => PosInf
  | Fin a => Fin (- a)
  end.

Definition num_add (x y : number) : number :=
  match x, y with
  | NaN, _ | _, NaN => NaN
  | PosInf, NegInf | NegInf, PosInf => NaN
  | PosInf, _ | _, PosInf => PosInf
  | NegInf, _ | _, NegInf => NegInf
  | Fin a, Fin b => Fin (a + b)
  end.

Definition num_sub (x y : number) : number :=
  match x, y with
  | NaN, _ | _, NaN => NaN
  | PosInf, PosInf | NegInf, NegInf => NaN
  | PosInf, _ | _, NegInf => PosInf
  | NegInf, _ | _, PosInf => NegInf
  | Fin a, Fin b => Fin (a - b)
  end.

(** An infinity scaled by a finite factor. *)
Definition inf_times (positive : bool) (q : Q) : number :=
  match Qsign q with
  | Eq => NaN
  | Gt => if positive then PosInf else NegInf
  | Lt => if positive then NegInf else PosInf
  end.

Definition num_mul (x y : number) : number :=
  match x, y with
  | NaN, _ | _, NaN => NaN
  | PosInf, PosInf | NegInf, NegInf => PosInf
  | PosInf, NegInf | NegInf, PosInf => NegInf
  | PosInf, Fin b | Fin b, PosInf => inf_times true b
  | NegInf, Fin b | Fin b, NegInf => inf_times false b
  | Fin a, Fin b => Fin (a * b)
  end.

Definition num_div (x y : number) : number :=
  match x, y with
  | NaN, _ | _, NaN => NaN
  | (PosInf | NegInf), (PosInf | NegInf) => NaN
  | PosInf, Fin b => match Qsign b with Lt => NegInf | _ => PosInf end
  | NegInf, Fin b => match Qsign b with Lt => PosInf | _ => NegInf end
  | Fin _, (PosInf | NegInf) => Fin 0
  | Fin a, Fin b =>
      match Qsign b with
      | Eq => match Qsign a with Eq => NaN | Gt => PosInf | Lt => NegInf end
      | _ => Fin (a / b)
      end
  end.

(** [Math.floor] *)
Definition Math_floor (x : number) : number :=
  match x with
  | Fin a => Fin (inject_Z (Qfloor a))
  | _ => x
  end.

(** [Math.abs] *)
Definition Math_abs (x : number) : number :=
  match x with
  | NaN => NaN
  | PosInf | NegInf => PosInf
  | Fin a => Fin (Qabs a)
  end.

(** Truncation of a rational towards zero. *)
Definition Qtrunc (q : Q) : Z := Z.quot (Qnum q) (Zpos (Qden q)).

(** The remainder operator [%]: the result takes the sign of the dividend. *)
Definition num_rem (x y : number) : number :=
  match x, y with
  | NaN, _ | _, NaN => NaN
  | (PosInf | NegInf), _ => NaN
  | Fin a, (PosInf | NegInf) => Fin a
  | Fin a, Fin b =>
      match Qsign b with
      | Eq => NaN
      | _ => Fin (a - b * inject_Z (Qtrunc (a / b)))
      end
  end.

(** Relational operators [<], [>], [<=], [>=]: false as soon as an operand
    is [NaN]. *)
Definition num_lt (x y : number) : bool :=
  match x, y with
  | NaN, _ | _, NaN => false
  | _, NegInf => false
  | NegInf, _ => true
  | PosInf, _ => false
  | Fin _, PosInf => true
  | Fin a, Fin b => match (a ?= b)%Q with Lt => true | _ => false end
  end.

Definition num_gt (x y : number) : bool := num_lt y x.

Definition num_le (x y : number) : bool :=
  match x, y with
  | NaN, _ | _, NaN => false
  | NegInf, _ => true
  | _, PosInf => true
  | _, NegInf => false
  | PosInf, _ => false
  | Fin a, Fin b => match (a ?= b)%Q with Gt => false | _ => true end
  end.

Definition num_ge (x y : number) : bool := num_le y x.

(** Equality of numbers, [==] and [===] alike: [NaN] equals nothing. *)
Definition num_eq (x y : number) : bool :=
  match x, y with
  | PosInf, PosInf | NegInf, NegInf => true
  | Fin a, Fin b => Qeq_bool a b
  | _, _ => false
  end.

(** [!==] *)
Definition num_neq (x y : number) : bool := negb (num_eq x y).

Infix "+" := num_add : js_scope.
Infix "-" := num_sub : js_scope.
Infix "*" := num_mul : js_scope.
Infix "/" := num_div : js_scope.
Infix "%%" := num_rem (at level 40, left associativity) : js_scope.
Infix "<?" := num_lt : js_scope.
Infix ">?" := num_gt (at level 70, no associativity) : js_scope.
Infix "<=?" := num_le : js_scope.
Infix ">=?" := num_ge (at level 70, no associativity) : js_scope.
Infix "===" := num_eq (at level 70, no associativity) : js_scope.
Infix "!==" := num_neq (at level 70, no associativity) : js_scope.

Arguments num_add : simpl never.
Arguments num_sub : simpl never.
Arguments num_mul : simpl never.
Arguments num_div : simpl never.
Arguments num_rem : simpl never.
Arguments num_lt : simpl never.
Arguments num_gt : simpl never.
Arguments num_le : simpl never.
Arguments num_ge : simpl never.
Arguments num_eq : simpl never.
Arguments num_neq : simpl never.
Arguments Math_floor : simpl never.

(** Reduction of a finite value to lowest terms, for reading results. *)
Definition num_red (x : number) : number :=
  match x with
  | Fin a => Fin (Qred a)
  | _ => x
  end.

(** A value is an integer. *)
Definition is_integer (x : number) : Prop :=
  exists z : Z, match x with Fin a => (a == inject_Z z)%Q | _ => False end.

(* ================================================================== *)
(** ** Units and the divisor table *)
(* ================================================================== *)

Inductive TimeUnit : Type :=
| milliseconds | seconds | minutes | hours | days | weeks | microfortnights.

Definition TimeUnit_eq_dec (a b : TimeUnit) : {a = b} + {a <> b}.
Proof. decide equality. Defined.

(** [a === b] on unit names. *)
Definition unit_eqb (a b : TimeUnit) : bool :=
  if TimeUnit_eq_dec a b then true else false.

Definition divisors (u : TimeUnit) : number :=
  match u with
  | microfortnights => Fin (12096 # 10)
  | weeks => (num 3600000 * num 24 * num 7)%js
  | days => (num 3600000 * num 24)%js
  | hours => num 3600000
  | minutes => num 60000
  | seconds => num 1000
  | milliseconds => num 1
  end.

Arguments divisors : simpl never.

(** A [Partial<Record<TimeUnit, number>>]: keys in insertion order. *)
Definition Breakdown : Type := list (TimeUnit * number).

Definition obj_keys (o : Breakdown) : list TimeUnit := map fst o.

Fixpoint obj_get (o : Breakdown) (k : TimeUnit) : option number :=
  match o with
  | [] => None
  | (k', v) :: o' => if unit_eqb k' k then Some v else obj_get o' k
  end.

(** [o[k] = v]: an existing key keeps its position. *)
Fixpoint obj_set (o : Breakdown) (k : TimeUnit) (v : number) : Breakdown :=
  match o with
  | [] => [(k, v)]
  | (k', v') :: o' =>
      if unit_eqb k' k then (k', v) :: o' else (k', v') :: obj_set o' k v
  end.

(** Values in lowest terms. *)
Definition obj_red (o : Breakdown) : Breakdown :=
  map (fun e => (fst e, num_red (snd e))) o.

(* ================================================================== *)
(** ** [TimePeriod] *)
(* ================================================================== *)

Record TimePeriod : Type := mkTimePeriod { asMilliseconds : number }.

(** Argument of the constructor: milliseconds or a breakdown. *)
Inductive TimePeriodInput : Type :=
| InMs (milliseconds : number)
| InBreakdown (breakdown : Breakdown).

Definition new_TimePeriod (t : TimePeriodInput) : TimePeriod :=
  match t with
  | InMs n => mkTimePeriod n
  | InBreakdown b =>
      mkTimePeriod
        (fold_left (fun sum e => (sum + divisors (fst e) * snd e)%js) b (num 0))
  end.

Definition asSeconds (this : TimePeriod) : number :=
  (asMilliseconds this / divisors seconds)%js.
Definition asMinutes (this : TimePeriod) : number :=
  (asMilliseconds this / divisors minutes)%js.
Definition asHours (this : TimePeriod) : number :=
  (asMilliseconds this / divisors hours)%js.
Definition asDays (this : TimePeriod) : number :=
  (asMilliseconds this / divisors days)%js.
Definition asWeeks (this : TimePeriod) : number :=
  (asMilliseconds this / divisors weeks)%js.

(** [TimePeriod | PartialBreakdown] *)
Inductive PeriodLike : Type :=
| APeriod (p : TimePeriod)
| ABreakdown (b : Breakdown).

Definition toPeriod (p : PeriodLike) : TimePeriod :=
  match p with
  | APeriod p => p
  | ABreakdown b => new_TimePeriod (InBreakdown b)
  end.

Definition TimePeriod_add (this : TimePeriod) (periods : list PeriodLike)
  : TimePeriod :=
  new_TimePeriod (InBreakdown
    [(milliseconds,
      fold_left (fun sum p => (sum + asMilliseconds (toPeriod p))%js)
                periods (asMilliseconds this))]).

Definition TimePeriod_subtract (this : TimePeriod) (period : PeriodLike)
  : TimePeriod :=
  let period := toPeriod period in
  new_TimePeriod (InMs (asMilliseconds this - asMilliseconds period)%js).

Definition multiply (this : TimePeriod) (by_ : number) : TimePeriod :=
  new_TimePeriod (InBreakdown [(milliseconds, (asMilliseconds this * by_)%js)]).

Definition divide (this : TimePeriod) (by_ : number) : TimePeriod :=
  new_TimePeriod (InBreakdown [(milliseconds, (asMilliseconds this / by_)%js)]).

Definition TimePeriod_equals (this period : TimePeriod) : bool :=
  (asMilliseconds period === asMilliseconds this)%js.

Definition TimePeriod_abs (this : TimePeriod) : TimePeriod :=
  if (asMilliseconds this <? num 0)%js
  then new_TimePeriod (InMs (Math_abs (asMilliseconds this)))
  else this.

Definition TimePeriod_weeks (n : number) := new_TimePeriod (InBreakdown [(weeks, n)]).
Definition TimePeriod_days (n : number) := new_TimePeriod (InBreakdown [(days, n)]).
Definition TimePeriod_hours (n : number) := new_TimePeriod (InBreakdown [(hours, n)]).
Definition TimePeriod_minutes (n : number) := new_TimePeriod (InBreakdown [(minutes, n)]).
Definition TimePeriod_seconds (n : number) := new_TimePeriod (InBreakdown [(seconds, n)]).
Definition TimePeriod_milliseconds (n : number) := new_TimePeriod (InMs n).

(** [toJSON]: [{ milliseconds: this.asMilliseconds }], an object of the shape
    the constructor takes. *)
Definition TimePeriod_toJSON (this : TimePeriod) : TimePeriodInput :=
  InBreakdown [(milliseconds, asMilliseconds this)].

(** *** [breakdown] *)

(** One property of a [Partial<BreakdownOptions>] argument: the key is
    missing, or it is given with the value [undefined] ([Given None]) or
    with a boolean. *)
Inductive OptField : Type :=
| Missing
| Given (v : option bool).

Record PartialOptions : Type := mkOptions {
  opt_floatLast : OptField;
  opt_includeZero : OptField
}.

(** The fully populated options: each value a boolean or [undefined]. *)
Record BreakdownOptions : Type := mkFullOptions {
  floatLast : option bool;
  includeZero : option bool
}.

(** [{}] *)
Definition no_options : PartialOptions := mkOptions Missing Missing.

(** [{ key: default, ...o }] for one key. *)
Definition spread (default : bool) (f : OptField) : option bool :=
  match f with
  | Missing => Some default
  | Given v => v
  end.

(** Truthiness of a boolean-or-undefined value. *)
Definition truthy (v : option bool) : bool :=
  match v with
  | Some b => b
  | None => false
  end.

(** First parameter of [breakdown]: a unit list or the options. *)
Inductive UnitsArg : Type :=
| Units (units : list TimeUnit)
| Opts (options : PartialOptions).

(** [Array.prototype.sort] with a comparator: a stable sort; [x] goes after
    [y] when the comparator is positive. *)
Fixpoint sort_insert {A : Type} (cmp : A -> A -> number) (x : A) (l : list A)
  : list A :=
  match l with
  | [] => [x]
  | y :: l' => if (cmp x y >? num 0)%js then y :: sort_insert cmp x l' else x :: l
  end.

Definition Array_sort {A : Type} (cmp : A -> A -> number) (l : list A) : list A :=
  fold_right (sort_insert cmp) [] l.

(** [units.at(-1)] *)
Fixpoint at_last {A : Type} (l : list A) : option A :=
  match l with
  | [] => None
  | [x] => Some x
  | _ :: l' => at_last l'
  end.

(** The comparator of [breakdown]: [(a, b) => divisors[b] - divisors[a]]. *)
Definition by_divisor (a b : TimeUnit) : number := (divisors b - divisors a)%js.

(** [unit === floatUnit], where [floatUnit] is a unit name, [false] or
    [undefined]; only a unit name can be equal to [unit]. *)
Definition is_floatUnit (floatUnit : option TimeUnit) (unit : TimeUnit) : bool :=
  match floatUnit with
  | Some f => unit_eqb unit f
  | None => false
  end.

(** Body of the [forEach] callback; the state is [(remaining, result)]. *)
Definition breakdown_step (floatUnit : option TimeUnit) (includeZero : option bool)
    (st : number * Breakdown) (unit : TimeUnit) : number * Breakdown :=
  let (remaining, result) := st in
  let div := divisors unit in
  if is_floatUnit floatUnit unit then
    let amount := (remaining / div)%js in
    (remaining,
     if truthy includeZero || (amount !== num 0)%js
     then obj_set result unit amount else result)
  else
    let amount := Math_floor (remaining / div)%js in
    let remaining := (remaining - amount * div)%js in
    (remaining,
     if truthy includeZero || (amount !== num 0)%js
     then obj_set result unit amount else result).

(** The part of [breakdown] after the defaults are resolved. *)
Definition breakdown_with (this : TimePeriod) (units : list TimeUnit)
    (fullOptions : BreakdownOptions) : Breakdown :=
  let units := Array_sort by_divisor units in
  let remaining := asMilliseconds this in
  let result : Breakdown := [] in
  let floatUnit := if truthy (floatLast fullOptions) then at_last units else None in
  snd (fold_left (breakdown_step floatUnit (includeZero fullOptions))
                 units (remaining, result)).

(** Resolution of the two call shapes.  An omitted argument takes its
    default [{}]. *)
Definition breakdown_args (units : option UnitsArg) (options : option PartialOptions)
  : list TimeUnit * BreakdownOptions :=
  let units := match units with Some u => u | None => Opts no_options end in
  let options := match options with Some o => o | None => no_options end in
  match units with
  | Units l =>
      (l, mkFullOptions (spread false (opt_floatLast options))
                        (spread true (opt_includeZero options)))
  | Opts o =>
      ([days; hours; minutes; seconds; milliseconds],
       mkFullOptions (spread true (opt_floatLast o))
                     (spread false (opt_includeZero o)))
  end.

Definition breakdown (this : TimePeriod) (units : option UnitsArg)
    (options : option PartialOptions) : Breakdown :=
  let (units, fullOptions) := breakdown_args units options in
  breakdown_with this units fullOptions.

(** The period of the unit tests of [breakdown]. *)
Definition period_1h30m15s : TimePeriod :=
  new_TimePeriod (InBreakdown [(hours, num 1); (minutes, num 30); (seconds, num 15)]).

(* ================================================================== *)
(** ** Exceptions *)
(* ================================================================== *)

Inductive Exception : Type :=
| Error (message : string)
| RangeError (message : string).

Inductive Result (A : Type) : Type :=
| Ok (a : A)
| Throw (e : Exception).
Arguments Ok {A} a.
Arguments Throw {A} e.

Definition bind {A B : Type} (r : Result A) (k : A -> Result B) : Result B :=
  match r with
  | Ok a => k a
  | Throw e => Throw e
  end.

Notation "x <- r ;; k" := (bind r (fun x => k))
  (at level 61, r at next level, right associativity).
Notation "r ;; k" := (bind r (fun _ => k))
  (at level 61, right associativity).

(** [if (cond) throw e;] *)
Definition throw_if (cond : bool) (e : Exception) : Result unit :=
  if cond then Throw e else Ok tt.

(* ================================================================== *)
(** ** The host's [Date]

    The source reads the length of a month from the host:
    [new Date(year, month, 0).getDate()].  The functions below are the
    abstract operations of ECMA-262 (section "Date Objects") that this call
    goes through, with the local time zone taken to be UTC.  Time values are
    integers when they are not [NaN]. *)
(* ================================================================== *)

Local Open Scope Z_scope.

Definition msPerDay : Z := 86400000.

Definition Day (t : Z) : Z := t / msPerDay.

Definition is_leap (y : Z) : bool :=
  (y mod 4 =? 0)%Z && (negb (y mod 100 =? 0)%Z || (y mod 400 =? 0)%Z).

Definition DaysInYear (y : Z) : Z := if is_leap y then 366 else 365.

Definition DayFromYear (y : Z) : Z :=
  365 * (y - 1970) + (y - 1969) / 4 - (y - 1901) / 100 + (y - 1601) / 400.

Definition TimeFromYear (y : Z) : Z := msPerDay * DayFromYear y.

(** The largest year whose start is not after [t]: an estimate from the mean
    length of a year, then one step of adjustment. *)
Definition YearFromTime (t : Z) : Z :=
  let y := 1970 + (Day t * 400) / 146097 in
  if (t <? TimeFromYear y)%Z then y - 1
  else if (TimeFromYear (y + 1) <=? t)%Z then y + 1
  else y.

Definition InLeapYear (t : Z) : Z :=
  if (DaysInYear (YearFromTime t) =? 366)%Z then 1 else 0.

Definition DayWithinYear (t : Z) : Z := Day t - DayFromYear (YearFromTime t).

Definition MonthFromTime (t : Z) : Z :=
  let d := DayWithinYear t in
  let leap := InLeapYear t in
  if (d <? 31)%Z then 0
  else if (d <? 59 + leap)%Z then 1
  else if (d <? 90 + leap)%Z then 2
  else if (d <? 120 + leap)%Z then 3
  else if (d <? 151 + leap)%Z then 4
  else if (d <? 181 + leap)%Z then 5
  else if (d <? 212 + leap)%Z then 6
  else if (d <? 243 + leap)%Z then 7
  else if (d <? 273 + leap)%Z then 8
  else if (d <? 304 + leap)%Z then 9
  else if (d <? 334 + leap)%Z then 10
  else 11.

Definition DateFromTime (t : Z) : Z :=
  let d := DayWithinYear t in
  let leap := InLeapYear t in
  match MonthFromTime t with
  | 0 => d + 1
  | 1 => d - 30
  | 2 => d - 58 - leap
  | 3 => d - 89 - leap
  | 4 => d - 119 - leap
  | 5 => d - 150 - leap
  | 6 => d - 180 - leap
  | 7 => d - 211 - leap
  | 8 => d - 242 - leap
  | 9 => d - 272 - leap
  | 10 => d - 303 - leap
  | _ => d - 333 - leap
  end%Z.

(** Day number, within its year, of the first day of month [mn] (0 to 11). *)
Definition DaysBeforeMonth (leap : bool) (mn : Z) : Z :=
  (match mn with
   | 0 => 0 | 1 => 31 | 2 => 59 | 3 => 90 | 4 => 120 | 5 => 151 | 6 => 181
   | 7 => 212 | 8 => 243 | 9 => 273 | 10 => 304 | _ => 334
   end + (if leap && (2 <=? mn) then 1 else 0))%Z.

Local Close Scope Z_scope.

(** [ToIntegerOrInfinity] *)
Definition ToIntegerOrInfinity (x : number) : number :=
  match x with
  | NaN => num 0
  | Fin a => num (Qtrunc a)
  | _ => x
  end.

Definition MakeFullYear (year : number) : number :=
  match year with
  | NaN => NaN
  | _ =>
      match ToIntegerOrInfinity year with
      | Fin t =>
          let truncated := Qtrunc t in
          if (0 <=? truncated)%Z && (truncated <=? 99)%Z
          then num (1900 + truncated) else num truncated
      | inf => inf
      end
  end.

(** [MakeDay]: the day number of the first of the month, found by its year
    and month, plus [date - 1]. *)
Definition MakeDay (year month date : number) : number :=
  match year, month, date with
  | Fin y, Fin m, Fin dt =>
      let y := Qtrunc y in
      let m := Qtrunc m in
      let dt := Qtrunc dt in
      let ym := (y + m / 12)%Z in
      let mn := (m mod 12)%Z in
      num (DayFromYear ym + DaysBeforeMonth (is_leap ym) mn + dt - 1)
  | _, _, _ => NaN
  end.

Definition MakeDate (day time : number) : number :=
  match day, time with
  | Fin _, Fin _ => (day * num msPerDay + time)%js
  | _, _ => NaN
  end.

Definition TimeClip (time : number) : number :=
  match time with
  | Fin _ =>
      if (Math_abs time >? num 8640000000000000)%js then NaN
      else ToIntegerOrInfinity time
  | _ => NaN
  end.

(** With the local time zone UTC, [UTC] and [LocalTime] are the identity.
    The operations for a host in another zone are [UTC_in] and
    [LocalTime_in] below. *)
Definition UTC (t : number) : number := t.
Definition LocalTime (t : Z) : Z := t.

(** A host date object: its time value. *)
Record Date : Type := mkDate { getTime : number }.

(** [new Date(year, month, date)] *)
Definition new_Date_ymd (year month date : number) : Date :=
  let yr := MakeFullYear year in
  let finalDate := MakeDate (MakeDay yr month date) (num 0) in
  mkDate (TimeClip (UTC finalDate)).

(** [getDate()] *)
Definition getDate (d : Date) : number :=
  match getTime d with
  | Fin t => num (DateFromTime (LocalTime (Qtrunc t)))
  | _ => NaN
  end.

(* ================================================================== *)
(** ** [TimePoint] *)
(* ================================================================== *)

Record TimePoint : Type := mkTimePoint { unixEpoch : TimePeriod }.

Record TimePointDescription : Type := mkDescription {
  year : number;
  month : number;
  day : number;
  hour : number;
  minute : number;
  second : number;
  timezone : string
}.

(** The six shapes the constructor accepts. *)
Inductive TimePointInput : Type :=
| InDate (date : Date)
| InNumber (unixMs : number)
| InPeriod (unixPeriod : TimePeriod)
| InString (dateString : string)
| InDescription (description : TimePointDescription)
| InEpochDescription (unixEpoch : Breakdown).

(** [TimePoint | Date] *)
Inductive PointOrDate : Type :=
| APoint (p : TimePoint)
| ADate (d : Date).

(** [s.padStart(targetLength, "0")] *)
Definition padStart (targetLength : nat) (s : string) : string :=
  let fix zeros (n : nat) : string :=
    match n with
    | O => EmptyString
    | S n' => String "0"%char (zeros n')
    end in
  (zeros (targetLength - String.length s)%nat ++ s)%string.

(** The string functions of the host that the constructor calls: the date
    parser, [new Date(string).getTime()], and the conversion of a number to
    a string, [n + ''].  They are collaborators, not part of the library. *)
Record Platform : Type := mkPlatform {
  Date_parse : string -> number;
  Number_toString : number -> string
}.

Definition invalid_descriptor : Exception :=
  Error "Invalid time descriptor (non-integral values are only allowed for 'second')".

Section TimePoint.

Variable host : Platform.

(** [new Date(dateString)] *)
Definition new_Date_string (dateString : string) : Date :=
  mkDate (Date_parse host dateString).

(** The normalisation chain of the constructor for the inputs that are
    not descriptors: string, then date, then number, then period. *)
Definition from_period (input : TimePeriod) : TimePoint := mkTimePoint input.
Definition from_number (input : number) : TimePoint :=
  from_period (new_TimePeriod (InMs input)).
Definition from_date (input : Date) : TimePoint := from_number (getTime input).
Definition from_string (input : string) : TimePoint :=
  from_date (new_Date_string input).

Definition new_TimePoint (input : TimePointInput) : Result TimePoint :=
  match input with
  | InString s => Ok (from_string s)
  | InDate d => Ok (from_date d)
  | InNumber n => Ok (from_number n)
  | InPeriod p => Ok (from_period p)
  | InEpochDescription b => Ok (from_period (new_TimePeriod (InBreakdown b)))
  | InDescription (mkDescription year month day hour minute second timezone) =>
      throw_if (existsb (fun v => (v %% num 1 >? num 0)%js)
                        [year; month; day; hour; minute])
               invalid_descriptor ;;
      throw_if ((month <? num 1) || (month >? num 12))%js
               (RangeError "Invalid month") ;;
      let maxDay := getDate (new_Date_ymd year month (num 0)) in
      throw_if ((day <? num 1) || (day >? maxDay))%js
               (RangeError "Invalid day") ;;
      throw_if ((hour <? num 0) || (hour >=? num 24))%js
               (RangeError "Invalid hour") ;;
      throw_if ((minute <? num 0) || (minute >=? num 60))%js
               (RangeError "Invalid minute") ;;
      throw_if ((second <? num 0) || (second >=? num 60))%js
               (RangeError "Invalid second") ;;
      let pad := fun n => padStart 2 (Number_toString host n) in
      let month0 := pad month in
      let day0 := pad day in
      let hour0 := pad hour in
      let minute0 := pad minute in
      let second0 := pad second in
      Ok (from_period (unixEpoch (from_string
        (Number_toString host year ++ "-" ++ month0 ++ "-" ++ day0 ++ " "
         ++ hour0 ++ ":" ++ minute0 ++ ":" ++ second0 ++ " " ++ timezone)%string)))
  end.

Definition asDate (this : TimePoint) : Date :=
  mkDate (asMilliseconds (unixEpoch this)).

(** [when instanceof Date ? when.getTime() : when.unixEpoch.asMilliseconds] *)
Definition ms_of (when : PointOrDate) : number :=
  match when with
  | ADate d => getTime d
  | APoint p => asMilliseconds (unixEpoch p)
  end.

Definition isBefore (this : TimePoint) (when : PointOrDate) : bool :=
  (asMilliseconds (unixEpoch this) <? ms_of when)%js.

Definition isAfter (this : TimePoint) (when : PointOrDate) : bool :=
  (asMilliseconds (unixEpoch this) >? ms_of when)%js.

Definition TimePoint_add (this : TimePoint) (periods : list PeriodLike)
  : Result TimePoint :=
  new_TimePoint (InPeriod (TimePeriod_add (unixEpoch this) periods)).

Definition TimePoint_subtract (this : TimePoint) (period : PeriodLike)
  : Result TimePoint :=
  new_TimePoint (InPeriod (TimePeriod_subtract (unixEpoch this) period)).

Definition difference (this : TimePoint) (time : PointOrDate) : TimePeriod :=
  let timeMs := ms_of time in
  new_TimePeriod (InMs (timeMs - asMilliseconds (unixEpoch this))%js).

Definition TimePoint_equals (this : TimePoint) (point : PointOrDate) : bool :=
  (asMilliseconds (unixEpoch this) === ms_of point)%js.

Definition TimePoint_compare (this : TimePoint) (point : PointOrDate) : Z :=
  let thisMs := asMilliseconds (unixEpoch this) in
  let pointMs := ms_of point in
  if (thisMs === pointMs)%js then 0%Z
  else if (thisMs <? pointMs)%js then (-1)%Z else 1%Z.

(** [toJSON]: [{ unixEpoch: this.unixEpoch.breakdown() }], an object of the
    shape the constructor takes. *)
Definition TimePoint_toJSON (this : TimePoint) : TimePointInput :=
  InEpochDescription (breakdown (unixEpoch this) None None).

Definition epochStart : Result TimePoint := new_TimePoint (InNumber (num 0)).

(* ================================================================== *)
(** ** The scheduler: [atTime]

    The host's clock and single-shot timers are a state, [EventLoop].  The
    two closures the source hands to [setTimeout] are the two [Handler]s.
    The [trace] is the record of what happened: which timers were armed and
    when the callback ran. *)
(* ================================================================== *)

(** The two closures given to [setTimeout]: [func] itself, and
    [() => atTime(time, func)]. *)
Inductive Handler : Type :=
| CallFunc
| CallAtTime (time : PointOrDate).

Record Timer : Type := mkTimer {
  handler : Handler;
  delay : number;
  armedAt : number
}.

Inductive Event : Type :=
| Armed (t : Timer)
| Ran (clock : number).

Record EventLoop : Type := mkEventLoop {
  Date_now : number;
  timers : list Timer;
  trace : list Event
}.

Definition setTimeout (h : Handler) (ms : number) (el : EventLoop) : EventLoop :=
  let t := mkTimer h ms (Date_now el) in
  mkEventLoop (Date_now el) (timers el ++ [t]) (trace el ++ [Armed t]).

Definition TimePoint_now (el : EventLoop) : Result TimePoint :=
  new_TimePoint (InNumber (Date_now el)).

Definition atTime (time : PointOrDate) (el : EventLoop) : Result EventLoop :=
  now <- TimePoint_now el ;;
  let diff := difference now time in
  if (asSeconds diff <? num 30)%js
  then Ok (setTimeout CallFunc (asMilliseconds diff) el)
  else Ok (setTimeout (CallAtTime time) (num 30000) el).

(** Argument of [wait]: a period, milliseconds, a breakdown, or a point in
    time to wait for. *)
Inductive WaitInput : Type :=
| WaitPeriod (period : TimePeriod)
| WaitMs (milliseconds : number)
| WaitBreakdown (breakdown : Breakdown)
| WaitUntil (timePoint : PointOrDate).

(** The host's clock moves on by [elapsed] milliseconds. *)
Definition tick (elapsed : number) (el : EventLoop) : EventLoop :=
  mkEventLoop (Date_now el + elapsed)%js (timers el) (trace el).

(** [wait]: the promise it returns is resolved by the callback that
    [atTime] is given.  For a period, [wait] reads the clock
    ([TimePoint.now()]) to find the target and [atTime] then reads the clock
    again; [elapsed] is what the clock has moved on between the two
    readings.  For a point in time only [atTime] reads the clock. *)
Definition wait (time : WaitInput) (elapsed : number) (el : EventLoop)
  : Result EventLoop :=
  let later := fun period =>
    now <- TimePoint_now el ;;
    target <- TimePoint_add now [period] ;;
    atTime (APoint target) (tick elapsed el) in
  match time with
  | WaitMs n => later (ABreakdown [(milliseconds, n)])
  | WaitPeriod p => later (APeriod p)
  | WaitBreakdown b => later (ABreakdown b)
  | WaitUntil t => atTime t el
  end.

(** The host fires the oldest pending timer.  It does so no earlier than
    the requested delay after the timer was armed (a delay that is not
    positive counts as zero) and [late] milliseconds after that. *)
Definition due (t : Timer) : number :=
  (armedAt t + (if (delay t >? num 0)%js then delay t else num 0))%js.

Definition fire (late : Q) (el : EventLoop) : Result EventLoop :=
  match timers el with
  | [] => Ok el
  | t :: pending =>
      let clock := (due t + Fin late)%js in
      match handler t with
      | CallFunc => Ok (mkEventLoop clock pending (trace el ++ [Ran clock]))
      | CallAtTime time => atTime time (mkEventLoop clock pending (trace el))
      end
  end.

(** The host fires timers one after the other, as late as the list says. *)
Fixpoint run (lateness : list Q) (el : EventLoop) : Result EventLoop :=
  match lateness with
  | [] => Ok el
  | late :: lateness' => el' <- fire late el ;; run lateness' el'
  end.

End TimePoint.

(* ================================================================== *)
(** ** The host's time zone

    [new Date(year, month, 0)] takes its arguments as local time and
    [getDate] answers in local time.  Above the host is in UTC.  Here the
    zone of the host is a parameter: the same operations of ECMA-262 with
    the host's offset, and the constructor of [TimePoint] over them. *)
(* ================================================================== *)

(** [LocalTZA(t, isUTC)]: the offset of local time from UTC, in
    milliseconds, that the host has for the time value [t]; [isUTC] says
    whether [t] is a UTC time value or a local one. *)
Record TimeZone : Type := mkTimeZone { LocalTZA : Z -> bool -> Z }.

(** [LocalTime(t) = t + LocalTZA(t, true)] *)
Definition LocalTime_in (zone : TimeZone) (t : Z) : Z :=
  (t + LocalTZA zone t true)%Z.

(** [UTC(t) = t - LocalTZA(t, false)], [NaN] when [t] is not finite. *)
Definition UTC_in (zone : TimeZone) (t : number) : number :=
  match t with
  | Fin a => (t - num (LocalTZA zone (Qtrunc a) false))%js
  | _ => NaN
  end.

(** [new Date(year, month, date)] *)
Definition new_Date_ymd_in (zone : TimeZone) (year month date : number) : Date :=
  let yr := MakeFullYear year in
  let finalDate := MakeDate (MakeDay yr month date) (num 0) in
  mkDate (TimeClip (UTC_in zone finalDate)).

(** [getDate()] *)
Definition getDate_in (zone : TimeZone) (d : Date) : number :=
  match getTime d with
  | Fin t => num (DateFromTime (LocalTime_in zone (Qtrunc t)))
  | _ => NaN
  end.

(** The zone of UTC, and a zone at a constant offset from it. *)
Definition utc_zone : TimeZone := mkTimeZone (fun _ _ => 0%Z).
Definition constant_zone (offset : Z) : TimeZone := mkTimeZone (fun _ _ => offset).

(** The constructor of [TimePoint] on a host in the zone [zone]. *)
Definition new_TimePoint_in (zone : TimeZone) (host : Platform)
    (input : TimePointInput) : Result TimePoint :=
  match input with
  | InString s => Ok (from_string host s)
  | InDate d => Ok (from_date d)
  | InNumber n => Ok (from_number n)
  | InPeriod p => Ok (from_period p)
  | InEpochDescription b => Ok (from_period (new_TimePeriod (InBreakdown b)))
  | InDescription (mkDescription year month day hour minute second timezone) =>
      throw_if (existsb (fun v => (v %% num 1 >? num 0)%js)
                        [year; month; day; hour; minute])
               invalid_descriptor ;;
      throw_if ((month <? num 1) || (month >? num 12))%js
               (RangeError "Invalid month") ;;
      let maxDay := getDate_in zone (new_Date_ymd_in zone year month (num 0)) in
      throw_if ((day <? num 1) || (day >? maxDay))%js
               (RangeError "Invalid day") ;;
      throw_if ((hour <? num 0) || (hour >=? num 24))%js
               (RangeError "Invalid hour") ;;
      throw_if ((minute <? num 0) || (minute >=? num 60))%js
               (RangeError "Invalid minute") ;;
      throw_if ((second <? num 0) || (second >=? num 60))%js
               (RangeError "Invalid second") ;;
      let pad := fun n => padStart 2 (Number_toString host n) in
      let month0 := pad month in
      let day0 := pad day in
      let hour0 := pad hour in
      let minute0 := pad minute in
      let second0 := pad second in
      Ok (from_period (unixEpoch (from_string host
        (Number_toString host year ++ "-" ++ month0 ++ "-" ++ day0 ++ " "
         ++ hour0 ++ ":" ++ minute0 ++ ":" ++ second0 ++ " " ++ timezone)%string)))
  end.

(** An event loop with nothing pending. *)
Definition idle (clock : number) : EventLoop := mkEventLoop clock [] [].

(** The timers armed so far, in order. *)
Definition armed (el : EventLoop) : list Timer :=
  flat_map (fun e => match e with Armed t => [t] | Ran _ => [] end) (trace el).

(** The times at which the callback ran. *)
Definition ran (el : EventLoop) : list number :=
  flat_map (fun e => match e with Armed _ => [] | Ran c => [c] end) (trace el).

(* ================================================================== *)
(** ** The decomposition algorithm as the specification words it *)
(* ================================================================== *)

(** "For every unit, the entry is included in the result only if
    [includeZero] is true or [amount != 0]." *)
Definition include_entry (includeZero : bool) (result : Breakdown)
    (unit : TimeUnit) (amount : number) : Breakdown :=
  if includeZero || (amount !== num 0)%js then obj_set result unit amount else result.

(** "For each unit in significance order except the last:
    [amount = floor(remaining / divisor)]; [remaining -= amount * divisor].
    For the last unit: if [floatLast] is true, [amount = remaining / divisor];
    otherwise [amount = floor(remaining / divisor)] and the remainder is
    dropped."  The position in the list decides which unit is the last. *)
Fixpoint decompose_spec (floatLast includeZero : bool) (remaining : number)
    (sorted : list TimeUnit) (result : Breakdown) : Breakdown :=
  match sorted with
  | [] => result
  | unit :: rest =>
      let divisor := divisors unit in
      match rest with
      | [] =>
          let amount :=
            if floatLast then (remaining / divisor)%js
            else Math_floor (remaining / divisor)%js in
          include_entry includeZero result unit amount
      | _ :: _ =>
          let amount := Math_floor (remaining / divisor)%js in
          let remaining := (remaining - amount * divisor)%js in
          decompose_spec floatLast includeZero remaining rest
                         (include_entry includeZero result unit amount)
      end
  end.

Definition breakdown_spec (d : TimePeriod) (units : list TimeUnit)
    (floatLast includeZero : bool) : Breakdown :=
  decompose_spec floatLast includeZero (asMilliseconds d)
                 (Array_sort by_divisor units) [].

(** The amounts alone, for every unit of the sorted list. *)
Fixpoint amounts_spec (floatLast : bool) (remaining : number)
    (sorted : list TimeUnit) : Breakdown :=
  match sorted with
  | [] => []
  | unit :: rest =>
      let divisor := divisors unit in
      match rest with
      | [] =>
          [(unit, if floatLast then (remaining / divisor)%js
                  else Math_floor (remaining / divisor)%js)]
      | _ :: _ =>
          let amount := Math_floor (remaining / divisor)%js in
          (unit, amount)
            :: amounts_spec floatLast (remaining - amount * divisor)%js rest
      end
  end.

(** An entry is kept when [includeZero] is set or its amount is not zero. *)
Definition kept (includeZero : bool) (e : TimeUnit * number) : bool :=
  includeZero || (snd e !== num 0)%js.

(* ================================================================== *)
(** ** The earlier revision

    [src/index.ts] also holds an earlier revision of the two classes.  It
    differs from the current one in three places that the properties below
    touch: the length of a month comes from a table, [breakdown] does not
    sort the units, and [difference] takes a [TimePoint] only. *)
(* ================================================================== *)

Module Rev1.

Definition maxDay : list number :=
  map num [31; 29; 31; 30; 31; 30; 31; 31; 30; 31; 30; 31]%Z.

(** [a[i]] for a number [i]: [undefined] unless [i] is an index of [a]. *)
Definition array_get (a : list number) (i : number) : option number :=
  match i with
  | Fin q =>
      if Qeq_bool q (inject_Z (Qfloor q)) && (0 <=? Qfloor q)%Z
      then nth_error a (Z.to_nat (Qfloor q)) else None
  | _ => None
  end.

(** [x > y] where [y] may be [undefined], which converts to [NaN]. *)
Definition gt_maybe (x : number) (y : option number) : bool :=
  match y with
  | Some y => (x >? y)%js
  | None => false
  end.

Section TimePoint.

Variable host : Platform.

Definition new_TimePoint (input : TimePointInput) : Result TimePoint :=
  match input with
  | InString s => Ok (from_string host s)
  | InDate d => Ok (from_date d)
  | InNumber n => Ok (from_number n)
  | InPeriod p => Ok (from_period p)
  | InEpochDescription b => Ok (from_period (new_TimePeriod (InBreakdown b)))
  | InDescription (mkDescription year month day hour minute second timezone) =>
      throw_if (existsb (fun v => (v %% num 1 >? num 0)%js)
                        [year; month; day; hour; minute])
               invalid_descriptor ;;
      throw_if ((month <? num 1) || (month >? num 12))%js
               (RangeError "Invalid month") ;;
      throw_if ((day <? num 1)%js || gt_maybe day (array_get maxDay (month - num 1)%js))
               (RangeError "Invalid day") ;;
      throw_if ((hour <? num 0) || (hour >=? num 24))%js
               (RangeError "Invalid hour") ;;
      throw_if ((minute <? num 0) || (minute >=? num 60))%js
               (RangeError "Invalid minute") ;;
      throw_if ((second <? num 0) || (second >=? num 60))%js
               (RangeError "Invalid second") ;;
      let pad := fun n => padStart 2 (Number_toString host n) in
      let ms := getTime (new_Date_string host
        (pad year ++ "-" ++ pad month ++ "-" ++ pad day ++ " "
         ++ pad hour ++ ":" ++ pad minute ++ ":" ++ pad second ++ " " ++ timezone)%string) in
      Ok (from_period (new_TimePeriod (InMs ms)))
  end.

End TimePoint.

Definition difference (this time : TimePoint) : TimePeriod :=
  TimePeriod_subtract (unixEpoch time) (APeriod (unixEpoch this)).

Definition breakdown (this : TimePeriod) (units : option UnitsArg)
    (options : option PartialOptions) : Breakdown :=
  let (units, fullOptions) := breakdown_args units options in
  let remaining := asMilliseconds this in
  let result : Breakdown := [] in
  let floatUnit := if truthy (floatLast fullOptions) then at_last units else None in
  snd (fold_left (breakdown_step floatUnit (includeZero fullOptions))
                 units (remaining, result)).

End Rev1.

(* ================================================================== *)
(** ** Notions used to state the properties *)
(* ================================================================== *)

(** [a] is strictly more significant than [b]: its divisor is larger. *)
Definition more_significant (a b : TimeUnit) : Prop :=
  (divisors b <? divisors a)%js = true.

(** The comparator sends [a] behind [b]. *)
Definition goes_after (a b : TimeUnit) : bool := (by_divisor a b >? num 0)%js.

(** [a] may stand before [b] in a sorted list. *)
Definition not_after (a b : TimeUnit) : Prop := goes_after a b = false.

(** The distance to the target that [atTime] computes. *)
Definition distance (time : PointOrDate) (clock : number) : TimePeriod :=
  difference (from_number clock) time.

(** A host without a usable date parser; the scheduler does not call it. *)
Definition bare_host : Platform := mkPlatform (fun _ => NaN) (fun _ => EmptyString).

(** A timer armed by [atTime] for the target [time]: the distance is
    measured from the clock at arming; under thirty seconds the timer runs
    the callback after exactly that distance, otherwise it re-invokes
    [atTime] with the same target after 30000 ms. *)
Definition armed_by (time : PointOrDate) (t : Timer) : Prop :=
  let diff := distance time (armedAt t) in
  if (asSeconds diff <? num 30)%js
  then handler t = CallFunc /\ delay t = asMilliseconds diff
  else handler t = CallAtTime time /\ delay t = num 30000.

(** The callback ran at [c] because a callback timer fired. *)
Definition ran_from (el : EventLoop) (c : number) : Prop :=
  exists (t : Timer) (late : Q),
    In t (armed el) /\ handler t = CallFunc /\ c = (due t + Fin late)%js.

Definition chain_inv (time : PointOrDate) (el : EventLoop) : Prop :=
  Forall (armed_by time) (armed el)
  /\ incl (timers el) (armed el)
  /\ (forall c, In c (ran el) -> ran_from el c).

(** [atTime] at the given clock on an idle host, then the timers fire. *)
Definition schedule (host : Platform) (time : PointOrDate) (clock : number)
    (lateness : list Q) : Result EventLoop :=
  el <- atTime host time (idle clock) ;; run host lateness el.

(** The timers armed to re-invoke [atTime]. *)
Definition reanchors (el : EventLoop) : nat :=
  List.length (filter (fun t => match handler t with CallAtTime _ => true | CallFunc => false end)
                 (armed el)).

(** The re-invocations of a chain started at clock [c] for the target [t]
    fit in the distance: there is none, or 30000 ms times their number is
    at most [t - c]. *)
Definition reanchors_fit (c t : Q) (el : EventLoop) : Prop :=
  reanchors el = 0%nat \/ c + 30000 * inject_Z (Z.of_nat (reanchors el)) <= t.

(** A chain started at clock [c] for the target [t], on a host that fires
    timers at most [L] late, before the callback has run: one timer is
    pending, armed by [atTime] at clock [a]. *)
Definition waiting (time : PointOrDate) (c t L : Q) (el : EventLoop) (a : Q) : Prop :=
  ran el = []
  /\ c <= a /\ (a == c \/ (a <= t + L /\ c + 30000 <= t))
  /\ ((timers el = [mkTimer CallFunc (Fin (t - a)) (Fin a)] /\ t - a < 30000
       /\ reanchors_fit c t el)
      \/ (timers el = [mkTimer (CallAtTime time) (num 30000) (Fin a)]
          /\ 30000 <= t - a
          /\ c + 30000 * inject_Z (Z.of_nat (reanchors el)) <= a + 30000)).

(** The same chain after the callback has run: it ran once, at a clock [f]
    not before the target nor before the start and at most [2 L] after the
    later of the two; no timer is pending. *)
Definition finished (c t L : Q) (el : EventLoop) : Prop :=
  timers el = [] /\ reanchors_fit c t el
  /\ exists f : Q, ran el = [Fin f] /\ t <= f /\ c <= f
                   /\ (c <= t -> f <= t + 2 * L) /\ (t <= c -> f <= c + L).

(** The sum that the breakdown form of the constructor computes. *)
Definition total (b : Breakdown) (start : number) : number :=
  fold_left (fun sum e => (sum + divisors (fst e) * snd e)%js) b start.

(** The test of the constructor, [v % 1 > 0], on finite values. *)
Definition has_fraction (v : number) : bool := (v %% num 1 >? num 0)%js.

(** Length of month [m] (1 to 12) of year [y] by the Gregorian rule. *)
Definition days_in_month (y m : Z) : Z :=
  match m with
  | 2 => if is_leap y then 29 else 28
  | 4 | 6 | 9 | 11 => 30
  | _ => 31
  end%Z.

Local Open Scope Z_scope.

(** Month and date from the day within the year and the leap flag. *)
Definition month_in_year (d leap : Z) : Z :=
  if d <? 31 then 0
  else if d <? 59 + leap then 1
  else if d <? 90 + leap then 2
  else if d <? 120 + leap then 3
  else if d <? 151 + leap then 4
  else if d <? 181 + leap then 5
  else if d <? 212 + leap then 6
  else if d <? 243 + leap then 7
  else if d <? 273 + leap then 8
  else if d <? 304 + leap then 9
  else if d <? 334 + leap then 10
  else 11.

Definition date_in_year (d leap : Z) : Z :=
  match month_in_year d leap with
  | 0 => d + 1
  | 1 => d - 30
  | 2 => d - 58 - leap
  | 3 => d - 89 - leap
  | 4 => d - 119 - leap
  | 5 => d - 150 - leap
  | 6 => d - 180 - leap
  | 7 => d - 211 - leap
  | 8 => d - 242 - leap
  | 9 => d - 272 - leap
  | 10 => d - 303 - leap
  | _ => d - 333 - leap
  end.

(** Day within the year, counted from 0, of the last day of month [m]. *)
Definition last_day_of_month (leap : bool) (m : Z) : Z :=
  match m with
  | 1 => 30 | 2 => 58 | 3 => 89 | 4 => 119 | 5 => 150 | 6 => 180 | 7 => 211
  | 8 => 242 | 9 => 272 | 10 => 303 | 11 => 333 | _ => 364
  end + (if leap && (2 <=? m) then 1 else 0).

Local Close Scope Z_scope.

(** The zone keeps every local midnight on its day: the offsets the host
    has for a local midnight [t] are within a day, and the instant it takes
    for [t] is, read back in local time, on the day of [t].  This is so in
    UTC and in every zone at a constant offset; it fails where a zone skips
    a whole local day. *)
Definition keeps_days (zone : TimeZone) : Prop :=
  forall t : Z, (t mod msPerDay = 0)%Z ->
    (Z.abs (LocalTZA zone t false) <= msPerDay)%Z
    /\ Day (LocalTime_in zone (t - LocalTZA zone t false)) = Day t.

(** The same number: like [Object.is], with the two zeros identified. *)
Definition same_number (x y : number) : Prop :=
  match x, y with
  | NaN, NaN | PosInf, PosInf | NegInf, NegInf => True
  | Fin a, Fin b => (a == b)%Q
  | _, _ => False
  end.

Local Open Scope Z_scope.

(** The divisor of a unit that is a whole number of milliseconds; the
    microfortnight is not, and is given 0. *)
Definition whole_ms (u : TimeUnit) : Z :=
  match u with
  | microfortnights => 0
  | weeks => 604800000
  | days => 86400000
  | hours => 3600000
  | minutes => 60000
  | seconds => 1000
  | milliseconds => 1
  end.

(** Quotient and remainder, unit after unit. *)
Fixpoint digits (r : Z) (units : list TimeUnit) : list (TimeUnit * Z) :=
  match units with
  | [] => []
  | u :: rest => (u, r / whole_ms u) :: digits (r mod whole_ms u) rest
  end.

(** What remains of [r] after the units of the list. *)
Fixpoint left_over (r : Z) (units : list TimeUnit) : Z :=
  match units with
  | [] => r
  | u :: rest => left_over (r mod whole_ms u) rest
  end.

(** Every amount of the list, in milliseconds, is at least 0 and less than
    the divisor of the unit before it ([bound] for the first). *)
Fixpoint carried (bound : Z) (l : list (TimeUnit * Z)) : Prop :=
  match l with
  | [] => True
  | (u, a) :: rest =>
      0 <= a * whole_ms u < bound /\ carried (whole_ms u) rest
  end.

Local Close Scope Z_scope.

(** A breakdown with whole amounts. *)
Definition whole_amounts (l : list (TimeUnit * Z)) : Breakdown :=
  map (fun e => (fst e, num (snd e))) l.

(* ================================================================== *)
(** * Properties *)
(* ================================================================== *)

(** ** The unit tests and some dates, replayed on the model *)

Example test_breakdown_auto :
  obj_red (breakdown period_1h30m15s None None)
  = [(hours, num 1); (minutes, num 30); (seconds, num 15)].
Proof. vm_compute. reflexivity. Qed.

Example test_breakdown_includeZero :
  obj_red (breakdown period_1h30m15s
             (Some (Opts (mkOptions Missing (Given (Some true))))) None)
  = [(days, num 0); (hours, num 1); (minutes, num 30); (seconds, num 15);
     (milliseconds, num 0)].
Proof. vm_compute. reflexivity. Qed.

Example test_breakdown_floatLast :
  obj_red (breakdown period_1h30m15s (Some (Units [hours; minutes]))
             (Some (mkOptions (Given (Some true)) Missing)))
  = [(hours, num 1); (minutes, Fin (121 # 4))].
Proof. vm_compute. reflexivity. Qed.

Example test_breakdown_any_order :
  obj_red (breakdown period_1h30m15s (Some (Units [minutes; days])) None)
  = [(days, num 0); (minutes, num 90)].
Proof. vm_compute. reflexivity. Qed.

Example test_breakdown_README :
  obj_red (breakdown (TimePeriod_hours (num 26))
             (Some (Units [days; hours; minutes]))
             (Some (mkOptions Missing (Given (Some false)))))
  = [(days, num 1); (hours, num 2)].
Proof. vm_compute. reflexivity. Qed.

Example test_breakdown_seconds :
  obj_red (breakdown (TimePeriod_seconds (Fin (653 # 10)))
             (Some (Units [minutes; seconds]))
             (Some (mkOptions (Given (Some true)) Missing)))
  = [(minutes, num 1); (seconds, Fin (53 # 10))].
Proof. vm_compute. reflexivity. Qed.

Example test_accessors :
  let hourAndHalf := TimePeriod_hours (Fin (3 # 2)) in
  num_red (asDays hourAndHalf) = Fin (1 # 16)
  /\ num_red (asHours hourAndHalf) = Fin (3 # 2)
  /\ num_red (asMinutes hourAndHalf) = num 90
  /\ num_red (asSeconds hourAndHalf) = num 5400
  /\ num_red (asMilliseconds hourAndHalf) = num 5400000
  /\ num_red (asWeeks (new_TimePeriod (InBreakdown [(days, num 14)]))) = num 2.
Proof. vm_compute. repeat split. Qed.

Example test_add_subtract :
  let hourAndHalf := TimePeriod_hours (Fin (3 # 2)) in
  let units := Some (Units [hours; minutes; seconds]) in
  obj_red (breakdown (TimePeriod_add hourAndHalf [APeriod (TimePeriod_seconds (num 125))])
                     units None)
  = [(hours, num 1); (minutes, num 32); (seconds, num 5)]
  /\ obj_red (breakdown (TimePeriod_add hourAndHalf [ABreakdown [(seconds, num 125)]])
                        units None)
     = [(hours, num 1); (minutes, num 32); (seconds, num 5)]
  /\ obj_red (breakdown (TimePeriod_subtract hourAndHalf (ABreakdown [(seconds, num 125)]))
                        units None)
     = [(hours, num 1); (minutes, num 27); (seconds, num 55)].
Proof. vm_compute. repeat split. Qed.

Example test_equals :
  let hourAndHalf := TimePeriod_hours (Fin (3 # 2)) in
  TimePeriod_equals
    (new_TimePeriod (InBreakdown [(hours, num 1); (minutes, num 30)])) hourAndHalf = true
  /\ TimePeriod_equals
       (new_TimePeriod (InBreakdown [(hours, num 1); (minutes, num 30); (milliseconds, num 1)]))
       hourAndHalf = false
  /\ TimePeriod_equals
       (new_TimePeriod (InBreakdown
          [(weeks, num 1); (days, num 6); (hours, num 23); (minutes, num 59);
           (seconds, num 59); (milliseconds, num 1000)]))
       (TimePeriod_weeks (num 2)) = true.
Proof. vm_compute. repeat split. Qed.

Example test_difference :
  let specialTime := from_number (num 1604172600000) in
  let later := TimePeriod_add (unixEpoch specialTime) [ABreakdown [(days, num 1); (hours, num 1)]] in
  obj_red (breakdown (difference specialTime (APoint (from_period later)))
                     (Some (Units [days; minutes])) None)
  = [(days, num 1); (minutes, num 60)].
Proof. vm_compute. reflexivity. Qed.

Example last_day_feb_2020 : getDate (new_Date_ymd (num 2020) (num 2) (num 0)) = num 29.
Proof. vm_compute. reflexivity. Qed.

Example last_day_feb_2021 : getDate (new_Date_ymd (num 2021) (num 2) (num 0)) = num 28.
Proof. vm_compute. reflexivity. Qed.

Example last_day_dec_1999 : getDate (new_Date_ymd (num 1999) (num 12) (num 0)) = num 31.
Proof. vm_compute. reflexivity. Qed.

Example last_day_feb_1900 : getDate (new_Date_ymd (num 1900) (num 2) (num 0)) = num 28.
Proof. vm_compute. reflexivity. Qed.

Example last_day_feb_minus_4 : getDate (new_Date_ymd (num (-4)) (num 2) (num 0)) = num 29.
Proof. vm_compute. reflexivity. Qed.

(** ** Significance order of the units *)

Lemma goes_after_significant a b :
  goes_after a b = true <-> more_significant b a.
Proof. destruct a, b; vm_compute; split; congruence. Qed.

Lemma not_after_refl a : not_after a a.
Proof. destruct a; reflexivity. Qed.

Lemma not_after_antisym a b : not_after a b -> not_after b a -> a = b.
Proof. destruct a, b; vm_compute; congruence. Qed.

Lemma not_after_trans a b c : not_after a b -> not_after b c -> not_after a c.
Proof. destruct a, b, c; vm_compute; congruence. Qed.

Lemma not_after_total a b : goes_after a b = true -> not_after b a.
Proof. destruct a, b; vm_compute; congruence. Qed.

Lemma not_after_strict a b : not_after a b -> a <> b -> more_significant a b.
Proof. destruct a, b; vm_compute; congruence. Qed.

(** ** [Array_sort by_divisor] sorts, and its result does not depend on the
    order of its argument *)

Lemma sort_insert_perm x l : Permutation (sort_insert by_divisor x l) (x :: l).
Proof.
  induction l as [|y l IH]; simpl.
  - apply Permutation_refl.
  - destruct (by_divisor x y >? num 0)%js.
    + eapply perm_trans; [apply perm_skip, IH | apply perm_swap].
    + apply Permutation_refl.
Qed.

Lemma Array_sort_perm l : Permutation (Array_sort by_divisor l) l.
Proof.
  induction l as [|x l IH]; simpl.
  - constructor.
  - eapply perm_trans; [apply sort_insert_perm | apply perm_skip, IH].
Qed.

Lemma sort_insert_sorted x l :
  StronglySorted not_after l -> StronglySorted not_after (sort_insert by_divisor x l).
Proof.
  induction 1 as [|y l Hl IH Hy]; simpl.
  - repeat constructor.
  - fold (goes_after x y). destruct (goes_after x y) eqn:E.
    + constructor; [exact IH|].
      rewrite Forall_forall in *. intros z Hz.
      apply (Permutation_in _ (sort_insert_perm x l)) in Hz.
      destruct Hz as [<-|Hz]; [now apply not_after_total | now apply Hy].
    + constructor; [now constructor|].
      constructor; [exact E|].
      rewrite Forall_forall in *. intros z Hz.
      eapply not_after_trans; [exact E | now apply Hy].
Qed.

Lemma Array_sort_sorted l : StronglySorted not_after (Array_sort by_divisor l).
Proof.
  induction l as [|x l IH]; simpl.
  - constructor.
  - now apply sort_insert_sorted.
Qed.

Lemma sorted_perm_unique l1 : forall l2,
  StronglySorted not_after l1 -> StronglySorted not_after l2 ->
  Permutation l1 l2 -> l1 = l2.
Proof.
  induction l1 as [|x l1 IH]; intros l2 S1 S2 P.
  - now apply Permutation_nil in P.
  - destruct l2 as [|y l2]; [now apply Permutation_sym, Permutation_nil in P|].
    inversion S1 as [|? ? S1' F1]; inversion S2 as [|? ? S2' F2]; subst.
    rewrite Forall_forall in F1, F2.
    assert (x = y) as ->.
    { assert (Hx : In x (y :: l2)) by (eapply Permutation_in; [exact P | now left]).
      assert (Hy : In y (x :: l1))
        by (eapply Permutation_in; [apply Permutation_sym, P | now left]).
      destruct Hx as [->|Hx]; [reflexivity|].
      destruct Hy as [->|Hy]; [reflexivity|].
      apply not_after_antisym; [now apply F1 | now apply F2]. }
    f_equal. apply IH; trivial. now apply Permutation_cons_inv in P.
Qed.

Lemma Array_sort_permutation l l' :
  Permutation l l' -> Array_sort by_divisor l = Array_sort by_divisor l'.
Proof.
  intros P. apply sorted_perm_unique; try apply Array_sort_sorted.
  eapply perm_trans; [apply Array_sort_perm|].
  eapply perm_trans; [exact P|]. apply Permutation_sym, Array_sort_perm.
Qed.

(** ** Keys of the result of [breakdown] *)

Lemma unit_eqb_eq a b : unit_eqb a b = true <-> a = b.
Proof. unfold unit_eqb. destruct (TimeUnit_eq_dec a b); split; congruence. Qed.

Lemma unit_eqb_refl a : unit_eqb a a = true.
Proof. now apply unit_eqb_eq. Qed.

Lemma unit_eqb_neq a b : unit_eqb a b = false <-> a <> b.
Proof. unfold unit_eqb. destruct (TimeUnit_eq_dec a b); split; congruence. Qed.

Lemma obj_keys_set_in o k v : In k (obj_keys o) -> obj_keys (obj_set o k v) = obj_keys o.
Proof.
  induction o as [|[k' v'] o IH]; simpl; [tauto|].
  intros [->|H].
  - now rewrite unit_eqb_refl.
  - destruct (unit_eqb k' k); simpl; [reflexivity | now rewrite IH].
Qed.

Lemma obj_keys_set_new o k v :
  ~ In k (obj_keys o) -> obj_keys (obj_set o k v) = obj_keys o ++ [k].
Proof.
  induction o as [|[k' v'] o IH]; simpl; [reflexivity|].
  intros H. destruct (unit_eqb k' k) eqn:E.
  - apply unit_eqb_eq in E. tauto.
  - simpl. rewrite IH; tauto.
Qed.

Lemma strongly_sorted_snoc (l : list TimeUnit) u :
  StronglySorted more_significant l ->
  (forall k, In k l -> more_significant k u) ->
  StronglySorted more_significant (l ++ [u]).
Proof.
  induction 1 as [|x l Hl IH Hx]; simpl; intros H.
  - repeat constructor.
  - constructor.
    + apply IH. intros k Hk. apply H. now right.
    + rewrite Forall_forall in *. intros z Hz. apply in_app_or in Hz.
      destruct Hz as [Hz|[<-|[]]]; [now apply Hx | apply H; now left].
Qed.

(** The keys written while a sorted list is traversed stay in strictly
    descending significance. *)
Lemma breakdown_fold_keys floatUnit includeZero : forall units remaining result,
  StronglySorted not_after units ->
  StronglySorted more_significant (obj_keys result) ->
  (forall k u, In k (obj_keys result) -> In u units -> not_after k u) ->
  StronglySorted more_significant
    (obj_keys (snd (fold_left (breakdown_step floatUnit includeZero)
                              units (remaining, result)))).
Proof.
  induction units as [|u units IH]; intros remaining result S K B; simpl.
  - exact K.
  - inversion S as [|? ? S' F]; subst. rewrite Forall_forall in F.
    assert (step : forall v,
      StronglySorted more_significant (obj_keys (obj_set result u v))
      /\ (forall k u', In k (obj_keys (obj_set result u v)) -> In u' units ->
                       not_after k u')).
    { intros v. destruct (in_dec TimeUnit_eq_dec u (obj_keys result)) as [i|n].
      - rewrite obj_keys_set_in by exact i. split; [exact K|].
        intros k u' Hk Hu'. apply B; [exact Hk | now right].
      - rewrite obj_keys_set_new by exact n. split.
        + apply strongly_sorted_snoc; [exact K|].
          intros k Hk. apply not_after_strict; [apply B; [exact Hk | now left]|].
          intros ->. contradiction.
        + intros k u' Hk Hu'. apply in_app_or in Hk.
          destruct Hk as [Hk|[<-|[]]]; [apply B; [exact Hk | now right] | now apply F]. }
    assert (keep : forall k u', In k (obj_keys result) -> In u' units -> not_after k u')
      by (intros k u' Hk Hu'; apply B; [exact Hk | now right]).
    destruct (is_floatUnit floatUnit u);
      match goal with
      | |- context [if ?c then obj_set result u ?v else result] =>
          destruct c; [destruct (step v) as [s1 s2] |]; now apply IH
      end.
Qed.

Lemma breakdown_with_permutation d units units' fullOptions :
  Permutation units units' ->
  breakdown_with d units' fullOptions = breakdown_with d units fullOptions.
Proof.
  intros P. unfold breakdown_with.
  now rewrite (Array_sort_permutation P).
Qed.

Lemma breakdown_with_keys d units fullOptions :
  StronglySorted more_significant (obj_keys (breakdown_with d units fullOptions)).
Proof.
  unfold breakdown_with. apply breakdown_fold_keys.
  - apply Array_sort_sorted.
  - constructor.
  - intros k u [].
Qed.

(** C1.  The result of [breakdown] does not depend on the order in which the
    units are requested: on a permutation of the unit list it returns the
    same entries, in the same key order, and that key order is the
    significance order, from the largest divisor to the smallest. *)
Theorem breakdown_order_independent
    (d : TimePeriod) (units units' : list TimeUnit) (options : option PartialOptions) :
  Permutation units units' ->
  breakdown d (Some (Units units')) options = breakdown d (Some (Units units)) options
  /\ StronglySorted more_significant
       (obj_keys (breakdown d (Some (Units units')) options)).
Proof.
  intros P. unfold breakdown, breakdown_args. split.
  - now apply breakdown_with_permutation.
  - apply breakdown_with_keys.
Qed.

Lemma breakdown_order_independent_witness :
  let d := new_TimePeriod (InMs (num 5415000)) in
  Permutation [seconds; minutes] [minutes; seconds]
  /\ breakdown d (Some (Units [minutes; seconds])) None
     = breakdown d (Some (Units [seconds; minutes])) None
  /\ StronglySorted more_significant
       (obj_keys (breakdown d (Some (Units [minutes; seconds])) None)).
Proof.
  split; [apply perm_swap|].
  apply (breakdown_order_independent (new_TimePeriod (InMs (num 5415000))) None
           (perm_swap minutes seconds [])).
Defined.

Lemma at_last_cons {A : Type} (x y : A) l : at_last (x :: y :: l) = at_last (y :: l).
Proof. reflexivity. Qed.

Lemma at_last_in {A : Type} (l : list A) x : at_last l = Some x -> In x l.
Proof.
  induction l as [|a [|b l] IH]; simpl; try discriminate.
  - intros [= ->]. now left.
  - intros H. right. now apply IH.
Qed.

(** Without [floatLast] no unit is the float unit. *)
Lemma fold_floor_only includeZero : forall sorted remaining result,
  snd (fold_left (breakdown_step None includeZero) sorted (remaining, result))
  = decompose_spec false (truthy includeZero) remaining sorted result.
Proof.
  induction sorted as [|u [|v rest] IH]; intros remaining result.
  - reflexivity.
  - reflexivity.
  - change (fold_left ?f (u :: ?l) ?a) with (fold_left f l (f a u)).
    unfold breakdown_step at 2. cbn [is_floatUnit].
    rewrite IH. reflexivity.
Qed.

(** With [floatLast], on a list without repetition, the float unit is met
    at the last position only. *)
Lemma fold_float_last includeZero : forall sorted floatUnit remaining result,
  NoDup sorted -> at_last sorted = Some floatUnit ->
  snd (fold_left (breakdown_step (Some floatUnit) includeZero) sorted
                 (remaining, result))
  = decompose_spec true (truthy includeZero) remaining sorted result.
Proof.
  induction sorted as [|u [|v rest] IH]; intros f remaining result N L.
  - discriminate.
  - injection L as <-. simpl. now rewrite unit_eqb_refl.
  - change (fold_left ?g (u :: ?l) ?a) with (fold_left g l (g a u)).
    rewrite at_last_cons in L. inversion N as [|? ? Hu N']; subst.
    assert (E : is_floatUnit (Some f) u = false).
    { apply unit_eqb_neq. intros ->. apply Hu. now apply at_last_in. }
    unfold breakdown_step at 2. rewrite E.
    rewrite IH by assumption. reflexivity.
Qed.

Lemma Array_sort_NoDup l : NoDup l -> NoDup (Array_sort by_divisor l).
Proof.
  intros N. eapply Permutation_NoDup; [|exact N].
  apply Permutation_sym, Array_sort_perm.
Qed.

Lemma breakdown_with_spec d units fullOptions :
  (truthy (floatLast fullOptions) = true -> NoDup units) ->
  breakdown_with d units fullOptions
  = breakdown_spec d units (truthy (floatLast fullOptions))
                   (truthy (includeZero fullOptions)).
Proof.
  intros H. unfold breakdown_with, breakdown_spec.
  destruct (truthy (floatLast fullOptions)) eqn:FL.
  - destruct (at_last (Array_sort by_divisor units)) as [f|] eqn:L.
    + apply fold_float_last; [apply Array_sort_NoDup; now apply H | exact L].
    + destruct (Array_sort by_divisor units) as [|u [|v rest]]; try reflexivity.
      * discriminate.
      * rewrite fold_floor_only.
        exfalso. clear - L. revert u v L.
        induction rest as [|w rest IH]; intros u v L; [discriminate|].
        now apply (IH v w).
  - apply fold_floor_only.
Qed.

Lemma obj_set_new o k v : ~ In k (obj_keys o) -> obj_set o k v = o ++ [(k, v)].
Proof.
  induction o as [|[k' v'] o IH]; simpl; [reflexivity|].
  intros H. destruct (unit_eqb k' k) eqn:E.
  - apply unit_eqb_eq in E. tauto.
  - rewrite IH; tauto.
Qed.

Lemma include_entry_new iz result u a :
  ~ In u (obj_keys result) ->
  include_entry iz result u a = result ++ filter (kept iz) [(u, a)].
Proof.
  intros H. unfold include_entry, kept. simpl.
  destruct (iz || (a !== num 0)%js).
  - now apply obj_set_new.
  - now rewrite app_nil_r.
Qed.

Lemma obj_keys_app (o o' : Breakdown) : obj_keys (o ++ o') = obj_keys o ++ obj_keys o'.
Proof. apply map_app. Qed.

Lemma obj_keys_filter_kept iz u a k : In k (obj_keys (filter (kept iz) [(u, a)])) -> k = u.
Proof. simpl. destruct (kept iz (u, a)); simpl; intuition. Qed.

(** On a list without repetition every assignment adds a key, so the
    result is the list of the kept amounts. *)
Lemma decompose_spec_filter fl iz : forall sorted remaining result,
  NoDup sorted ->
  (forall k, In k (obj_keys result) -> ~ In k sorted) ->
  decompose_spec fl iz remaining sorted result
  = result ++ filter (kept iz) (amounts_spec fl remaining sorted).
Proof.
  induction sorted as [|u [|v rest] IH]; intros remaining result N D.
  - simpl. now rewrite app_nil_r.
  - simpl decompose_spec. simpl amounts_spec.
    apply include_entry_new. intros H. apply (D u H). now left.
  - inversion N as [|? ? Hu N']; subst.
    assert (Hr : ~ In u (obj_keys result)) by (intros H; apply (D u H); now left).
    change (decompose_spec fl iz remaining (u :: v :: rest) result)
      with (decompose_spec fl iz
              (remaining - Math_floor (remaining / divisors u) * divisors u)%js
              (v :: rest)
              (include_entry iz result u (Math_floor (remaining / divisors u)%js))).
    change (amounts_spec fl remaining (u :: v :: rest))
      with ((u, Math_floor (remaining / divisors u)%js)
              :: amounts_spec fl
                   (remaining - Math_floor (remaining / divisors u) * divisors u)%js
                   (v :: rest)).
    rewrite IH; [| exact N' |].
    + rewrite include_entry_new by exact Hr.
      rewrite <- app_assoc. f_equal.
      symmetry. apply (filter_app (kept iz) [_]).
    + intros k Hk Hin. rewrite include_entry_new, obj_keys_app in Hk by exact Hr.
      apply in_app_or in Hk. destruct Hk as [Hk|Hk].
      * apply (D k Hk). now right.
      * apply obj_keys_filter_kept in Hk. subst k. contradiction.
Qed.

(** With [floatLast] the float unit is recognised by its name: when the
    least significant unit is in the list once, it is met at the last
    position only, whatever else is repeated. *)
Lemma fold_float_once includeZero : forall sorted floatUnit remaining result,
  at_last sorted = Some floatUnit ->
  count_occ TimeUnit_eq_dec sorted floatUnit = 1%nat ->
  snd (fold_left (breakdown_step (Some floatUnit) includeZero) sorted
                 (remaining, result))
  = decompose_spec true (truthy includeZero) remaining sorted result.
Proof.
  induction sorted as [|u [|v rest] IH]; intros f remaining result L C.
  - discriminate.
  - injection L as <-. simpl. now rewrite unit_eqb_refl.
  - change (fold_left ?g (u :: ?l) ?a) with (fold_left g l (g a u)).
    rewrite at_last_cons in L.
    assert (Hf : In f (v :: rest)) by now apply at_last_in.
    assert (Hu : u <> f).
    { intros ->. rewrite count_occ_cons_eq in C by reflexivity.
      injection C as C.
      change (count_occ TimeUnit_eq_dec (v :: rest) f = 0%nat) in C.
      apply (proj2 (count_occ_not_In TimeUnit_eq_dec _ _)) in C.
      contradiction. }
    rewrite count_occ_cons_neq in C by exact Hu.
    assert (E : is_floatUnit (Some f) u = false) by now apply unit_eqb_neq.
    unfold breakdown_step at 2. rewrite E.
    rewrite IH by assumption. reflexivity.
Qed.

Lemma at_last_none {A : Type} (l : list A) : at_last l = None -> l = [].
Proof.
  induction l as [|a [|b l] IH]; intros H; try reflexivity; try discriminate.
  rewrite at_last_cons in H. discriminate (IH H).
Qed.

(** C3.  The unit list stands for a set of units (duplicates have no
    meaning); the theorem asks less: with [floatLast] the least significant
    unit is listed once, without [floatLast] the list is arbitrary.  Then
    [breakdown] computes, in significance order,
    [amount = floor(remaining / divisor)] and
    [remaining -= amount * divisor] for every unit but the last; for the
    last unit [remaining / divisor] when [floatLast] is true and
    [floor(remaining / divisor)] otherwise; and on a list without
    repetition the result holds the entry of a unit exactly when
    [includeZero] is true or the amount is not zero. *)
Theorem breakdown_follows_algorithm
    (d : TimePeriod) (units : list TimeUnit) (fl iz : bool) :
  (fl = true ->
   forall u, at_last (Array_sort by_divisor units) = Some u ->
             count_occ TimeUnit_eq_dec units u = 1%nat) ->
  breakdown d (Some (Units units))
            (Some (mkOptions (Given (Some fl)) (Given (Some iz))))
  = breakdown_spec d units fl iz
  /\ (NoDup units ->
      breakdown d (Some (Units units))
                (Some (mkOptions (Given (Some fl)) (Given (Some iz))))
      = filter (kept iz)
          (amounts_spec fl (asMilliseconds d) (Array_sort by_divisor units))).
Proof.
  intros H.
  assert (E : breakdown d (Some (Units units))
                (Some (mkOptions (Given (Some fl)) (Given (Some iz))))
              = breakdown_spec d units fl iz).
  { unfold breakdown, breakdown_args. cbn [opt_floatLast opt_includeZero spread].
    unfold breakdown_with, breakdown_spec. cbn [floatLast includeZero truthy].
    destruct fl.
    - destruct (at_last (Array_sort by_divisor units)) as [f|] eqn:L.
      + apply fold_float_once; [exact L|].
        rewrite <- (H eq_refl f eq_refl). symmetry.
        apply (proj1 (Permutation_count_occ TimeUnit_eq_dec _ _)).
        apply Permutation_sym, Array_sort_perm.
      + apply at_last_none in L. rewrite L. reflexivity.
    - apply fold_floor_only. }
  split; [exact E|].
  intros N. rewrite E. unfold breakdown_spec.
  rewrite decompose_spec_filter; [reflexivity | now apply Array_sort_NoDup | intros k []].
Qed.

Lemma NoDup_hours_minutes : NoDup [hours; minutes].
Proof.
  constructor; [intros [E|[]]; discriminate|].
  constructor; [intros []|constructor].
Defined.

Lemma breakdown_follows_algorithm_witness :
  breakdown period_1h30m15s (Some (Units [hours; minutes; hours]))
            (Some (mkOptions (Given (Some true)) (Given (Some true))))
  = breakdown_spec period_1h30m15s [hours; minutes; hours] true true
  /\ breakdown period_1h30m15s (Some (Units [hours; minutes]))
               (Some (mkOptions (Given (Some true)) (Given (Some true))))
     = filter (kept true)
         (amounts_spec true (asMilliseconds period_1h30m15s)
                       (Array_sort by_divisor [hours; minutes])).
Proof.
  split.
  - apply (breakdown_follows_algorithm period_1h30m15s [hours; minutes; hours]
             (fl := true) true).
    intros _ u L. vm_compute in L. injection L as <-. reflexivity.
  - apply (breakdown_follows_algorithm period_1h30m15s [hours; minutes]
             (fl := true) true).
    + intros _ u L. vm_compute in L. injection L as <-. reflexivity.
    + exact NoDup_hours_minutes.
Defined.

(** The proviso cannot be dropped.  With [floatLast] and the least
    significant unit listed twice (a list the specification gives no
    meaning to), both occurrences are taken as the float unit: one and a
    half seconds break down to [seconds: 1.5], where flooring the first
    occurrence would leave [seconds: 0.5]. *)
Lemma breakdown_repeated_last_unit :
  let d := new_TimePeriod (InMs (num 1500)) in
  obj_red (breakdown d (Some (Units [seconds; seconds]))
             (Some (mkOptions (Given (Some true)) (Given (Some true)))))
  = [(seconds, Fin (3 # 2))]
  /\ obj_red (breakdown_spec d [seconds; seconds] true true)
     = [(seconds, Fin (1 # 2))].
Proof.
  vm_compute. repeat split.
Qed.

(* ================================================================== *)
(** ** Defaults of [breakdown] *)
(* ================================================================== *)

(** C7.  Without a unit list [breakdown] works on days, hours, minutes,
    seconds and milliseconds with [floatLast = true] and
    [includeZero = false]; with a unit list the defaults are
    [floatLast = false] and [includeZero = true]; in both cases an option
    that is passed replaces its default.  Each call below with something
    left out returns what the call with everything written out returns. *)
Theorem breakdown_defaults (d : TimePeriod) :
  let default_units := [days; hours; minutes; seconds; milliseconds] in
  let explicit := fun units fl iz =>
    breakdown d (Some (Units units)) (Some (mkOptions (Given fl) (Given iz))) in
  breakdown d None None = explicit default_units (Some true) (Some false)
  /\ (forall o ignored,
        breakdown d (Some (Opts o)) ignored
        = explicit default_units
            (match opt_floatLast o with Missing => Some true | Given v => v end)
            (match opt_includeZero o with Missing => Some false | Given v => v end))
  /\ (forall units,
        breakdown d (Some (Units units)) None = explicit units (Some false) (Some true))
  /\ (forall units o,
        breakdown d (Some (Units units)) (Some o)
        = explicit units
            (match opt_floatLast o with Missing => Some false | Given v => v end)
            (match opt_includeZero o with Missing => Some true | Given v => v end))
  /\ (forall units fl iz,
        explicit units fl iz = breakdown_with d units (mkFullOptions fl iz)).
Proof.
  repeat split; intros; reflexivity.
Qed.

(** The defaults are observable: one and a half milliseconds. *)
Example defaults_observed :
  let d := new_TimePeriod (InMs (Fin (3 # 2))) in
  obj_red (breakdown d None None) = [(milliseconds, Fin (3 # 2))]
  /\ obj_red (breakdown d (Some (Units [seconds; milliseconds])) None)
     = [(seconds, num 0); (milliseconds, num 1)].
Proof. vm_compute. split; reflexivity. Qed.

(* ================================================================== *)
(** ** [difference] and [equals] *)
(* ================================================================== *)

Lemma Qcompare_sub a b : (0 ?= b - a)%Q = (a ?= b)%Q.
Proof.
  destruct (Qcompare_spec a b) as [E|L|G];
    [apply (proj1 (Qeq_alt _ _)) | apply (proj1 (Qlt_alt _ _))
     | apply (proj1 (Qgt_alt _ _))]; lra.
Qed.

Lemma difference_positive (x y : number) :
  (num 0 <? y - x)%js = (x <? y)%js.
Proof.
  destruct x as [| | |a], y as [| | |b]; try reflexivity.
  unfold num_sub, num_lt, num. change (inject_Z 0) with 0%Q.
  now rewrite Qcompare_sub.
Qed.

(** C8.  [a.difference(b)] is the period whose milliseconds are those of [b]
    minus those of [a]: the milliseconds since the epoch of [b] when [b] is
    a [TimePoint], its time value when [b] is a host date; the earlier
    revision, which takes a [TimePoint] only, gives the same.  The period is
    positive exactly when [b] is later than [a].  On whole milliseconds [x]
    of [a] and [y] of [b] whose distance is a safe integer it is the period
    of [y - x] milliseconds. *)
Theorem difference_other_minus_this (a p : TimePoint) (date : Date) :
  asMilliseconds (difference a (APoint p))
  = (asMilliseconds (unixEpoch p) - asMilliseconds (unixEpoch a))%js
  /\ asMilliseconds (difference a (ADate date))
     = (getTime date - asMilliseconds (unixEpoch a))%js
  /\ asMilliseconds (Rev1.difference a p)
     = (asMilliseconds (unixEpoch p) - asMilliseconds (unixEpoch a))%js
  /\ (num 0 <? asMilliseconds (difference a (APoint p)))%js
     = (asMilliseconds (unixEpoch a) <? asMilliseconds (unixEpoch p))%js
  /\ (num 0 <? asMilliseconds (difference a (ADate date)))%js
     = (asMilliseconds (unixEpoch a) <? getTime date)%js
  /\ (forall x y : Z,
        asMilliseconds (unixEpoch a) = num x ->
        (Z.abs (y - x) <= 9007199254740991)%Z ->
        (asMilliseconds (unixEpoch p) = num y ->
         same_number (asMilliseconds (difference a (APoint p))) (num (y - x)))
        /\ (getTime date = num y ->
            same_number (asMilliseconds (difference a (ADate date))) (num (y - x)))).
Proof.
  split; [reflexivity|]. split; [reflexivity|]. split; [reflexivity|].
  split; [apply difference_positive|]. split; [apply difference_positive|].
  intros x y Hx _. unfold difference, ms_of. cbn [new_TimePeriod asMilliseconds].
  rewrite Hx.
  split; intros ->; unfold num; cbn [same_number];
    change (inject_Z y - inject_Z x == inject_Z (y - x));
    unfold Z.sub, Qminus; now rewrite inject_Z_plus, inject_Z_opp.
Qed.

Lemma difference_other_minus_this_witness :
  same_number
    (asMilliseconds (difference (from_number (num 1000))
                                (APoint (from_number (num 4000)))))
    (num (4000 - 1000))
  /\ same_number
       (asMilliseconds (difference (from_number (num 1000)) (ADate (mkDate (num 4000)))))
       (num (4000 - 1000)).
Proof.
  destruct (proj2 (proj2 (proj2 (proj2 (proj2
             (difference_other_minus_this (from_number (num 1000))
                                          (from_number (num 4000))
                                          (mkDate (num 4000)))))))
             1000%Z 4000%Z eq_refl ltac:(vm_compute; discriminate)) as [P D].
  split; [apply P | apply D]; reflexivity.
Defined.

(** C9.  A period equals itself exactly when its milliseconds are not
    [NaN]; and [NaN] milliseconds can be had from the constructor and from
    a division of zero by zero. *)
Theorem equals_reflexive_iff_not_NaN (d : TimePeriod) :
  (TimePeriod_equals d d = true <-> asMilliseconds d <> NaN)
  /\ asMilliseconds (new_TimePeriod (InMs NaN)) = NaN
  /\ asMilliseconds (divide (TimePeriod_milliseconds (num 0)) (num 0)) = NaN.
Proof.
  split; [|split; reflexivity].
  unfold TimePeriod_equals. destruct (asMilliseconds d) as [| | |q]; unfold num_eq.
  - split; [discriminate | congruence].
  - split; [discriminate | reflexivity].
  - split; [discriminate | reflexivity].
  - split; [discriminate | intros _; apply Qeq_bool_iff; reflexivity].
Qed.

(* ================================================================== *)
(** ** The scheduler *)
(* ================================================================== *)

Lemma atTime_unfold host time el :
  atTime host time el
  = Ok (if (asSeconds (distance time (Date_now el)) <? num 30)%js
        then setTimeout CallFunc (asMilliseconds (distance time (Date_now el))) el
        else setTimeout (CallAtTime time) (num 30000) el).
Proof.
  unfold atTime, TimePoint_now, distance. cbn [new_TimePoint bind].
  now destruct (asSeconds (difference (from_number (Date_now el)) time) <? num 30)%js.
Qed.

Lemma seconds_of_finite (q : Q) :
  asSeconds (new_TimePeriod (InMs (Fin q))) = Fin (q / 1000).
Proof. reflexivity. Qed.

Lemma under_30_seconds (q : Q) :
  q < 30000 -> (Fin (q / 1000) <? num 30)%js = true.
Proof.
  intros H. unfold num_lt, num.
  replace (q / 1000 ?= inject_Z 30)%Q with Lt; [reflexivity|].
  symmetry. apply (proj1 (Qlt_alt _ _)). change (inject_Z 30) with 30%Q.
  apply Qlt_shift_div_r; lra.
Qed.

Lemma over_30_seconds (q : Q) :
  30000 <= q -> (Fin (q / 1000) <? num 30)%js = false.
Proof.
  intros H. unfold num_lt, num.
  destruct (Qcompare_spec (q / 1000) (inject_Z 30)) as [E|L|G]; try reflexivity.
  exfalso. change (inject_Z 30) with 30%Q in L.
  assert (30 <= q / 1000) by (apply Qle_shift_div_l; lra). lra.
Qed.

(** A distance that is zero or negative is under thirty seconds. *)
Lemma past_is_under_30_seconds (x : number) :
  (x <=? num 0)%js = true -> (x / divisors seconds <? num 30)%js = true.
Proof.
  destruct x as [| | |q]; try discriminate; [reflexivity|].
  intros H. change (Fin q / divisors seconds)%js with (Fin (q / 1000)).
  apply under_30_seconds.
  unfold num_le, num in H. change (inject_Z 0) with 0%Q in H.
  destruct (Qcompare_spec q 0) as [E|L|G]; try discriminate; lra.
Qed.

(** C10.  An invocation of [atTime] never throws and arms exactly one
    timer; when the target is reached or past (the distance is zero or
    negative) that timer runs the callback and its delay is the distance,
    which is not positive. *)
Theorem atTime_arms_one_timer (host : Platform) (time : PointOrDate) (el : EventLoop) :
  exists t : Timer,
    atTime host time el
    = Ok (mkEventLoop (Date_now el) (timers el ++ [t]) (trace el ++ [Armed t]))
    /\ armedAt t = Date_now el
    /\ ((asMilliseconds (distance time (Date_now el)) <=? num 0)%js = true ->
        handler t = CallFunc
        /\ delay t = asMilliseconds (distance time (Date_now el))
        /\ (delay t <=? num 0)%js = true).
Proof.
  rewrite atTime_unfold.
  destruct (asSeconds (distance time (Date_now el)) <? num 30)%js eqn:E.
  - eexists. split; [reflexivity|]. split; [reflexivity|]. intros H. now repeat split.
  - eexists. split; [reflexivity|]. split; [reflexivity|]. intros H.
    apply past_is_under_30_seconds in H. unfold asSeconds in E. congruence.
Qed.

Lemma atTime_arms_one_timer_witness :
  let time := ADate (mkDate (num 1000)) in
  let el := idle (num 5000) in
  (asMilliseconds (distance time (Date_now el)) <=? num 0)%js = true
  /\ exists t : Timer,
       atTime bare_host time el
       = Ok (mkEventLoop (Date_now el) (timers el ++ [t]) (trace el ++ [Armed t]))
       /\ handler t = CallFunc
       /\ (delay t <=? num 0)%js = true.
Proof.
  split; [reflexivity|].
  destruct (atTime_arms_one_timer bare_host (ADate (mkDate (num 1000))) (idle (num 5000)))
    as [t [H1 [_ H3]]].
  exists t. split; [exact H1|].
  destruct (H3 eq_refl) as [Hh [_ Hd]]. split; assumption.
Defined.

Lemma armed_setTimeout h ms el :
  armed (setTimeout h ms el) = armed el ++ [mkTimer h ms (Date_now el)].
Proof. unfold armed, setTimeout. cbn [trace]. now rewrite flat_map_app. Qed.

Lemma ran_setTimeout h ms el : ran (setTimeout h ms el) = ran el.
Proof.
  unfold ran, setTimeout. cbn [trace]. rewrite flat_map_app. simpl.
  now rewrite app_nil_r.
Qed.

Lemma ran_from_more el el' c :
  incl (armed el) (armed el') -> ran_from el c -> ran_from el' c.
Proof.
  intros I (t & late & Ht & Hh & Hc). exists t, late. repeat split; auto.
Qed.

Lemma chain_inv_idle time clock : chain_inv time (idle clock).
Proof.
  repeat split.
  - constructor.
  - intros t [].
  - intros c [].
Qed.

Lemma atTime_inv host time el :
  chain_inv time el ->
  exists el', atTime host time el = Ok el' /\ chain_inv time el'.
Proof.
  intros (A & I & R). rewrite atTime_unfold.
  eexists. split; [reflexivity|].
  assert (G : forall h ms,
             armed_by time (mkTimer h ms (Date_now el)) ->
             chain_inv time (setTimeout h ms el)).
  { intros h ms W. repeat split.
    - rewrite armed_setTimeout. apply Forall_app. split; [exact A | now constructor].
    - rewrite armed_setTimeout. unfold setTimeout. cbn [timers].
      apply incl_app; [now apply incl_appl | apply incl_appr, incl_refl].
    - rewrite ran_setTimeout. intros c Hc.
      apply (ran_from_more (el := el)); [|now apply R].
      rewrite armed_setTimeout. apply incl_appl, incl_refl. }
  destruct (asSeconds (distance time (Date_now el)) <? num 30)%js eqn:E;
    apply G; unfold armed_by; cbn [armedAt handler delay]; rewrite E; now split.
Qed.

Lemma fire_inv host time late el :
  chain_inv time el ->
  exists el', fire host late el = Ok el' /\ chain_inv time el'.
Proof.
  intros (A & I & R). unfold fire.
  destruct (timers el) as [|t pending] eqn:T.
  - exists el. split; [reflexivity|]. now repeat split; [| rewrite T |].
  - assert (Ht : In t (armed el)) by (apply I; now left).
    assert (Ip : incl pending (armed el)) by (intros x Hx; apply I; now right).
    destruct (handler t) as [|time'] eqn:H.
    + eexists. split; [reflexivity|].
      assert (E : armed (mkEventLoop (due t + Fin late) pending
                           (trace el ++ [Ran (due t + Fin late)%js])) = armed el).
      { unfold armed. cbn [trace]. rewrite flat_map_app. simpl. apply app_nil_r. }
      repeat split.
      * now rewrite E.
      * now rewrite E.
      * unfold ran at 1. cbn [trace]. rewrite flat_map_app. intros c Hc.
        apply in_app_or in Hc. destruct Hc as [Hc|[<-|[]]].
        -- apply (ran_from_more (el := el)); [now rewrite E | now apply R].
        -- exists t, late. rewrite E. now repeat split.
    + assert (time' = time) as ->.
      { rewrite Forall_forall in A. specialize (A t Ht). unfold armed_by in A.
        destruct (asSeconds (distance time (armedAt t)) <? num 30)%js;
          destruct A as [A _]; congruence. }
      apply atTime_inv. now repeat split.
Qed.

Lemma run_inv host time : forall lateness el,
  chain_inv time el ->
  exists el', run host lateness el = Ok el' /\ chain_inv time el'.
Proof.
  induction lateness as [|late lateness IH]; intros el H; simpl.
  - now exists el.
  - destruct (fire_inv host late H) as (el1 & -> & H1). simpl. now apply IH.
Qed.

Lemma distance_finite time (c t : Q) :
  ms_of time = Fin t -> distance time (Fin c) = new_TimePeriod (InMs (Fin (t - c))).
Proof. intros H. unfold distance, difference. now rewrite H. Qed.

(** Thirty seconds or more to go: re-invoke in 30000 ms. *)
Lemma atTime_far host time el (c t : Q) :
  Date_now el = Fin c -> ms_of time = Fin t -> 30000 <= t - c ->
  atTime host time el = Ok (setTimeout (CallAtTime time) (num 30000) el).
Proof.
  intros Hc Ht H. rewrite atTime_unfold, Hc, (@distance_finite time c t Ht).
  now rewrite seconds_of_finite, over_30_seconds.
Qed.

(** Less than thirty seconds to go: the callback after exactly that long. *)
Lemma atTime_near host time el (c t : Q) :
  Date_now el = Fin c -> ms_of time = Fin t -> t - c < 30000 ->
  atTime host time el = Ok (setTimeout CallFunc (Fin (t - c)) el).
Proof.
  intros Hc Ht H. rewrite atTime_unfold, Hc, (@distance_finite time c t Ht).
  now rewrite seconds_of_finite, under_30_seconds.
Qed.

Lemma due_30000 h (c : Q) : due (mkTimer h (num 30000) (Fin c)) = Fin (c + 30000).
Proof. reflexivity. Qed.

Lemma due_callback (c d : Q) :
  exists f, due (mkTimer CallFunc (Fin d) (Fin c)) = Fin f /\ c + d <= f /\ c <= f
            /\ (0 <= d -> f == c + d).
Proof.
  unfold due. cbn [armedAt delay]. unfold num_gt, num_lt, num.
  change (inject_Z 0) with 0%Q.
  destruct (Qcompare_spec 0 d) as [E|L|G].
  - exists (c + 0)%Q. split; [reflexivity|]. repeat split; intros; lra.
  - exists (c + d)%Q. split; [reflexivity|]. repeat split; intros; lra.
  - exists (c + 0)%Q. split; [reflexivity|]. repeat split; intros; lra.
Qed.

(** A target 65 seconds away, the first 30-second timer at most five
    seconds late: [atTime] is re-invoked twice, then arms the callback, which
    runs no earlier than the target. *)
Lemma schedule_65_seconds host time (c t l1 l2 l3 : Q) :
  ms_of time = Fin t -> t == c + 65000 ->
  0 <= l1 -> l1 <= 5000 -> 0 <= l2 -> 0 <= l3 ->
  exists el' fired,
    schedule host time (Fin c) [l1; l2; l3] = Ok el'
    /\ map handler (armed el') = [CallAtTime time; CallAtTime time; CallFunc]
    /\ reanchors el' = 2%nat
    /\ ran el' = [Fin fired]
    /\ t <= fired.
Proof.
  intros Ht E H1 H1' H2 H3. unfold schedule.
  rewrite (@atTime_far host time _ c t); [| reflexivity | exact Ht | lra].
  cbn [bind run]. unfold fire at 1. cbn [timers setTimeout idle app handler Date_now trace].
  rewrite due_30000. change (Fin (c + 30000) + Fin l1)%js with (Fin (c + 30000 + l1)).
  rewrite (@atTime_far host time _ (c + 30000 + l1) t);
    [| reflexivity | exact Ht | lra].
  cbn [bind]. unfold fire at 1. cbn [timers setTimeout idle app handler Date_now trace].
  rewrite due_30000.
  change (Fin (c + 30000 + l1 + 30000) + Fin l2)%js
    with (Fin (c + 30000 + l1 + 30000 + l2)).
  rewrite (@atTime_near host time _ (c + 30000 + l1 + 30000 + l2) t);
    [| reflexivity | exact Ht | lra].
  cbn [bind]. unfold fire at 1. cbn [timers setTimeout idle app handler Date_now trace].
  destruct (due_callback (c + 30000 + l1 + 30000 + l2)
                         (t - (c + 30000 + l1 + 30000 + l2)))
    as (f & -> & F1 & F2 & _).
  eexists. exists (f + l3)%Q. split; [reflexivity|].
  repeat split. lra.
Qed.

(** C4 (amended).  [atTime] computes the distance from the live clock to the
    target; under 30 seconds it arms one timer, for exactly that distance,
    which runs the callback; otherwise it arms one timer for 30000 ms which
    re-invokes [atTime] with the original target.  In every run of the chain,
    however late the host fires the timers, each timer was armed in this
    way against the clock at its arming, and the callback only runs from a
    callback timer, that is, inside the last window of less than 30
    seconds.  For a target 65 seconds away [atTime] is re-invoked twice
    before the callback runs, provided the host fires the first 30-second
    timer at most five seconds late. *)
Theorem atTime_reanchors (host : Platform) (time : PointOrDate) :
  (forall el,
     atTime host time el
     = Ok (if (asSeconds (distance time (Date_now el)) <? num 30)%js
           then setTimeout CallFunc (asMilliseconds (distance time (Date_now el))) el
           else setTimeout (CallAtTime time) (num 30000) el))
  /\ (forall clock lateness,
        exists el',
          schedule host time clock lateness = Ok el'
          /\ Forall (armed_by time) (armed el')
          /\ (forall c, In c (ran el') -> ran_from el' c))
  /\ (forall c t l1 l2 l3 : Q,
        ms_of time = Fin t -> t == c + 65000 ->
        0 <= l1 -> l1 <= 5000 -> 0 <= l2 -> 0 <= l3 ->
        exists el' fired,
          schedule host time (Fin c) [l1; l2; l3] = Ok el'
          /\ map handler (armed el') = [CallAtTime time; CallAtTime time; CallFunc]
          /\ reanchors el' = 2%nat
          /\ ran el' = [Fin fired]
          /\ t <= fired).
Proof.
  split; [intros el; apply atTime_unfold|]. split.
  - intros clock lateness. unfold schedule.
    destruct (atTime_inv host (chain_inv_idle time clock)) as (el1 & -> & I1).
    cbn [bind].
    destruct (run_inv host lateness I1) as (el' & -> & A & _ & R).
    exists el'. now repeat split.
  - intros c t l1 l2 l3. apply schedule_65_seconds.
Qed.

Lemma atTime_reanchors_witness :
  let time := ADate (mkDate (Fin 65000)) in
  exists el' fired,
    schedule bare_host time (Fin 0) [0; 0; 0] = Ok el'
    /\ map handler (armed el') = [CallAtTime time; CallAtTime time; CallFunc]
    /\ reanchors el' = 2%nat
    /\ ran el' = [Fin fired]
    /\ 65000 <= fired.
Proof.
  apply (proj2 (proj2 (atTime_reanchors bare_host (ADate (mkDate (Fin 65000)))))
           0 65000 0 0 0).
  - reflexivity.
  - reflexivity.
  - unfold Qle. simpl. lia.
  - unfold Qle. simpl. lia.
  - unfold Qle. simpl. lia.
  - unfold Qle. simpl. lia.
Defined.

(** The first 30-second timer fires six seconds late: [atTime] is
    re-invoked at 36 seconds, finds 29 seconds to go and arms the callback.
    The target was 65 seconds away and there was a single re-invocation. *)
Lemma late_timer_counterexample :
  let time := ADate (mkDate (num 65000)) in
  exists el',
    schedule bare_host time (num 0) [6000; 0] = Ok el'
    /\ map handler (armed el') = [CallAtTime time; CallFunc]
    /\ reanchors el' = 1%nat
    /\ ran el' = [num 65000].
Proof.
  eexists. split; [vm_compute; reflexivity|]. vm_compute. repeat split.
Qed.

(* ================================================================== *)
(** ** Round trip of a whole number of milliseconds *)
(* ================================================================== *)

Lemma new_TimePeriod_total b :
  asMilliseconds (new_TimePeriod (InBreakdown b)) = total b (num 0).
Proof. reflexivity. Qed.

Lemma Qsign_positive (c : Z) : (0 < c)%Z -> Qsign (inject_Z c) = Gt.
Proof.
  intros H. unfold Qsign. apply (proj1 (Qgt_alt _ _)).
  change 0%Q with (inject_Z 0). now rewrite <- Zlt_Qlt.
Qed.

(** The floored quotient of a whole remainder by a whole divisor. *)
Lemma floor_quotient (q : Q) (r c : Z) :
  (0 < c)%Z -> q == inject_Z r ->
  Math_floor (Fin q / num c)%js = num (r / c).
Proof.
  intros Hc E. unfold num_div, num. rewrite (Qsign_positive Hc).
  unfold Math_floor. do 2 f_equal.
  rewrite E. symmetry. apply Zdiv_Qdiv.
Qed.

(** One step of the traversal on whole numbers: the quotient is recorded
    and the remainder is the integer remainder. *)
Lemma step_whole (u : TimeUnit) (q : Q) (r c : Z) (result : Breakdown) :
  (0 < c)%Z -> divisors u = num c -> q == inject_Z r ->
  ~ In u (obj_keys result) ->
  exists q',
    breakdown_step None (Some true) (Fin q, result) u
    = (Fin q', result ++ [(u, num (r / c))])
    /\ q' == inject_Z (r mod c).
Proof.
  intros Hc Hu E N. unfold breakdown_step. cbn [is_floatUnit truthy orb].
  rewrite Hu, (floor_quotient Hc E), obj_set_new by exact N.
  eexists. split; [reflexivity|].
  rewrite E, Z.mod_eq by lia. unfold Qminus.
  rewrite <- inject_Z_mult, <- inject_Z_opp, <- inject_Z_plus.
  apply inject_Z_injective. lia.
Qed.

(** Every unit but the microfortnight is a whole number of milliseconds. *)
Lemma whole_ms_divisor u :
  u <> microfortnights -> (0 < whole_ms u)%Z /\ divisors u = num (whole_ms u).
Proof. destruct u; intros H; try congruence; split; reflexivity. Qed.

Lemma digits_keys : forall sorted r, map fst (digits r sorted) = sorted.
Proof. induction sorted as [|u sorted IH]; intros r; simpl; [|rewrite IH]; reflexivity. Qed.

(** On whole milliseconds the traversal computes quotients and remainders
    of integers. *)
Lemma fold_digits : forall (sorted : list TimeUnit) (q : Q) (r : Z) (result : Breakdown),
  NoDup sorted -> ~ In microfortnights sorted ->
  (forall k, In k (obj_keys result) -> ~ In k sorted) ->
  q == inject_Z r ->
  snd (fold_left (breakdown_step None (Some true)) sorted (Fin q, result))
  = result ++ whole_amounts (digits r sorted).
Proof.
  induction sorted as [|u sorted IH]; intros q r result N M D E.
  - simpl. now rewrite app_nil_r.
  - inversion N as [|? ? Nu N']; subst.
    destruct (@whole_ms_divisor u) as [Hc Hu].
    { intros ->. apply M. now left. }
    destruct (@step_whole u q r (whole_ms u) result Hc Hu E) as (q1 & S1 & E1).
    { intros H. apply (D u H). now left. }
    cbn [fold_left]. rewrite S1. rewrite (IH q1 (r mod whole_ms u)%Z).
    + cbn [digits whole_amounts map fst snd]. now rewrite <- app_assoc.
    + exact N'.
    + intros H. apply M. now right.
    + intros k Hk Hin. rewrite obj_keys_app in Hk. apply in_app_or in Hk.
      destruct Hk as [Hk|[<-|[]]]; [apply (D k Hk); now right | contradiction].
    + exact E1.
Qed.

(** The amounts recorded and what is left over add up to the value. *)
Lemma total_digits : forall (sorted : list TimeUnit) (r : Z) (s : Q),
  ~ In microfortnights sorted ->
  exists s', total (whole_amounts (digits r sorted)) (Fin s) = Fin s'
             /\ s' + inject_Z (left_over r sorted) == s + inject_Z r.
Proof.
  induction sorted as [|u sorted IH]; intros r s M.
  - exists s. split; reflexivity.
  - destruct (@whole_ms_divisor u) as [Hc Hu].
    { intros ->. apply M. now left. }
    destruct (IH (r mod whole_ms u)%Z
                 (s + inject_Z (whole_ms u) * inject_Z (r / whole_ms u))%Q)
      as (s' & T & E).
    { intros H. apply M. now right. }
    exists s'. split.
    + cbn [digits whole_amounts map fst snd]. unfold total. cbn [fold_left fst snd].
      rewrite Hu. exact T.
    + cbn [left_over]. rewrite E. rewrite <- inject_Z_mult.
      rewrite <- !Qplus_assoc. apply Qplus_comp; [reflexivity|].
      rewrite <- inject_Z_plus. apply inject_Z_injective.
      rewrite Z.mod_eq by lia. lia.
Qed.

(** The milliseconds of a unit divide those of every more significant
    unit. *)
Lemma whole_ms_divides (u v : TimeUnit) :
  more_significant u v -> u <> microfortnights -> v <> microfortnights ->
  (whole_ms v | whole_ms u)%Z.
Proof.
  destruct u, v; intros S Hu Hv; try congruence; try (vm_compute in S; discriminate S);
    apply Z.mod_divide; try discriminate; reflexivity.
Qed.

Lemma strictly_sorted (l : list TimeUnit) :
  NoDup l -> StronglySorted not_after l -> StronglySorted more_significant l.
Proof.
  intros N S. induction S as [|x l Hl IH Hx]; [constructor|].
  inversion N as [|? ? Nx N']; subst. constructor; [now apply IH|].
  rewrite Forall_forall in *. intros y Hy.
  apply not_after_strict; [now apply Hx | intros ->; contradiction].
Qed.

(** On a list in strict significance order only the last unit decides
    what is left over. *)
Lemma left_over_sorted : forall (sorted : list TimeUnit) (r : Z),
  StronglySorted more_significant sorted -> ~ In microfortnights sorted ->
  left_over r sorted
  = match at_last sorted with Some u => (r mod whole_ms u)%Z | None => r end.
Proof.
  induction sorted as [|u [|v rest] IH]; intros r S M; try reflexivity.
  inversion S as [|? ? S' F]; subst.
  change (left_over r (u :: v :: rest)) with (left_over (r mod whole_ms u)%Z (v :: rest)).
  rewrite at_last_cons, IH; [| exact S' | intros H; apply M; now right].
  destruct (at_last (v :: rest)) as [w|] eqn:L.
  - assert (Hw : In w (v :: rest)) by now apply at_last_in.
    rewrite Forall_forall in F.
    assert (Nu : u <> microfortnights) by (intros ->; apply M; now left).
    assert (Nw : w <> microfortnights) by (intros ->; apply M; now right).
    apply Z.mod_mod_divide.
    apply whole_ms_divides; [now apply F | exact Nu | exact Nw].
  - apply at_last_none in L. discriminate L.
Qed.

(** C6 (amended).  For a non-negative period of a whole number [z] of
    milliseconds within the safe integers and a list of units without
    repetition and without microfortnights, the amounts of
    [breakdown(units, {floatLast: false, includeZero: true})], each times
    the divisor of its unit, add up to the period exactly when nothing is
    left over: when the least significant requested unit divides [z]
    ([z = 0] for the empty list).  The constructor applied to the breakdown
    then gives a period equal to the original, and only then. *)
Theorem breakdown_round_trip (d : TimePeriod) (units : list TimeUnit) (z : Z) :
  asMilliseconds d = num z -> (0 <= z <= 9007199254740991)%Z ->
  NoDup units -> ~ In microfortnights units ->
  (TimePeriod_equals d
     (new_TimePeriod (InBreakdown
        (breakdown d (Some (Units units))
           (Some (mkOptions (Given (Some false)) (Given (Some true)))))))
   = true
   <-> match at_last (Array_sort by_divisor units) with
       | Some u => (z mod whole_ms u = 0)%Z
       | None => z = 0%Z
       end).
Proof.
  intros Hd _ N Hmf.
  assert (M : ~ In microfortnights (Array_sort by_divisor units)).
  { intros H. apply Hmf. eapply Permutation_in; [apply Array_sort_perm | exact H]. }
  assert (S : StronglySorted more_significant (Array_sort by_divisor units)).
  { apply strictly_sorted; [now apply Array_sort_NoDup | apply Array_sort_sorted]. }
  unfold breakdown, breakdown_args, breakdown_with.
  cbn [opt_floatLast opt_includeZero spread floatLast includeZero truthy].
  rewrite Hd. unfold num at 1.
  rewrite (@fold_digits (Array_sort by_divisor units) (inject_Z z) z []);
    [| now apply Array_sort_NoDup | exact M | intros k [] | reflexivity].
  cbn [app]. unfold TimePeriod_equals. rewrite new_TimePeriod_total, Hd.
  destruct (@total_digits (Array_sort by_divisor units) z (inject_Z 0) M)
    as (s' & T & E).
  unfold num at 1. rewrite T. unfold num_eq, num. rewrite Qeq_bool_iff.
  change (inject_Z 0) with 0%Q in E.
  assert (L : s' == inject_Z z
              <-> left_over z (Array_sort by_divisor units) = 0%Z).
  { split; intros H.
    - apply (proj1 (inject_Z_injective _ 0)). change (inject_Z 0) with 0%Q. lra.
    - rewrite H in E. change (inject_Z 0) with 0%Q in E. lra. }
  rewrite L, (left_over_sorted z S M).
  destruct (at_last (Array_sort by_divisor units)); reflexivity.
Qed.

Lemma NoDup_hours_minutes_seconds : NoDup [seconds; hours; minutes].
Proof.
  constructor; [intros [E|[E|[]]]; discriminate|].
  constructor; [intros [E|[]]; discriminate|].
  constructor; [intros []|constructor].
Defined.

Lemma breakdown_round_trip_witness :
  let d := new_TimePeriod (InMs (num 5415000)) in
  TimePeriod_equals d
    (new_TimePeriod (InBreakdown
       (breakdown d (Some (Units [seconds; hours; minutes]))
          (Some (mkOptions (Given (Some false)) (Given (Some true)))))))
  = true.
Proof.
  apply (proj2 (@breakdown_round_trip (new_TimePeriod (InMs (num 5415000)))
                  [seconds; hours; minutes] 5415000 eq_refl
                  ltac:(lia) NoDup_hours_minutes_seconds
                  ltac:(simpl; intuition discriminate))).
  reflexivity.
Defined.

(** The round trip fails as soon as something is left over: one and a half
    seconds in [seconds] alone.  It also fails after a microfortnight, even
    with the milliseconds in the list (the remainder is no longer whole),
    and for half a millisecond. *)
Lemma breakdown_round_trip_counterexample :
  let full := Some (mkOptions (Given (Some false)) (Given (Some true))) in
  let back := fun d units =>
    TimePeriod_equals d
      (new_TimePeriod (InBreakdown (breakdown d (Some (Units units)) full))) in
  back (new_TimePeriod (InMs (num 1500))) [seconds] = false
  /\ obj_red (breakdown (new_TimePeriod (InMs (num 1500))) (Some (Units [seconds])) full)
     = [(seconds, num 1)]
  /\ back (new_TimePeriod (InMs (num 1210))) [microfortnights; milliseconds] = false
  /\ back (new_TimePeriod (InMs (Fin (1 # 2)))) [milliseconds] = false.
Proof. vm_compute. repeat split. Qed.

(* ================================================================== *)
(** ** Validation of a calendar descriptor *)
(* ================================================================== *)

Lemma rem_1 (q : Q) : (Fin q %% num 1)%js = Fin (q - 1 * inject_Z (Qtrunc (q / 1))).
Proof. reflexivity. Qed.

Lemma Qtrunc_div_1 (q : Q) : Qtrunc (q / 1) = Z.quot (Qnum q) (Zpos (Qden q)).
Proof.
  unfold Qtrunc, Qdiv, Qmult, Qinv. simpl.
  now rewrite Z.mul_1_r, Pos.mul_1_r.
Qed.

Lemma Q_as_fraction (q : Q) : q == inject_Z (Qnum q) / inject_Z (Zpos (Qden q)).
Proof.
  destruct q as [n d]. unfold Qeq, Qdiv, Qmult, Qinv, inject_Z. simpl. ring.
Qed.

(** The fractional part that [%] leaves, as an integer remainder. *)
Lemma rem_1_value (q : Q) :
  q - 1 * inject_Z (Qtrunc (q / 1))
  == inject_Z (Z.rem (Qnum q) (Zpos (Qden q))) / inject_Z (Zpos (Qden q)).
Proof.
  rewrite Qtrunc_div_1. rewrite (Q_as_fraction q) at 1.
  rewrite Z.rem_eq by discriminate.
  unfold Z.sub. rewrite inject_Z_plus, inject_Z_opp, inject_Z_mult.
  field. intros H. apply inject_Z_injective in H. discriminate.
Qed.

Lemma has_fraction_sign (q : Q) :
  has_fraction (Fin q) = (0 <? Z.rem (Qnum q) (Zpos (Qden q)))%Z.
Proof.
  unfold has_fraction, num_gt, num_lt, num. rewrite rem_1.
  change (inject_Z 0) with 0%Q.
  assert (D : 0 < inject_Z (Zpos (Qden q))) by reflexivity.
  destruct (Z.ltb_spec 0 (Z.rem (Qnum q) (Zpos (Qden q)))) as [L|G].
  - replace (0 ?= _)%Q with Lt; [reflexivity|]. symmetry.
    apply (proj1 (Qlt_alt _ _)). rewrite rem_1_value.
    apply Qlt_shift_div_l; [exact D|]. rewrite Qmult_0_l.
    change 0%Q with (inject_Z 0). now rewrite <- Zlt_Qlt.
  - destruct (Qcompare_spec 0 (q - 1 * inject_Z (Qtrunc (q / 1)))) as [E|L|G'];
      try reflexivity.
    exfalso. rewrite rem_1_value in L.
    assert (inject_Z (Z.rem (Qnum q) (Z.pos (Qden q))) <= 0)
      by (change 0%Q with (inject_Z 0); now rewrite <- Zle_Qle).
    assert (inject_Z (Z.rem (Qnum q) (Z.pos (Qden q))) / inject_Z (Z.pos (Qden q)) <= 0).
    { apply Qle_shift_div_r; [exact D|]. now rewrite Qmult_0_l. }
    lra.
Qed.

(** A value that is not positive never has a fraction for the test. *)
Lemma has_fraction_not_positive (q : Q) : q <= 0 -> has_fraction (Fin q) = false.
Proof.
  intros H. rewrite has_fraction_sign. apply Z.ltb_ge.
  assert (Hn : (Qnum q <= 0)%Z).
  { unfold Qle in H. simpl in H. lia. }
  apply Z.rem_nonpos; lia.
Qed.

(** An integer has none. *)
Lemma has_fraction_integer (q : Q) (z : Z) : q == inject_Z z -> has_fraction (Fin q) = false.
Proof.
  intros H. rewrite has_fraction_sign. apply Z.ltb_ge.
  unfold Qeq in H. simpl in H. rewrite Z.mul_1_r in H.
  rewrite H, Z.rem_mul; lia.
Qed.

(** A positive value that is not an integer has one. *)
Lemma has_fraction_positive (q : Q) :
  0 < q -> (forall z, ~ q == inject_Z z) -> has_fraction (Fin q) = true.
Proof.
  intros P N. rewrite has_fraction_sign. apply Z.ltb_lt.
  assert (Hn : (0 < Qnum q)%Z).
  { unfold Qlt in P. simpl in P. lia. }
  assert (R := Z.rem_nonneg (Qnum q) (Zpos (Qden q)) ltac:(discriminate) ltac:(lia)).
  destruct (Z.eq_dec (Z.rem (Qnum q) (Zpos (Qden q))) 0) as [E|E]; [|lia].
  exfalso. apply (N (Z.quot (Qnum q) (Zpos (Qden q)))).
  unfold Qeq. simpl.
  pose proof (Z.quot_rem' (Qnum q) (Zpos (Qden q))) as QR. rewrite E in QR. lia.
Qed.

Lemma throw_if_fraction (fields : list number) (k : Result TimePoint) :
  existsb (fun v => (v %% num 1 >? num 0)%js) fields = true ->
  (throw_if (existsb (fun v => (v %% num 1 >? num 0)%js) fields) invalid_descriptor ;; k)
  = Throw invalid_descriptor.
Proof. intros ->. reflexivity. Qed.

(** A positive value with a fraction in any of the five fields is
    rejected with the invalid-descriptor error. *)
Lemma positive_fraction_rejected (host : Platform) (d : TimePointDescription) (q : Q) :
  In (Fin q) [year d; month d; day d; hour d; minute d] ->
  0 < q -> (forall z, ~ q == inject_Z z) ->
  new_TimePoint host (InDescription d) = Throw invalid_descriptor.
Proof.
  intros I P N. destruct d as [y mo da h mi s tz]. cbn [year month day hour minute] in I.
  unfold new_TimePoint. apply throw_if_fraction.
  apply existsb_exists. exists (Fin q). split; [exact I|].
  now apply has_fraction_positive.
Qed.

(** With integers in the five fields the invalid-descriptor error is not
    thrown, whatever the seconds are. *)
Lemma fraction_of_second_allowed (host : Platform) (d : TimePointDescription) :
  (forall v, In v [year d; month d; day d; hour d; minute d] -> is_integer v) ->
  new_TimePoint host (InDescription d) <> Throw invalid_descriptor.
Proof.
  intros H. destruct d as [y mo da h mi s tz]. cbn [year month day hour minute] in H.
  unfold new_TimePoint.
  replace (existsb _ [y; mo; da; h; mi]) with false.
  - cbn [throw_if bind].
    repeat match goal with
           | |- context [throw_if ?c ?e] => destruct c; cbn [throw_if bind]
           end; discriminate.
  - symmetry. apply not_true_is_false. intros E. apply existsb_exists in E.
    destruct E as (v & Hv & F). destruct (H v Hv) as [z Hz].
    destruct v as [| | |q]; try contradiction.
    change (has_fraction (Fin q) = true) in F.
    rewrite (has_fraction_integer Hz) in F. discriminate.
Qed.

(** C5.  The year -2020.5 is not an integer, and the constructor does not
    throw: the test [v % 1 > 0] is false for it, as for every value that is
    not positive. *)
Theorem negative_fraction_not_rejected (host : Platform) :
  let description :=
    mkDescription (Fin (-4041 # 2)) (num 10) (num 31) (num 19) (num 30) (num 0) "GMT" in
  ~ is_integer (year description)
  /\ has_fraction (year description) = false
  /\ exists p, new_TimePoint host (InDescription description) = Ok p.
Proof.
  split; [|split].
  - intros [z H]. unfold Qeq in H. simpl in H. lia.
  - reflexivity.
  - eexists. vm_compute. reflexivity.
Qed.

(** The same slip turns a negative fraction in the month into a range
    error. *)
Example negative_fraction_month (host : Platform) :
  new_TimePoint host (InDescription
    (mkDescription (num 2020) (Fin (-3 # 2)) (num 31) (num 19) (num 30) (num 0) "GMT"))
  = Throw (RangeError "Invalid month").
Proof. reflexivity. Qed.

(** The descriptors of the unit test "should disallow invalid descriptors". *)
Example test_invalid_descriptors (host : Platform) :
  let base := fun y mo d h mi s => InDescription (mkDescription y mo d h mi s "GMT") in
  new_TimePoint host (base (Fin (20214 # 10)) (num 10) (num 31) (num 19) (num 30) (num 0))
  = Throw invalid_descriptor
  /\ new_TimePoint host (base (num 2020) (num 0) (num 31) (num 19) (num 30) (num 0))
     = Throw (RangeError "Invalid month")
  /\ new_TimePoint host (base (num 2020) (num 10) (num 31) (num 19) (num 30) (num (-10)))
     = Throw (RangeError "Invalid second")
  /\ new_TimePoint host (base (num 2020) (num 2) (num 30) (num 19) (num 30) (num 0))
     = Throw (RangeError "Invalid day")
  /\ new_TimePoint host (base (num 2020) (num 10) (num 31) (num 24) (num 30) (num 0))
     = Throw (RangeError "Invalid hour")
  /\ new_TimePoint host (base (num 2020) (num 10) (num 31) (num 19) (num 60) (num 0))
     = Throw (RangeError "Invalid minute").
Proof. vm_compute. repeat split. Qed.

(** February in ordinary years. *)
Example february_29 (host : Platform) :
  let feb := fun y d => InDescription (mkDescription y (num 2) d (num 0) (num 0) (num 0) "GMT") in
  (exists p, new_TimePoint host (feb (num 2020) (num 29)) = Ok p)
  /\ new_TimePoint host (feb (num 2021) (num 29)) = Throw (RangeError "Invalid day")
  /\ new_TimePoint host (feb (num 1900) (num 29)) = Throw (RangeError "Invalid day")
  /\ (exists p, new_TimePoint host (feb (num 2000) (num 29)) = Ok p).
Proof.
  split; [eexists; vm_compute; reflexivity|].
  split; [reflexivity|]. split; [reflexivity|].
  eexists; vm_compute; reflexivity.
Qed.

(** C2.  The day check reads the length of the month from a host date.
    Year 275761 is past the last date the host can hold, the length it
    reports is [NaN] and [day > NaN] is false: 30 February 275761 is
    accepted.  Year 0 is taken by the host for 1900: 29 February of year 0, a
    leap year, is rejected. *)
Theorem day_check_misses_years (host : Platform) :
  let feb := fun y d => InDescription (mkDescription y (num 2) d (num 0) (num 0) (num 0) "GMT") in
  getDate (new_Date_ymd (num 275761) (num 2) (num 0)) = NaN
  /\ (exists p, new_TimePoint host (feb (num 275761) (num 30)) = Ok p)
  /\ is_leap 0 = true
  /\ getDate (new_Date_ymd (num 0) (num 2) (num 0)) = num 28
  /\ new_TimePoint host (feb (num 0) (num 29)) = Throw (RangeError "Invalid day").
Proof.
  split; [reflexivity|].
  split; [eexists; vm_compute; reflexivity|].
  repeat split.
Qed.

(* ================================================================== *)
(** ** The earlier revision *)
(* ================================================================== *)

(** The table allows 29 days to every February. *)
Example Rev1_february_29_of_2021 (host : Platform) :
  exists p,
    Rev1.new_TimePoint host (InDescription
      (mkDescription (num 2021) (num 2) (num 29) (num 0) (num 0) (num 0) "GMT"))
    = Ok p.
Proof. eexists. vm_compute. reflexivity. Qed.

(** Without the sort the result depends on the order of the units. *)
Example Rev1_breakdown_in_given_order :
  obj_red (Rev1.breakdown period_1h30m15s (Some (Units [minutes; days])) None)
  = [(minutes, num 90); (days, num 0)].
Proof. vm_compute. reflexivity. Qed.

(** [difference] gave the same period as it does in the current revision. *)
Lemma Rev1_difference_same (a b : TimePoint) :
  Rev1.difference a b = difference a (APoint b).
Proof. reflexivity. Qed.

(* ================================================================== *)
(** ** The host's month lengths *)
(* ================================================================== *)

Local Open Scope Z_scope.

Lemma DayFromYear_succ y : DayFromYear (y + 1) = DayFromYear y + DaysInYear y.
Proof.
  unfold DayFromYear, DaysInYear, is_leap.
  destruct (Z.eqb_spec (y mod 4) 0), (Z.eqb_spec (y mod 100) 0),
           (Z.eqb_spec (y mod 400) 0);
    cbn [andb orb negb]; Z.div_mod_to_equations; lia.
Qed.

Lemma DaysInYear_bounds y : 365 <= DaysInYear y <= 366.
Proof. unfold DaysInYear. destruct (is_leap y); lia. Qed.

Lemma DayFromYear_estimate y :
  146097 * (y - 1970) - 506 <= 400 * DayFromYear y <= 146097 * (y - 1970) + 589.
Proof. unfold DayFromYear. Z.div_mod_to_equations. lia. Qed.

(** [YearFromTime] meets its definition in ECMA-262: the year whose span
    holds the time value. *)
Lemma YearFromTime_correct y t :
  TimeFromYear y <= t < TimeFromYear (y + 1) -> YearFromTime t = y.
Proof.
  intros H. unfold YearFromTime.
  set (d := Day t).
  assert (Hd : DayFromYear y <= d < DayFromYear (y + 1)).
  { subst d. unfold Day, TimeFromYear, msPerDay in *. Z.div_mod_to_equations. lia. }
  pose proof (DayFromYear_estimate y) as Hy.
  pose proof (DayFromYear_succ y) as Hs. pose proof (DaysInYear_bounds y) as Hb.
  assert (He : 1970 + d * 400 / 146097 = y - 1 \/ 1970 + d * 400 / 146097 = y
               \/ 1970 + d * 400 / 146097 = y + 1)
    by (Z.div_mod_to_equations; lia).
  pose proof (DayFromYear_succ (y - 1)) as Hp. pose proof (DaysInYear_bounds (y - 1)).
  replace (y - 1 + 1) with y in Hp by lia.
  unfold TimeFromYear, msPerDay in *.
  destruct He as [-> | [-> | ->]].
  - replace (y - 1 + 1) with y by lia.
    destruct (Z.ltb_spec t (86400000 * DayFromYear (y - 1))); [lia|].
    destruct (Z.leb_spec (86400000 * DayFromYear y) t); lia.
  - destruct (Z.ltb_spec t (86400000 * DayFromYear y)); [lia|].
    destruct (Z.leb_spec (86400000 * DayFromYear (y + 1)) t); lia.
  - destruct (Z.ltb_spec t (86400000 * DayFromYear (y + 1))); lia.
Qed.

Lemma DateFromTime_in_year t :
  DateFromTime t = date_in_year (DayWithinYear t) (InLeapYear t).
Proof. reflexivity. Qed.

(** The day number that [MakeDay] gives for day 0 of the month after [m]. *)
Lemma day_zero_of_next_month y m :
  1 <= m <= 12 ->
  DayFromYear (y + m / 12) + DaysBeforeMonth (is_leap (y + m / 12)) (m mod 12) + 0 - 1
  = DayFromYear y + last_day_of_month (is_leap y) m.
Proof.
  intros Hm.
  assert (cases : m = 1 \/ m = 2 \/ m = 3 \/ m = 4 \/ m = 5 \/ m = 6 \/ m = 7
                  \/ m = 8 \/ m = 9 \/ m = 10 \/ m = 11 \/ m = 12) by lia.
  pose proof (DayFromYear_succ y) as Hs. unfold DaysInYear in Hs.
  repeat (destruct cases as [-> | cases]); try subst m;
    match goal with
    | |- context [?k / 12] =>
        let q := eval vm_compute in (k / 12) in
        let r := eval vm_compute in (k mod 12) in
        change (k / 12) with q; change (k mod 12) with r
    end;
    rewrite ?Z.add_0_r; try rewrite Hs;
    destruct (is_leap y); try destruct (is_leap (y + 1));
    unfold DaysBeforeMonth, last_day_of_month; cbn [andb Z.leb Z.compare Pos.compare
      Pos.compare_cont]; lia.
Qed.

Lemma last_day_of_month_bounds leap m :
  1 <= m <= 12 -> 0 <= last_day_of_month leap m < (if leap then 366 else 365).
Proof.
  intros Hm.
  assert (cases : m = 1 \/ m = 2 \/ m = 3 \/ m = 4 \/ m = 5 \/ m = 6 \/ m = 7
                  \/ m = 8 \/ m = 9 \/ m = 10 \/ m = 11 \/ m = 12) by lia.
  repeat (destruct cases as [-> | cases]); try subst m; destruct leap; vm_compute;
    split; congruence.
Qed.

Lemma date_of_last_day leap y m :
  1 <= m <= 12 -> is_leap y = leap ->
  date_in_year (last_day_of_month leap m) (if leap then 1 else 0) = days_in_month y m.
Proof.
  intros Hm Hl.
  assert (cases : m = 1 \/ m = 2 \/ m = 3 \/ m = 4 \/ m = 5 \/ m = 6 \/ m = 7
                  \/ m = 8 \/ m = 9 \/ m = 10 \/ m = 11 \/ m = 12) by lia.
  unfold days_in_month.
  repeat (destruct cases as [-> | cases]); try subst m; rewrite ?Hl;
    destruct leap; reflexivity.
Qed.

(** The date of the day before the first day of the month after month [m]
    is the length of month [m]. *)
Lemma DateFromTime_last_day y m :
  1 <= m <= 12 ->
  DateFromTime (msPerDay * (DayFromYear y + last_day_of_month (is_leap y) m))
  = days_in_month y m.
Proof.
  intros Hm.
  set (t := msPerDay * (DayFromYear y + last_day_of_month (is_leap y) m)).
  pose proof (DayFromYear_succ y) as Hs. unfold DaysInYear in Hs.
  pose proof (last_day_of_month_bounds (is_leap y) Hm) as Hb.
  assert (Hday : Day t = DayFromYear y + last_day_of_month (is_leap y) m).
  { subst t. unfold Day, msPerDay. rewrite Z.mul_comm, Z.div_mul; lia. }
  assert (Hyear : YearFromTime t = y).
  { apply YearFromTime_correct. unfold TimeFromYear. subst t. rewrite Hs.
    unfold msPerDay. destruct (is_leap y); lia. }
  rewrite DateFromTime_in_year. unfold DayWithinYear, InLeapYear.
  rewrite Hyear, Hday.
  replace (DayFromYear y + last_day_of_month (is_leap y) m - DayFromYear y)
    with (last_day_of_month (is_leap y) m) by lia.
  unfold DaysInYear.
  rewrite <- (@date_of_last_day (is_leap y) y m Hm eq_refl).
  now destruct (is_leap y).
Qed.

Local Close Scope Z_scope.

Lemma Qtrunc_inject (z : Z) : Qtrunc (inject_Z z) = z.
Proof. unfold Qtrunc. simpl. apply Z.quot_1_r. Qed.

Lemma Qcompare_inject (a b : Z) : (inject_Z a ?= inject_Z b)%Q = (a ?= b)%Z.
Proof. unfold Qcompare, inject_Z. cbn [Qnum Qden]. now rewrite !Z.mul_1_r. Qed.

Lemma num_lt_num (a b : Z) : (num a <? num b)%js = (a <? b)%Z.
Proof. unfold num_lt, num. now rewrite Qcompare_inject, Z.ltb_compare. Qed.

Lemma num_gt_num (a b : Z) : (num a >? num b)%js = (b <? a)%Z.
Proof. apply num_lt_num. Qed.

Lemma num_ge_num (a b : Z) : (num a >=? num b)%js = (b <=? a)%Z.
Proof.
  unfold num_ge, num_le, num. now rewrite Qcompare_inject, Z.leb_compare.
Qed.

Lemma MakeFullYear_far (y : Z) :
  (y < 0 \/ 99 < y)%Z -> MakeFullYear (num y) = num y.
Proof.
  intros H. unfold MakeFullYear, ToIntegerOrInfinity, num. rewrite !Qtrunc_inject.
  destruct (Z.leb_spec 0 y), (Z.leb_spec y 99); cbn [andb]; try reflexivity. lia.
Qed.

Lemma MakeFullYear_two_digits (y : Z) :
  (0 <= y <= 99)%Z -> MakeFullYear (num y) = num (1900 + y).
Proof.
  intros H. unfold MakeFullYear, ToIntegerOrInfinity, num. rewrite !Qtrunc_inject.
  destruct (Z.leb_spec 0 y), (Z.leb_spec y 99); cbn [andb]; try reflexivity; lia.
Qed.

Lemma MakeDay_day_zero (y m : Z) :
  MakeDay (num y) (num m) (num 0)
  = num (DayFromYear (y + m / 12)
         + DaysBeforeMonth (is_leap (y + m / 12)) (m mod 12) + 0 - 1).
Proof. unfold MakeDay, num. now rewrite !Qtrunc_inject. Qed.

(** A day number within a hundred million days of the epoch gives a time
    value that [TimeClip] keeps. *)
Lemma TimeClip_MakeDate (d : Z) :
  (- 100000000 <= d <= 100000000)%Z ->
  TimeClip (UTC (MakeDate (num d) (num 0))) = num (msPerDay * d).
Proof.
  intros H. unfold UTC, MakeDate, num. unfold num_mul, num_add.
  set (q := (inject_Z d * inject_Z msPerDay + inject_Z 0)%Q).
  assert (E : q == inject_Z (msPerDay * d)).
  { subst q. rewrite inject_Z_mult. change (inject_Z 0) with 0%Q. ring. }
  unfold TimeClip, Math_abs, num_gt, num_lt, num.
  destruct (Qcompare_spec (inject_Z 8640000000000000) (Qabs q)) as [_|L|_].
  - unfold ToIntegerOrInfinity, num. do 2 f_equal.
    rewrite <- (Qtrunc_inject (msPerDay * d)). unfold Qtrunc.
    subst q. unfold Qplus, Qmult, inject_Z. cbn [Qnum Qden].
    change (Z.pos (1 * 1 * 1)) with 1%Z. f_equal. lia.
  - exfalso. rewrite E in L.
    assert (Qabs (inject_Z (msPerDay * d)) <= inject_Z 8640000000000000).
    { apply Qabs_Qle_condition. rewrite <- inject_Z_opp, <- !Zle_Qle.
      unfold msPerDay. lia. }
    lra.
  - unfold ToIntegerOrInfinity, num. do 2 f_equal.
    rewrite <- (Qtrunc_inject (msPerDay * d)). unfold Qtrunc.
    subst q. unfold Qplus, Qmult, inject_Z. cbn [Qnum Qden].
    change (Z.pos (1 * 1 * 1)) with 1%Z. f_equal. lia.
Qed.

Lemma DayFromYear_range (y : Z) :
  (-271820 <= y <= 275759)%Z ->
  (- 100000000 <= DayFromYear y /\ DayFromYear y + 365 <= 100000000)%Z.
Proof.
  intros H. pose proof (DayFromYear_estimate y). lia.
Qed.

(** On a host in UTC, for a year the host can hold, [getDate] of day 0 of
    the next month is the length of the month. *)
Lemma month_length_of_year (y m : Z) :
  (-271820 <= y <= 275759)%Z -> (1 <= m <= 12)%Z ->
  getDate (mkDate (TimeClip (UTC (MakeDate (MakeDay (num y) (num m) (num 0)) (num 0)))))
  = num (days_in_month y m).
Proof.
  intros Hy Hm. rewrite MakeDay_day_zero, (day_zero_of_next_month y Hm).
  pose proof (DayFromYear_range Hy) as R.
  pose proof (last_day_of_month_bounds (is_leap y) Hm) as B.
  rewrite TimeClip_MakeDate by (destruct (is_leap y); lia).
  unfold getDate. cbn [getTime]. unfold num at 1. rewrite Qtrunc_inject.
  unfold LocalTime. now rewrite DateFromTime_last_day.
Qed.

Lemma month_length_far (y m : Z) :
  (-271820 <= y <= -1 \/ 100 <= y <= 275759)%Z -> (1 <= m <= 12)%Z ->
  getDate (new_Date_ymd (num y) (num m) (num 0)) = num (days_in_month y m).
Proof.
  intros Hy Hm. unfold new_Date_ymd. rewrite MakeFullYear_far by lia.
  apply month_length_of_year; lia.
Qed.

Lemma is_leap_two_digits (y : Z) : (1 <= y <= 99)%Z -> is_leap (1900 + y) = is_leap y.
Proof.
  intros H. unfold is_leap.
  destruct (Z.eqb_spec ((1900 + y) mod 4) 0), (Z.eqb_spec (y mod 4) 0),
           (Z.eqb_spec ((1900 + y) mod 100) 0), (Z.eqb_spec (y mod 100) 0),
           (Z.eqb_spec ((1900 + y) mod 400) 0), (Z.eqb_spec (y mod 400) 0);
    cbn [andb orb negb]; try reflexivity; exfalso; Z.div_mod_to_equations; lia.
Qed.

Lemma month_length_two_digits (y m : Z) :
  (1 <= y <= 99)%Z -> (1 <= m <= 12)%Z ->
  getDate (new_Date_ymd (num y) (num m) (num 0)) = num (days_in_month y m).
Proof.
  intros Hy Hm. unfold new_Date_ymd. rewrite MakeFullYear_two_digits by lia.
  rewrite month_length_of_year by lia.
  unfold days_in_month. now rewrite is_leap_two_digits.
Qed.

Lemma has_fraction_num (z : Z) : has_fraction (num z) = false.
Proof. apply (@has_fraction_integer _ z). reflexivity. Qed.

Lemma month_length (y m : Z) :
  (-271820 <= y <= 275759)%Z -> y <> 0%Z -> (1 <= m <= 12)%Z ->
  getDate (new_Date_ymd (num y) (num m) (num 0)) = num (days_in_month y m).
Proof.
  intros Hy H0 Hm. destruct (Z_lt_le_dec y 0); [apply month_length_far; lia|].
  destruct (Z_le_gt_dec y 99); [apply month_length_two_digits | apply month_length_far]; lia.
Qed.

(** On a host in UTC, in every year the host can hold, year 0 apart, the
    day check accepts exactly the days of the month, leap years included. *)
Lemma day_check_in_range (host : Platform) (y m d : Z) (tz : string) :
  (-271820 <= y <= 275759)%Z -> y <> 0%Z -> (1 <= m <= 12)%Z ->
  let input := InDescription
    (mkDescription (num y) (num m) (num d) (num 0) (num 0) (num 0) tz) in
  ((1 <= d <= days_in_month y m)%Z -> exists p, new_TimePoint host input = Ok p)
  /\ (~ (1 <= d <= days_in_month y m)%Z ->
      new_TimePoint host input = Throw (RangeError "Invalid day")).
Proof.
  intros Hy H0 Hm input. subst input. unfold new_TimePoint.
  cbn [existsb].
  repeat match goal with
         | |- context [(num ?z %% num 1 >? num 0)%js] =>
             change (num z %% num 1 >? num 0)%js with (has_fraction (num z));
             rewrite (has_fraction_num z)
         end.
  cbn [orb throw_if bind].
  rewrite (month_length Hy H0 Hm).
  rewrite !num_lt_num, !num_gt_num, !num_ge_num.
  destruct (Z.ltb_spec m 1); [lia|]. destruct (Z.ltb_spec 12 m); [lia|].
  cbn [orb throw_if bind].
  destruct (Z.ltb_spec d 1), (Z.ltb_spec (days_in_month y m) d);
    cbn [orb throw_if bind Z.ltb Z.leb Z.compare Pos.compare Pos.compare_cont];
    split; intros Hd; try lia; try reflexivity.
  eexists. reflexivity.
Qed.

(** On such a host, in these years, 29 February is accepted exactly in the
    leap years. *)
Lemma february_29_iff_leap (host : Platform) (y : Z) (tz : string) :
  (-271820 <= y <= 275759)%Z -> y <> 0%Z ->
  (exists p, new_TimePoint host (InDescription
     (mkDescription (num y) (num 2) (num 29) (num 0) (num 0) (num 0) tz)) = Ok p)
  <-> is_leap y = true.
Proof.
  intros Hy H0.
  destruct (@day_check_in_range host y 2 29 tz Hy H0 ltac:(lia)) as [A R].
  unfold days_in_month in A, R. destruct (is_leap y).
  - split; [reflexivity|]. intros _. apply A. lia.
  - split; [|discriminate]. intros [p Hp]. rewrite R in Hp by lia. discriminate.
Qed.

(* ================================================================== *)
(** * Further properties of the code *)
(* ================================================================== *)

(** ** Comparison of points and periods *)

Lemma Qeq_bool_compare (a b : Q) :
  Qeq_bool a b = match (a ?= b)%Q with Eq => true | _ => false end.
Proof. unfold Qeq_bool, Qcompare. apply Z.eqb_compare. Qed.

Lemma finite_gt (a b : Q) :
  (Fin a >? Fin b)%js = match (a ?= b)%Q with Gt => true | _ => false end.
Proof.
  unfold num_gt, num_lt. rewrite <- (Qcompare_antisym a b).
  now destruct (a ?= b)%Q.
Qed.

Lemma finite_lt (a b : Q) :
  (Fin a <? Fin b)%js = match (a ?= b)%Q with Lt => true | _ => false end.
Proof. reflexivity. Qed.

Lemma finite_eq (a b : Q) :
  (Fin a === Fin b)%js = match (a ?= b)%Q with Eq => true | _ => false end.
Proof. apply Qeq_bool_compare. Qed.

(** X1.  [compare] returns 0 exactly when [equals] holds and -1 exactly when
    [isBefore] holds; it returns 1 when [isAfter] holds and also whenever one
    of the two times is [NaN], where none of the three holds. *)
Theorem compare_cases (a : TimePoint) (b : PointOrDate) :
  (TimePoint_compare a b = 0%Z <-> TimePoint_equals a b = true)
  /\ (TimePoint_compare a b = (-1)%Z <-> isBefore a b = true)
  /\ (TimePoint_compare a b = 1%Z <->
      isAfter a b = true \/ asMilliseconds (unixEpoch a) = NaN \/ ms_of b = NaN)
  /\ (asMilliseconds (unixEpoch a) = NaN \/ ms_of b = NaN ->
      TimePoint_equals a b = false /\ isBefore a b = false /\ isAfter a b = false).
Proof.
  unfold TimePoint_compare, TimePoint_equals, isBefore, isAfter.
  destruct (asMilliseconds (unixEpoch a)) as [| | |x], (ms_of b) as [| | |y];
    try (vm_compute; repeat split; intros; try discriminate; try tauto;
         repeat match goal with H : _ \/ _ |- _ => destruct H end;
         try discriminate; auto; fail).
  rewrite finite_gt, finite_lt, finite_eq.
  destruct (x ?= y)%Q; repeat split; intros; try discriminate; auto;
    repeat match goal with H : _ \/ _ |- _ => destruct H end; discriminate.
Qed.

(** X2.  Between two points that are not [NaN], [compare] is antisymmetric:
    swapping the points negates the result.  With a [NaN] on either side
    both directions give 1. *)
Theorem compare_antisymmetric (a b : TimePoint) :
  (asMilliseconds (unixEpoch a) <> NaN -> asMilliseconds (unixEpoch b) <> NaN ->
   TimePoint_compare b (APoint a) = (- TimePoint_compare a (APoint b))%Z)
  /\ (asMilliseconds (unixEpoch a) = NaN \/ asMilliseconds (unixEpoch b) = NaN ->
      TimePoint_compare a (APoint b) = 1%Z /\ TimePoint_compare b (APoint a) = 1%Z).
Proof.
  unfold TimePoint_compare. cbn [ms_of].
  destruct (asMilliseconds (unixEpoch a)) as [| | |x],
           (asMilliseconds (unixEpoch b)) as [| | |y];
    try (split; [intros; try congruence; reflexivity
                | intros [H|H]; try discriminate H; split; reflexivity]; fail).
  split.
  - intros _ _. rewrite !finite_lt, !finite_eq, <- (Qcompare_antisym x y).
    now destruct (x ?= y)%Q.
  - intros [H|H]; discriminate H.
Qed.

Lemma compare_antisymmetric_witness :
  let a := from_number (num 1) in
  let b := from_number (num 2) in
  TimePoint_compare b (APoint a) = (- TimePoint_compare a (APoint b))%Z.
Proof.
  apply (proj1 (compare_antisymmetric (from_number (num 1)) (from_number (num 2))));
    discriminate.
Defined.

Lemma num_eq_sym (x y : number) : (x === y)%js = (y === x)%js.
Proof.
  destruct x as [| | |a], y as [| | |b]; try reflexivity.
  rewrite !finite_eq, <- (Qcompare_antisym a b). now destruct (a ?= b)%Q.
Qed.

Lemma num_eq_trans (x y z : number) :
  (x === y)%js = true -> (y === z)%js = true -> (x === z)%js = true.
Proof.
  destruct x as [| | |a], y as [| | |b], z as [| | |c]; try discriminate; try reflexivity.
  unfold num_eq. rewrite !Qeq_bool_iff. intros H1 H2. now rewrite H1.
Qed.

(** X3.  [equals] on periods is symmetric and transitive (it is reflexive
    only off [NaN]), and two points are equal exactly when their periods
    since the epoch are. *)
Theorem equals_symmetric_transitive (a b c : TimePeriod) :
  TimePeriod_equals a b = TimePeriod_equals b a
  /\ (TimePeriod_equals a b = true -> TimePeriod_equals b c = true ->
      TimePeriod_equals a c = true)
  /\ TimePoint_equals (from_period a) (APoint (from_period b)) = TimePeriod_equals a b.
Proof.
  unfold TimePeriod_equals, TimePoint_equals. cbn [ms_of from_period unixEpoch].
  split; [apply num_eq_sym|]. split; [|apply num_eq_sym].
  intros H1 H2. eapply num_eq_trans; eassumption.
Qed.

(** X4.  [abs] never returns a negative period, returns the period itself
    when it is not negative, and applying it twice is the same as once. *)
Theorem abs_never_negative (d : TimePeriod) :
  (asMilliseconds (TimePeriod_abs d) <? num 0)%js = false
  /\ ((asMilliseconds d <? num 0)%js = false -> TimePeriod_abs d = d)
  /\ TimePeriod_abs (TimePeriod_abs d) = TimePeriod_abs d.
Proof.
  assert (A : (asMilliseconds (TimePeriod_abs d) <? num 0)%js = false).
  { unfold TimePeriod_abs. destruct (asMilliseconds d <? num 0)%js eqn:E; [|exact E].
    cbn [new_TimePeriod asMilliseconds].
    destruct (asMilliseconds d) as [| | |q]; try reflexivity.
    unfold Math_abs, num. rewrite finite_lt. change (inject_Z 0) with 0%Q.
    pose proof (Qabs_nonneg q).
    destruct (Qcompare_spec (Qabs q) 0); try reflexivity. lra. }
  split; [exact A|]. split.
  - intros E. unfold TimePeriod_abs. now rewrite E.
  - unfold TimePeriod_abs at 1. now rewrite A.
Qed.

(** ** Arithmetic through the constructor *)

Lemma same_number_refl x : same_number x x.
Proof. destruct x; cbn [same_number]; trivial. reflexivity. Qed.

Lemma same_number_sym x y : same_number x y -> same_number y x.
Proof. destruct x, y; cbn [same_number]; trivial. intros H. now symmetry. Qed.

Lemma same_number_trans x y z : same_number x y -> same_number y z -> same_number x z.
Proof.
  destruct x, y, z; cbn [same_number]; trivial; try contradiction.
  intros H1 H2. now rewrite H1.
Qed.

Lemma same_number_add x y a : same_number x y -> same_number (x + a)%js (y + a)%js.
Proof.
  destruct x as [| | |p], y as [| | |q]; cbn [same_number]; try contradiction; intros H;
    try apply same_number_refl.
  destruct a as [| | |c]; try exact I.
  change (p + c == q + c)%Q. now rewrite H.
Qed.

(** What the constructor makes of [{ milliseconds: x }] is [x]. *)
Lemma through_milliseconds x :
  same_number (asMilliseconds (new_TimePeriod (InBreakdown [(milliseconds, x)]))) x.
Proof.
  cbn [new_TimePeriod asMilliseconds fold_left fst snd].
  destruct x as [| | |q]; try exact I.
  change (0 + 1 * q == q)%Q. ring.
Qed.

Lemma same_number_equal x y : same_number x y -> y <> NaN -> (x === y)%js = true.
Proof.
  destruct x, y; cbn [same_number]; try contradiction; try reflexivity; try congruence.
  intros H _. now apply Qeq_bool_iff.
Qed.

Lemma sum_periods_same (l : list PeriodLike) : forall x y,
  same_number x y ->
  same_number (fold_left (fun sum p => (sum + asMilliseconds (toPeriod p))%js) l x)
              (fold_left (fun sum p => (sum + asMilliseconds (toPeriod p))%js) l y).
Proof.
  induction l as [|p l IH]; intros x y H; simpl; [exact H|].
  apply IH. now apply same_number_add.
Qed.

(** X5.  [add] with several periods gives the same period as adding them in
    two calls, and [add] with none gives the same period as the receiver. *)
Theorem add_in_steps (d : TimePeriod) (ps qs : list PeriodLike) :
  same_number (asMilliseconds (TimePeriod_add d (ps ++ qs)))
              (asMilliseconds (TimePeriod_add (TimePeriod_add d ps) qs))
  /\ same_number (asMilliseconds (TimePeriod_add d [])) (asMilliseconds d).
Proof.
  split; [|apply through_milliseconds].
  unfold TimePeriod_add at 1 3.
  eapply same_number_trans; [apply through_milliseconds|].
  apply same_number_sym.
  eapply same_number_trans; [apply through_milliseconds|].
  rewrite fold_left_app. apply sum_periods_same. apply through_milliseconds.
Qed.

(** X6.  The constructor applied to the [toJSON] of a period gives the same
    milliseconds, so the two periods are equal unless they are [NaN]. *)
Theorem period_json_round_trip (d : TimePeriod) :
  same_number (asMilliseconds (new_TimePeriod (TimePeriod_toJSON d))) (asMilliseconds d)
  /\ (TimePeriod_equals d (new_TimePeriod (TimePeriod_toJSON d)) = true
      <-> asMilliseconds d <> NaN).
Proof.
  pose proof (through_milliseconds (asMilliseconds d)) as S.
  split; [exact S|]. unfold TimePeriod_equals, TimePeriod_toJSON. split.
  - intros E N. rewrite N in E. discriminate E.
  - intros N. now apply same_number_equal.
Qed.

(** [multiply] and [divide] scale the milliseconds, special values
    included; a division by zero never gives a finite period. *)
Lemma multiply_divide_scale (d : TimePeriod) (k : number) :
  same_number (asMilliseconds (multiply d k)) (asMilliseconds d * k)%js
  /\ same_number (asMilliseconds (divide d k)) (asMilliseconds d / k)%js
  /\ (forall q, asMilliseconds (divide d (num 0)) <> Fin q).
Proof.
  split; [apply through_milliseconds|]. split; [apply through_milliseconds|].
  intros q H.
  pose proof (through_milliseconds (asMilliseconds d / num 0)%js) as S.
  change (asMilliseconds (divide d (num 0)))
    with (asMilliseconds (new_TimePeriod
            (InBreakdown [(milliseconds, (asMilliseconds d / num 0)%js)]))) in H.
  rewrite H in S.
  destruct (asMilliseconds d) as [| | |a]; try exact S.
  unfold num_div, num in S. change (Qsign (inject_Z 0)) with Eq in S.
  now destruct (Qsign a).
Qed.

Lemma div_by_whole (x : Q) (k : Z) :
  k <> 0%Z -> (Fin x / num k)%js = Fin (x / inject_Z k).
Proof.
  intros K. unfold num_div, num. destruct (Qsign (inject_Z k)) eqn:S; try reflexivity.
  exfalso. apply K. apply (proj1 (inject_Z_injective k 0)).
  now apply (proj2 (Qeq_alt _ _)).
Qed.

(** X7.  [divide] undoes [multiply]: for a period of a whole number [a] of
    milliseconds and a whole factor [k] other than 0, the product within
    the safe integers, [d.multiply(k).divide(k)] equals [d].  For every
    period, a division by zero never gives a finite period. *)
Theorem multiply_then_divide (d : TimePeriod) :
  (forall a k : Z,
     asMilliseconds d = num a -> k <> 0%Z ->
     (Z.abs (a * k) <= 9007199254740991)%Z ->
     TimePeriod_equals (divide (multiply d (num k)) (num k)) d = true)
  /\ (forall q, asMilliseconds (divide d (num 0)) <> Fin q).
Proof.
  split.
  - intros a k E K _. unfold TimePeriod_equals, divide, multiply.
    cbn [new_TimePeriod asMilliseconds fold_left fst snd]. rewrite E.
    assert (K0 : ~ inject_Z k == 0).
    { intros H. apply K. apply (proj1 (inject_Z_injective k 0)). exact H. }
    change (num 0 + divisors milliseconds * (num a * num k))%js
      with (Fin (0 + 1 * (inject_Z a * inject_Z k))).
    rewrite div_by_whole by exact K.
    change (num 0 + divisors milliseconds
                    * Fin ((0 + 1 * (inject_Z a * inject_Z k)) / inject_Z k))%js
      with (Fin (0 + 1 * ((0 + 1 * (inject_Z a * inject_Z k)) / inject_Z k))).
    unfold num_eq, num. apply Qeq_bool_iff. field. exact K0.
  - apply multiply_divide_scale. exact (num 0).
Qed.

Lemma multiply_then_divide_witness :
  TimePeriod_equals (divide (multiply period_1h30m15s (num 7)) (num 7)) period_1h30m15s
  = true
  /\ (forall q, asMilliseconds (divide (new_TimePeriod (InMs PosInf)) (num 0)) <> Fin q).
Proof.
  split.
  - apply (proj1 (multiply_then_divide period_1h30m15s) 5415000%Z 7%Z).
    + reflexivity.
    + discriminate.
    + vm_compute. discriminate.
  - apply (proj2 (multiply_then_divide (new_TimePeriod (InMs PosInf)))).
Defined.

(** ** Shape of the result of [breakdown] *)

Lemma obj_keys_set o k v x :
  In x (obj_keys (obj_set o k v)) <-> In x (obj_keys o) \/ x = k.
Proof.
  destruct (in_dec TimeUnit_eq_dec k (obj_keys o)) as [i|n].
  - rewrite obj_keys_set_in by exact i. split; [tauto|]. intros [H| ->]; assumption.
  - rewrite obj_keys_set_new by exact n. rewrite in_app_iff. simpl. intuition.
Qed.

Lemma Forall_obj_set (Q : number -> Prop) o k v :
  Forall (fun e => Q (snd e)) o -> Q v -> Forall (fun e => Q (snd e)) (obj_set o k v).
Proof.
  induction 1 as [|[k' v'] o Hx Ho IH]; intros Hv; simpl.
  - now repeat constructor.
  - destruct (unit_eqb k' k); constructor; auto.
Qed.

Lemma more_significant_irrefl a : ~ more_significant a a.
Proof. destruct a; vm_compute; discriminate. Qed.

Lemma strictly_sorted_NoDup (l : list TimeUnit) :
  StronglySorted more_significant l -> NoDup l.
Proof.
  induction 1 as [|x l Hl IH Hx]; constructor; [|exact IH].
  intros Hin. rewrite Forall_forall in Hx. apply (more_significant_irrefl (Hx x Hin)).
Qed.

(** The keys written are among the units traversed ... *)
Lemma fold_keys_subset floatUnit iz : forall units remaining result k,
  In k (obj_keys (snd (fold_left (breakdown_step floatUnit iz) units (remaining, result)))) ->
  In k (obj_keys result) \/ In k units.
Proof.
  induction units as [|u units IH]; intros remaining result k H; simpl in H; [now left|].
  destruct (is_floatUnit floatUnit u);
    match type of H with
    | context [if ?c then obj_set result u ?v else result] => destruct c
    end;
    apply IH in H; destruct H as [H|H]; try (right; now right); try (now left);
    apply obj_keys_set in H; destruct H as [H| ->]; [now left | right; now left
                                                     | now left | right; now left].
Qed.

(** ... and with [includeZero] they are all of them. *)
Lemma fold_keys_all floatUnit : forall units remaining result k,
  In k (obj_keys result) \/ In k units ->
  In k (obj_keys (snd (fold_left (breakdown_step floatUnit (Some true)) units
                                 (remaining, result)))).
Proof.
  induction units as [|u units IH]; intros remaining result k H; simpl.
  - destruct H as [H|[]]. exact H.
  - destruct (is_floatUnit floatUnit u); apply IH;
      (destruct H as [H|[->|H]];
       [left; apply obj_keys_set; now left | left; apply obj_keys_set; now right
        | now right]).
Qed.

(** X8.  The keys of [breakdown(units, options)] are units of the list, each
    at most once; when [includeZero] is left out or true they are exactly
    the units of the list. *)
Theorem breakdown_keys (d : TimePeriod) (units : list TimeUnit)
    (options : option PartialOptions) :
  let result := breakdown d (Some (Units units)) options in
  NoDup (obj_keys result)
  /\ (forall u, In u (obj_keys result) -> In u units)
  /\ (includeZero (snd (breakdown_args (Some (Units units)) options)) = Some true ->
      forall u, In u units -> In u (obj_keys result)).
Proof.
  cbv zeta. unfold breakdown. cbn [breakdown_args snd includeZero].
  split; [apply strictly_sorted_NoDup, breakdown_with_keys|]. split.
  - intros u H. unfold breakdown_with in H. apply fold_keys_subset in H.
    destruct H as [[]|H]. eapply Permutation_in; [apply Array_sort_perm | exact H].
  - intros E u H. unfold breakdown_with. cbn [includeZero]. rewrite E.
    apply fold_keys_all. right.
    eapply Permutation_in; [apply Permutation_sym, Array_sort_perm | exact H].
Qed.

Lemma fold_NaN floatUnit iz : forall units result,
  Forall (fun e => snd e = NaN) result ->
  let out := snd (fold_left (breakdown_step floatUnit iz) units (NaN, result)) in
  Forall (fun e => snd e = NaN) out
  /\ (forall u, In u (obj_keys result) \/ In u units -> In u (obj_keys out)).
Proof.
  induction units as [|u units IH]; intros result F; cbv zeta; simpl.
  - split; [exact F|]. intros k [H|[]]. exact H.
  - assert (S : Forall (fun e => snd e = NaN) (obj_set result u NaN))
      by (now apply (Forall_obj_set (fun v => v = NaN))).
    destruct (is_floatUnit floatUnit u);
      change (NaN / divisors u)%js with NaN;
      change (Math_floor NaN) with NaN;
      change (NaN - NaN * divisors u)%js with NaN;
      change (NaN !== num 0)%js with true; rewrite orb_true_r;
      destruct (IH _ S) as [A B]; (split; [exact A|]);
      intros k H; apply B;
      (destruct H as [H|[->|H]];
       [left; apply obj_keys_set; now left | left; apply obj_keys_set; now right
        | now right]).
Qed.

(** X9.  The breakdown of a [NaN] period holds every requested unit, with
    the amount [NaN], whatever [includeZero] says. *)
Theorem breakdown_of_NaN (d : TimePeriod) (units : option UnitsArg)
    (options : option PartialOptions) :
  asMilliseconds d = NaN ->
  Forall (fun e => snd e = NaN) (breakdown d units options)
  /\ (forall u, In u (fst (breakdown_args units options)) ->
                In u (obj_keys (breakdown d units options))).
Proof.
  intros N. unfold breakdown. destruct (breakdown_args units options) as [l full].
  unfold breakdown_with. rewrite N. cbn [fst].
  destruct (@fold_NaN (if truthy (floatLast full) then at_last (Array_sort by_divisor l)
                       else None)
                      (includeZero full) (Array_sort by_divisor l) [] (Forall_nil _))
    as [A B].
  split; [exact A|]. intros u H. apply B. right.
  eapply Permutation_in; [apply Permutation_sym, Array_sort_perm | exact H].
Qed.

Lemma breakdown_of_NaN_witness :
  Forall (fun e => snd e = NaN) (breakdown (new_TimePeriod (InMs NaN)) None None)
  /\ (forall u, In u [days; hours; minutes; seconds; milliseconds] ->
                In u (obj_keys (breakdown (new_TimePeriod (InMs NaN)) None None))).
Proof.
  apply (breakdown_of_NaN (new_TimePeriod (InMs NaN)) None None). reflexivity.
Defined.

Lemma fold_nonzero floatUnit iz : truthy iz = false -> forall units remaining result,
  Forall (fun e => (snd e !== num 0)%js = true) result ->
  Forall (fun e => (snd e !== num 0)%js = true)
         (snd (fold_left (breakdown_step floatUnit iz) units (remaining, result))).
Proof.
  intros Z. induction units as [|u units IH]; intros remaining result F; simpl; [exact F|].
  rewrite Z. cbn [orb].
  destruct (is_floatUnit floatUnit u);
    match goal with
    | |- context [if ?c then obj_set result u ?v else result] =>
        destruct c eqn:E; apply IH;
        [now apply (Forall_obj_set (fun w => (w !== num 0)%js = true)) | exact F]
    end.
Qed.

(** X10.  When [includeZero] is false (as it is when no unit list is given)
    the result of [breakdown] holds no amount equal to zero. *)
Theorem breakdown_omits_zero (d : TimePeriod) (units : option UnitsArg)
    (options : option PartialOptions) :
  truthy (includeZero (snd (breakdown_args units options))) = false ->
  Forall (fun e => (snd e !== num 0)%js = true) (breakdown d units options).
Proof.
  intros Z. unfold breakdown. destruct (breakdown_args units options) as [l full].
  cbn [snd] in Z. unfold breakdown_with. now apply fold_nonzero.
Qed.

Lemma breakdown_omits_zero_witness :
  Forall (fun e => (snd e !== num 0)%js = true) (breakdown period_1h30m15s None None).
Proof. apply breakdown_omits_zero. reflexivity. Defined.

(** ** Carrying between the units *)

Lemma digits_carried : forall (sorted : list TimeUnit) (r bound : Z),
  ~ In microfortnights sorted -> (0 <= r < bound)%Z -> carried bound (digits r sorted).
Proof.
  induction sorted as [|u sorted IH]; intros r bound M B; simpl; [exact I|].
  destruct (@whole_ms_divisor u) as [Hc _].
  { intros ->. apply M. now left. }
  split.
  - pose proof (Z.mul_div_le r (whole_ms u) Hc).
    pose proof (Z.div_pos r (whole_ms u) (proj1 B) Hc). nia.
  - apply IH; [intros H; apply M; now right|]. now apply Z.mod_pos_bound.
Qed.

(** X11.  For a whole number of milliseconds within the safe integers, and
    a list of distinct units other than the microfortnight, [breakdown]
    computes integer quotients and remainders from the largest unit down;
    hence every amount after the first is at least 0 and, in milliseconds,
    below the divisor of the unit before it, also when the period is
    negative: only the first amount carries the sign. *)
Theorem breakdown_carries (d : TimePeriod) (units : list TimeUnit) (z : Z) :
  asMilliseconds d = num z ->
  (Z.abs z <= 9007199254740991)%Z ->
  NoDup units -> ~ In microfortnights units ->
  let ds := digits z (Array_sort by_divisor units) in
  breakdown d (Some (Units units)) None = whole_amounts ds
  /\ (forall u a rest, ds = (u, a) :: rest ->
        a = (z / whole_ms u)%Z /\ carried (whole_ms u) rest).
Proof.
  intros E _ N M. cbv zeta.
  assert (M' : ~ In microfortnights (Array_sort by_divisor units)).
  { intros H. apply M. eapply Permutation_in; [apply Array_sort_perm | exact H]. }
  split.
  - unfold breakdown. cbn [breakdown_args no_options opt_floatLast opt_includeZero spread].
    unfold breakdown_with. cbn [floatLast includeZero truthy]. rewrite E. unfold num.
    rewrite (@fold_digits (Array_sort by_divisor units) (inject_Z z) z []).
    + reflexivity.
    + now apply Array_sort_NoDup.
    + exact M'.
    + intros k [].
    + reflexivity.
  - destruct (Array_sort by_divisor units) as [|u sorted]; [discriminate|].
    cbn [digits]. intros u' a rest [= <- <- <-]. split; [reflexivity|].
    destruct (@whole_ms_divisor u) as [Hc _].
    { intros ->. apply M'. now left. }
    apply digits_carried; [intros H; apply M'; now right|].
    now apply Z.mod_pos_bound.
Qed.

Lemma breakdown_carries_witness :
  let ds := digits (-5415000) (Array_sort by_divisor [minutes; hours; seconds]) in
  breakdown (new_TimePeriod (InMs (num (-5415000)))) (Some (Units [minutes; hours; seconds]))
            None = whole_amounts ds
  /\ (forall u a rest, ds = (u, a) :: rest ->
        a = (-5415000 / whole_ms u)%Z /\ carried (whole_ms u) rest).
Proof.
  apply (@breakdown_carries (new_TimePeriod (InMs (num (-5415000))))
                            [minutes; hours; seconds] (-5415000)%Z).
  - reflexivity.
  - vm_compute. discriminate.
  - repeat constructor; simpl; intuition discriminate.
  - simpl. intuition discriminate.
Defined.

(** ** Serialisation of a point *)

Lemma divisor_positive u : exists c, divisors u = Fin c /\ Qsign c = Gt.
Proof. destruct u; eexists; (split; [vm_compute; reflexivity | reflexivity]). Qed.

Lemma kept_zero u a : kept false (u, Fin a) = false -> a == 0.
Proof.
  unfold kept, num_neq, num_eq, num. cbn [orb snd]. intros H.
  apply negb_false_iff in H. now apply Qeq_bool_iff in H.
Qed.

(** With [floatLast] the amounts of a finite period, zero amounts left
    out, add up to the period. *)
Lemma total_amounts : forall (sorted : list TimeUnit) (q s : Q),
  sorted <> [] ->
  exists s', total (filter (kept false) (amounts_spec true (Fin q) sorted)) (Fin s) = Fin s'
             /\ s' == s + q.
Proof.
  induction sorted as [|u sorted IH]; intros q s NE; [congruence|].
  destruct (divisor_positive u) as (c & Hu & Hc).
  assert (C0 : ~ c == 0).
  { intros H. unfold Qsign in Hc. apply (proj1 (Qeq_alt _ _)) in H. congruence. }
  destruct sorted as [|v rest].
  - cbn [amounts_spec]. rewrite Hu. unfold num_div at 1. rewrite Hc.
    cbn [filter]. destruct (kept false (u, Fin (q / c))) eqn:K.
    + unfold total. cbn [fold_left fst snd]. rewrite Hu. eexists. split; [reflexivity|].
      field. exact C0.
    + apply kept_zero in K. exists s. split; [reflexivity|].
      assert (Q0 : q == (q / c) * c) by (field; exact C0).
      rewrite Q0, K. ring.
  - change (amounts_spec true (Fin q) (u :: v :: rest))
      with ((u, Math_floor (Fin q / divisors u)%js)
              :: amounts_spec true
                   (Fin q - Math_floor (Fin q / divisors u) * divisors u)%js (v :: rest)).
    rewrite Hu. unfold num_div at 1 2. rewrite Hc. unfold Math_floor.
    unfold num_mul, num_sub.
    set (a := inject_Z (Qfloor (q / c))).
    destruct (IH (q - a * c) s) as (s1 & T1 & E1); [discriminate|].
    destruct (IH (q - a * c) (s + c * a)) as (s2 & T2 & E2); [discriminate|].
    cbn [filter]. destruct (kept false (u, Fin a)) eqn:K.
    + unfold total. cbn [fold_left fst snd]. rewrite Hu. unfold num_mul, num_add.
      exists s2. split; [exact T2|]. rewrite E2. ring.
    + apply kept_zero in K. exists s1. split; [exact T1|]. rewrite E1. rewrite K. ring.
Qed.

(** X12.  What [toJSON] returns is accepted by the constructor.  For a
    point at a whole number of milliseconds within the range of dates the
    rebuilt point equals the original; for a point that is not finite it is
    the [NaN] point. *)
Theorem point_json_round_trip (host : Platform) (p : TimePoint) :
  exists p' : TimePoint,
    new_TimePoint host (TimePoint_toJSON p) = Ok p'
    /\ (forall z : Z, asMilliseconds (unixEpoch p) = num z ->
          (Z.abs z <= 8640000000000000)%Z ->
          TimePoint_equals p (APoint p') = true)
    /\ ((forall q, asMilliseconds (unixEpoch p) <> Fin q) ->
          asMilliseconds (unixEpoch p') = NaN).
Proof.
  unfold TimePoint_toJSON. cbn [new_TimePoint]. eexists. split; [reflexivity|].
  unfold from_period. cbn [unixEpoch]. split.
  - intros z E _. unfold TimePoint_equals, ms_of. cbn [unixEpoch].
    rewrite new_TimePeriod_total. unfold breakdown.
    cbn [breakdown_args no_options opt_floatLast opt_includeZero spread].
    rewrite breakdown_with_spec by (intros _; repeat constructor; simpl; intuition discriminate).
    cbn [floatLast includeZero truthy]. unfold breakdown_spec.
    rewrite decompose_spec_filter;
      [| apply Array_sort_NoDup; repeat constructor; simpl; intuition discriminate
       | intros k []].
    cbn [app]. rewrite E. unfold num at 1 3.
    destruct (@total_amounts
                (Array_sort by_divisor [days; hours; minutes; seconds; milliseconds])
                (inject_Z z) (inject_Z 0)) as (s' & T & E').
    { vm_compute. discriminate. }
    unfold num. rewrite T. unfold num_eq. apply Qeq_bool_iff. rewrite E'.
    change (inject_Z 0) with 0%Q. ring.
  - intros H. destruct p as [[ms]]. cbn [unixEpoch asMilliseconds] in *.
    destruct ms as [| | |q]; [reflexivity | reflexivity | reflexivity |].
    exfalso. now apply (H q).
Qed.

(** ** The chain of timers of [atTime] *)

Lemma reanchors_setTimeout h ms el :
  reanchors (setTimeout h ms el)
  = (reanchors el + match h with CallAtTime _ => 1 | CallFunc => 0 end)%nat.
Proof.
  unfold reanchors. rewrite armed_setTimeout, filter_app, List.length_app.
  cbn [filter handler]. now destruct h.
Qed.

Lemma reanchors_ran clock pending el x :
  reanchors (mkEventLoop clock pending (trace el ++ [Ran x])) = reanchors el.
Proof.
  unfold reanchors, armed. cbn [trace]. rewrite flat_map_app. simpl.
  now rewrite app_nil_r.
Qed.

(** With nothing pending the host has nothing to fire. *)
Lemma run_idle host : forall lateness el, timers el = [] -> run host lateness el = Ok el.
Proof.
  induction lateness as [|l lateness IH]; intros el H; [reflexivity|].
  simpl. unfold fire. rewrite H. cbn [bind]. now apply IH.
Qed.

(** A callback timer is due after its delay, at once when the delay is
    not positive. *)
Lemma due_callback_max (c d : Q) :
  exists f, due (mkTimer CallFunc (Fin d) (Fin c)) = Fin f
            /\ (0 <= d -> f == c + d) /\ (d <= 0 -> f == c).
Proof.
  unfold due. cbn [armedAt delay]. unfold num_gt, num_lt, num.
  change (inject_Z 0) with 0%Q.
  destruct (Qcompare_spec 0 d) as [E|L|G].
  - exists (c + 0)%Q. split; [reflexivity|]. split; intros; lra.
  - exists (c + d)%Q. split; [reflexivity|]. split; intros; lra.
  - exists (c + 0)%Q. split; [reflexivity|]. split; intros; lra.
Qed.

Lemma inject_succ (k : nat) : inject_Z (Z.of_nat (S k)) == inject_Z (Z.of_nat k) + 1.
Proof. rewrite Nat2Z.inj_succ. unfold Z.succ. now rewrite inject_Z_plus. Qed.

(** [atTime] at clock [a] of the chain, with nothing pending, arms the
    pending timer of the chain. *)
Lemma atTime_waiting host time (c t L a : Q) el0 :
  ms_of time = Fin t -> Date_now el0 = Fin a -> timers el0 = [] -> ran el0 = [] ->
  c <= a -> (a == c \/ (a <= t + L /\ c + 30000 <= t)) ->
  reanchors_fit c t el0 ->
  c + 30000 * inject_Z (Z.of_nat (reanchors el0)) <= a ->
  exists el, atTime host time el0 = Ok el /\ waiting time c t L el a.
Proof.
  intros Ht Ha T R Ca Hc F K. destruct (Qlt_le_dec (t - a) 30000) as [N|N].
  - rewrite (@atTime_near host time el0 a t Ha Ht N). eexists. split; [reflexivity|].
    unfold waiting. rewrite ran_setTimeout. split; [exact R|]. split; [exact Ca|].
    split; [exact Hc|]. left. unfold setTimeout at 1. cbn [timers]. rewrite T, Ha.
    split; [reflexivity|]. split; [exact N|].
    unfold reanchors_fit. rewrite reanchors_setTimeout, Nat.add_0_r. exact F.
  - rewrite (@atTime_far host time el0 a t Ha Ht N). eexists. split; [reflexivity|].
    unfold waiting. rewrite ran_setTimeout. split; [exact R|]. split; [exact Ca|].
    split; [exact Hc|]. right. unfold setTimeout at 1. cbn [timers]. rewrite T, Ha.
    split; [reflexivity|]. split; [exact N|].
    rewrite reanchors_setTimeout, Nat.add_1_r, inject_succ. lra.
Qed.

(** The pending timer fires: the callback runs, or [atTime] is re-invoked
    30000 ms plus the lateness later and arms the next timer. *)
Lemma fire_waiting host time (c t L a l : Q) el :
  ms_of time = Fin t -> 0 <= l -> l <= L -> waiting time c t L el a ->
  exists el', fire host l el = Ok el'
    /\ (finished c t L el'
        \/ (30000 <= t - a /\ waiting time c t L el' (a + 30000 + l))).
Proof.
  intros Ht L0 L1 (R & Ca & Hc & [(T & N & F)|(T & N & K)]); unfold fire; rewrite T;
    cbn [handler].
  - destruct (due_callback_max a (t - a)) as (g & -> & G1 & G2).
    change (Fin g + Fin l)%js with (Fin (g + l)).
    eexists. split; [reflexivity|]. left. unfold finished. cbn [timers].
    split; [reflexivity|]. split.
    { unfold reanchors_fit. rewrite reanchors_ran. exact F. }
    exists (g + l). split.
    { unfold ran. cbn [trace]. rewrite flat_map_app. fold (ran el). rewrite R. reflexivity. }
    destruct (Qlt_le_dec (t - a) 0) as [P|P].
    + assert (E : g == a) by (apply G2; lra).
      destruct Hc as [Hc|[Hc1 Hc2]]; repeat split; intros; lra.
    + assert (E : g == a + (t - a)) by (apply G1; lra).
      repeat split; intros; lra.
  - rewrite due_30000. change (Fin (a + 30000) + Fin l)%js with (Fin (a + 30000 + l)).
    destruct (@atTime_waiting host time c t L (a + 30000 + l)
                (mkEventLoop (Fin (a + 30000 + l)) [] (trace el)) Ht eq_refl eq_refl R)
      as (el' & A & W).
    + lra.
    + right. split; lra.
    + right. change (c + 30000 * inject_Z (Z.of_nat (reanchors el)) <= t). lra.
    + change (c + 30000 * inject_Z (Z.of_nat (reanchors el)) <= a + 30000 + l). lra.
    + exists el'. split; [exact A|]. right. split; [exact N | exact W].
Qed.

(** However many timers the host fires, the chain is waiting or finished;
    it is finished once 30000 ms times the number of firings exceeds the
    distance. *)
Lemma run_waiting host time (c t L : Q) :
  ms_of time = Fin t -> forall lateness el a,
  Forall (fun l => 0 <= l /\ l <= L) lateness -> waiting time c t L el a ->
  exists el', run host lateness el = Ok el'
    /\ (finished c t L el' \/ exists a', waiting time c t L el' a')
    /\ (lateness <> [] ->
        t - a < 30000 * inject_Z (Z.of_nat (List.length lateness)) ->
        finished c t L el').
Proof.
  intros Ht. induction lateness as [|l lateness IH]; intros el a B W.
  - exists el. split; [reflexivity|]. split; [right; now exists a | congruence].
  - inversion B as [|? ? [L0 L1] B']; subst.
    destruct (fire_waiting host Ht L0 L1 W) as (el1 & F1 & [Fi|[Far W1]]).
    + exists el1. split.
      { simpl. rewrite F1. cbn [bind]. apply run_idle. apply Fi. }
      split; [now left | intros _ _; exact Fi].
    + destruct (IH el1 (a + 30000 + l) B' W1) as (el' & Rn & St & Live).
      exists el'. split; [simpl; rewrite F1; exact Rn|]. split; [exact St|].
      intros _ M. cbn [List.length] in M. rewrite inject_succ in M. apply Live.
      * intros ->. simpl in M. change (inject_Z 0) with 0%Q in M. lra.
      * lra.
Qed.

Lemma waiting_fit time c t L el a : waiting time c t L el a -> reanchors_fit c t el.
Proof.
  intros (_ & _ & _ & [(_ & _ & F)|(_ & N & K)]); [exact F|]. right. lra.
Qed.

Lemma schedule_waiting host time (c t L : Q) (lateness : list Q) :
  ms_of time = Fin t -> Forall (fun l => 0 <= l /\ l <= L) lateness ->
  exists el', schedule host time (Fin c) lateness = Ok el'
    /\ (finished c t L el' \/ exists a', waiting time c t L el' a')
    /\ (lateness <> [] ->
        t - c < 30000 * inject_Z (Z.of_nat (List.length lateness)) ->
        finished c t L el').
Proof.
  intros Ht B. unfold schedule.
  destruct (@atTime_waiting host time c t L c (idle (Fin c)) Ht eq_refl eq_refl eq_refl)
    as (el & -> & W).
  - lra.
  - left. reflexivity.
  - now left.
  - change (c + 30000 * 0 <= c). lra.
  - cbn [bind]. now apply (@run_waiting host time c t L Ht lateness el c B W).
Qed.

(** X13.  The chain started by [atTime] for a finite target, on a host that
    fires timers late by any amounts between 0 and [L]: after any number of
    firings either the callback has not run and exactly one timer is
    pending, or it has run exactly once, not before the target, and nothing
    is pending.  [atTime] has been re-invoked at most (distance / 30000)
    times. *)
Theorem atTime_never_early (host : Platform) (time : PointOrDate) (c t L : Q)
    (lateness : list Q) :
  ms_of time = Fin t -> Forall (fun l => 0 <= l /\ l <= L) lateness ->
  exists el', schedule host time (Fin c) lateness = Ok el'
    /\ reanchors_fit c t el'
    /\ ((ran el' = [] /\ List.length (timers el') = 1%nat)
        \/ (timers el' = [] /\ exists f, ran el' = [Fin f] /\ t <= f /\ c <= f)).
Proof.
  intros Ht B.
  destruct (@schedule_waiting host time c t L lateness Ht B) as (el' & S & [Fi|[a W]] & _);
    exists el'; (split; [exact S|]).
  - destruct Fi as (T & F & f & R & H1 & H2 & _). split; [exact F|]. right.
    split; [exact T|]. now exists f.
  - split; [exact (waiting_fit W)|]. left.
    destruct W as (R & _ & _ & [(T & _)|(T & _)]); rewrite T; now split.
Qed.

Lemma atTime_never_early_witness :
  exists el', schedule bare_host (ADate (mkDate (Fin 65000))) (Fin 0) [6000; 250] = Ok el'
    /\ reanchors_fit 0 65000 el'
    /\ ((ran el' = [] /\ List.length (timers el') = 1%nat)
        \/ (timers el' = [] /\ exists f, ran el' = [Fin f] /\ 65000 <= f /\ 0 <= f)).
Proof.
  apply (@atTime_never_early bare_host (ADate (mkDate (Fin 65000))) 0 65000 6000
                             [6000; 250]).
  - reflexivity.
  - repeat constructor; unfold Qle; simpl; lia.
Defined.

(** X14.  Once the host has fired more timers than the distance holds
    windows of 30000 ms, the callback has run: exactly once, nothing is left
    pending, and it ran at most [2 L] after the target (at most [L] after
    the start when the target was already past), where [L] bounds the
    lateness of every single timer: lateness does not add up along the
    chain.  On a punctual host ([L = 0]) a target ahead is met exactly. *)
Theorem atTime_runs_once (host : Platform) (time : PointOrDate) (c t L : Q)
    (lateness : list Q) :
  ms_of time = Fin t -> Forall (fun l => 0 <= l /\ l <= L) lateness ->
  lateness <> [] ->
  t - c < 30000 * inject_Z (Z.of_nat (List.length lateness)) ->
  exists el' f, schedule host time (Fin c) lateness = Ok el'
    /\ timers el' = [] /\ ran el' = [Fin f]
    /\ t <= f /\ c <= f
    /\ (c <= t -> f <= t + 2 * L) /\ (t <= c -> f <= c + L).
Proof.
  intros Ht B NE M.
  destruct (@schedule_waiting host time c t L lateness Ht B) as (el' & S & _ & Live).
  destruct (Live NE M) as (T & _ & f & R & H).
  exists el', f. split; [exact S|]. split; [exact T|]. split; [exact R | exact H].
Qed.

Lemma atTime_runs_once_witness :
  exists el' f, schedule bare_host (ADate (mkDate (Fin 65000))) (Fin 0) [0; 0; 0] = Ok el'
    /\ timers el' = [] /\ ran el' = [Fin f]
    /\ 65000 <= f /\ 0 <= f
    /\ (0 <= 65000 -> f <= 65000 + 2 * 0) /\ (65000 <= 0 -> f <= 0 + 0).
Proof.
  apply (@atTime_runs_once bare_host (ADate (mkDate (Fin 65000))) 0 65000 0 [0; 0; 0]).
  - reflexivity.
  - repeat constructor; unfold Qle; simpl; lia.
  - discriminate.
  - reflexivity.
Defined.

(** A target that is [NaN] (an invalid date) or [+Infinity] is never
    within thirty seconds. *)
Lemma atTime_unreachable host time el (c : Q) :
  Date_now el = Fin c -> ms_of time = NaN \/ ms_of time = PosInf ->
  atTime host time el = Ok (setTimeout (CallAtTime time) (num 30000) el).
Proof.
  intros Hc H. rewrite atTime_unfold. unfold distance, difference. rewrite Hc.
  destruct H as [-> | ->]; reflexivity.
Qed.

Lemma run_unreachable host time :
  ms_of time = NaN \/ ms_of time = PosInf ->
  forall lateness el (a : Q),
  ran el = [] -> timers el = [mkTimer (CallAtTime time) (num 30000) (Fin a)] ->
  exists el' a', run host lateness el = Ok el'
    /\ ran el' = []
    /\ timers el' = [mkTimer (CallAtTime time) (num 30000) (Fin a')]
    /\ reanchors el' = (reanchors el + List.length lateness)%nat.
Proof.
  intros H. induction lateness as [|l lateness IH]; intros el a R T.
  - exists el, a. split; [reflexivity|]. split; [exact R|]. split; [exact T|].
    cbn [List.length]. now rewrite Nat.add_0_r.
  - cbn [run]. unfold fire. rewrite T. cbn [handler]. rewrite due_30000.
    change (Fin (a + 30000) + Fin l)%js with (Fin (a + 30000 + l)).
    rewrite (@atTime_unreachable host time
               (mkEventLoop (Fin (a + 30000 + l)) [] (trace el)) (a + 30000 + l)
               eq_refl H).
    cbn [bind].
    destruct (IH (setTimeout (CallAtTime time) (num 30000)
                    (mkEventLoop (Fin (a + 30000 + l)) [] (trace el)))
                 (a + 30000 + l)) as (el' & a' & Rn & R' & T' & K).
    + rewrite ran_setTimeout. exact R.
    + reflexivity.
    + exists el', a'. split; [exact Rn|]. split; [exact R'|]. split; [exact T'|].
      rewrite K, reanchors_setTimeout. cbn [List.length].
      change (reanchors (mkEventLoop (Fin (a + 30000 + l)) [] (trace el)))
        with (reanchors el). lia.
Qed.

(** X15.  When the target is [NaN] (a point built from an invalid date) or
    [+Infinity], the callback never runs: every firing re-invokes [atTime],
    which arms another timer of 30000 ms, without end. *)
Theorem unreachable_target_never_runs (host : Platform) (time : PointOrDate) (c : Q)
    (lateness : list Q) :
  ms_of time = NaN \/ ms_of time = PosInf ->
  exists el' a, schedule host time (Fin c) lateness = Ok el'
    /\ ran el' = []
    /\ timers el' = [mkTimer (CallAtTime time) (num 30000) (Fin a)]
    /\ reanchors el' = S (List.length lateness).
Proof.
  intros H. unfold schedule.
  rewrite (@atTime_unreachable host time (idle (Fin c)) c eq_refl H). cbn [bind].
  destruct (@run_unreachable host time H lateness
              (setTimeout (CallAtTime time) (num 30000) (idle (Fin c))) c
              eq_refl eq_refl) as (el' & a & Rn & R & T & K).
  exists el', a. split; [exact Rn|]. split; [exact R|]. split; [exact T|].
  rewrite K. reflexivity.
Qed.

Lemma unreachable_target_never_runs_witness :
  exists el' a, schedule bare_host (ADate (mkDate NaN)) (Fin 0) [0; 0; 0] = Ok el'
    /\ ran el' = []
    /\ timers el' = [mkTimer (CallAtTime (ADate (mkDate NaN))) (num 30000) (Fin a)]
    /\ reanchors el' = 4%nat.
Proof.
  apply (@unreachable_target_never_runs bare_host (ADate (mkDate NaN)) 0 [0; 0; 0]).
  left. reflexivity.
Defined.

(** ** [wait] *)

(** The point that [wait] computes for a number of milliseconds, and the
    clock that [atTime] reads. *)
Lemma wait_unfold host (n elapsed : number) el :
  wait host (WaitMs n) elapsed el
  = atTime host
      (APoint (from_period
                 (TimePeriod_add (unixEpoch (from_number (Date_now el)))
                                 [ABreakdown [(milliseconds, n)]])))
      (tick elapsed el).
Proof. reflexivity. Qed.

Lemma wait_target (c n : Q) :
  exists t, asMilliseconds
              (TimePeriod_add (unixEpoch (from_number (Fin c)))
                              [ABreakdown [(milliseconds, Fin n)]]) = Fin t
            /\ t == c + n.
Proof. eexists. split; [reflexivity|]. ring. Qed.

Lemma atTime_one_timer host time el :
  exists tm : Timer,
    atTime host time el
    = Ok (mkEventLoop (Date_now el) (timers el ++ [tm]) (trace el ++ [Armed tm]))
    /\ armedAt tm = Date_now el
    /\ tm = if (asSeconds (distance time (Date_now el)) <? num 30)%js
            then mkTimer CallFunc (asMilliseconds (distance time (Date_now el)))
                         (Date_now el)
            else mkTimer (CallAtTime time) (num 30000) (Date_now el).
Proof.
  rewrite atTime_unfold.
  destruct (asSeconds (distance time (Date_now el)) <? num 30)%js;
    eexists; (split; [reflexivity|]); split; reflexivity.
Qed.

(** X16.  [wait] never throws and arms exactly one timer, whatever its
    argument; the timer is armed at the clock that [atTime] reads.  For
    [wait(n)] with a whole number [n] of milliseconds, called at the whole
    clock [c], the clock read [e] ms later by [atTime], all within the safe
    integers: when [n - e] is under 30000 the timer resolves the promise
    after [n - e] ms; otherwise it is a 30000 ms timer that re-invokes
    [atTime] for the point [c + n]. *)
Theorem wait_arms_one_timer (host : Platform) (input : WaitInput) (elapsed : number)
    (el : EventLoop) :
  let clock := match input with
               | WaitUntil _ => Date_now el
               | _ => (Date_now el + elapsed)%js
               end in
  exists tm : Timer,
    wait host input elapsed el
    = Ok (mkEventLoop clock (timers el ++ [tm]) (trace el ++ [Armed tm]))
    /\ armedAt tm = clock
    /\ (forall c n e : Z,
          Date_now el = num c -> input = WaitMs (num n) -> elapsed = num e ->
          (0 <= c)%Z -> (0 <= e)%Z -> (c + e + Z.abs n <= 9007199254740991)%Z ->
          if (n - e <? 30000)%Z
          then handler tm = CallFunc /\ same_number (delay tm) (num (n - e))
          else delay tm = num 30000
               /\ exists target, handler tm = CallAtTime (APoint target)
                    /\ same_number (asMilliseconds (unixEpoch target)) (num (c + n))).
Proof.
  cbv zeta. destruct input as [p|n|b|t].
  - destruct (atTime_one_timer host
                (APoint (from_period
                   (TimePeriod_add (unixEpoch (from_number (Date_now el))) [APeriod p])))
                (tick elapsed el)) as (tm & E & A & _).
    exists tm. split; [exact E|]. split; [exact A|]. intros c n e _ [=].
  - rewrite wait_unfold.
    destruct (atTime_one_timer host
                (APoint (from_period
                   (TimePeriod_add (unixEpoch (from_number (Date_now el)))
                                   [ABreakdown [(milliseconds, n)]])))
                (tick elapsed el)) as (tm & E & A & D).
    exists tm. split; [exact E|]. split; [exact A|].
    intros c m e Hc [= ->] -> _ _ _. cbn [tick Date_now] in D. rewrite Hc in D.
    change (num c + num e)%js with (Fin (inject_Z c + inject_Z e)) in D.
    change (num c) with (Fin (inject_Z c)) in D.
    change (num m) with (Fin (inject_Z m)) in D.
    destruct (wait_target (inject_Z c) (inject_Z m)) as (t & Ht & Et).
    set (target := from_period
                     (TimePeriod_add (unixEpoch (from_number (Fin (inject_Z c))))
                                     [ABreakdown [(milliseconds, Fin (inject_Z m))]])) in *.
    assert (Hm : ms_of (APoint target) = Fin t) by exact Ht.
    rewrite (@distance_finite (APoint target) (inject_Z c + inject_Z e) t Hm) in D.
    rewrite seconds_of_finite in D. cbn [asMilliseconds new_TimePeriod] in D.
    assert (Ed : t - (inject_Z c + inject_Z e) == inject_Z (m - e)).
    { unfold Z.sub. rewrite inject_Z_plus, inject_Z_opp. lra. }
    destruct (Z.ltb_spec (m - e) 30000) as [B|B].
    + rewrite Zlt_Qlt in B. change (inject_Z 30000) with 30000%Q in B.
      rewrite under_30_seconds in D by lra. subst tm. cbn [handler delay].
      split; [reflexivity|]. unfold num. cbn [same_number]. exact Ed.
    + rewrite Zle_Qle in B. change (inject_Z 30000) with 30000%Q in B.
      rewrite over_30_seconds in D by lra. subst tm. cbn [handler delay].
      split; [reflexivity|]. exists target. split; [reflexivity|].
      change (asMilliseconds (unixEpoch target)) with (ms_of (APoint target)).
      rewrite Hm. unfold num. cbn [same_number]. rewrite inject_Z_plus. exact Et.
  - destruct (atTime_one_timer host
                (APoint (from_period
                   (TimePeriod_add (unixEpoch (from_number (Date_now el)))
                                   [ABreakdown b])))
                (tick elapsed el)) as (tm & E & A & _).
    exists tm. split; [exact E|]. split; [exact A|]. intros c n e _ [=].
  - destruct (atTime_one_timer host t el) as (tm & E & A & _).
    exists tm. split; [exact E|]. split; [exact A|]. intros c n e _ [=].
Qed.

(** X17.  [wait(n)] for a whole number [n] of milliseconds, called at the
    whole clock [c], the clock read [e] ms later by [atTime] (all within
    the safe integers), on a host that fires every timer between 0 and [L]
    late: once the host has fired more timers than [n - e] holds windows of
    30000 ms, the promise has been resolved exactly once and nothing is
    pending.  It was resolved not before [c + n]; at most [2 L] after
    [c + n] when [e <= n], and at most [L] after the second reading of the
    clock otherwise. *)
Theorem wait_resolves (host : Platform) (c n e : Z) (L : Q) (lateness : list Q) :
  (0 <= c)%Z -> (0 <= e)%Z -> (c + e + Z.abs n <= 9007199254740991)%Z ->
  Forall (fun l => 0 <= l /\ l <= L) lateness ->
  lateness <> [] ->
  (n - e < 30000 * Z.of_nat (List.length lateness))%Z ->
  exists el' f,
    (el <- wait host (WaitMs (num n)) (num e) (idle (num c)) ;; run host lateness el)
    = Ok el'
    /\ timers el' = [] /\ ran el' = [Fin f]
    /\ inject_Z (c + n) <= f /\ inject_Z (c + e) <= f
    /\ ((e <= n)%Z -> f <= inject_Z (c + n) + 2 * L)
    /\ ((n <= e)%Z -> f <= inject_Z (c + e) + L).
Proof.
  intros _ _ _ B NE M. rewrite wait_unfold. cbn [idle Date_now].
  destruct (wait_target (inject_Z c) (inject_Z n)) as (t & Ht & Et).
  set (target := from_period
                   (TimePeriod_add (unixEpoch (from_number (num c)))
                                   [ABreakdown [(milliseconds, num n)]])).
  assert (Hm : ms_of (APoint target) = Fin t) by exact Ht.
  change (el <- atTime host (APoint target) (tick (num e) (idle (num c))) ;;
          run host lateness el)
    with (schedule host (APoint target) (Fin (inject_Z c + inject_Z e)) lateness).
  destruct (@schedule_waiting host (APoint target) (inject_Z c + inject_Z e) t L
              lateness Hm B) as (el' & S & _ & Live).
  destruct Live as (T & _ & f & R & H1 & H2 & H3 & H4).
  - exact NE.
  - rewrite Zlt_Qlt in M. unfold Z.sub in M.
    rewrite inject_Z_mult, inject_Z_plus, inject_Z_opp in M.
    change (inject_Z 30000) with 30000%Q in M. lra.
  - exists el', f. split; [exact S|]. split; [exact T|]. split; [exact R|].
    rewrite !inject_Z_plus. split; [lra|]. split; [lra|]. split.
    + intros P. rewrite Zle_Qle in P.
      assert (f <= t + 2 * L) by (apply H3; lra). lra.
    + intros P. rewrite Zle_Qle in P.
      assert (f <= inject_Z c + inject_Z e + L) by (apply H4; lra). lra.
Qed.

Lemma wait_resolves_witness :
  exists el' f,
    (el <- wait bare_host (WaitMs (num 45000)) (num 3) (idle (num 1000)) ;;
     run bare_host [100; 200] el) = Ok el'
    /\ timers el' = [] /\ ran el' = [Fin f]
    /\ inject_Z (1000 + 45000) <= f /\ inject_Z (1000 + 3) <= f
    /\ ((3 <= 45000)%Z -> f <= inject_Z (1000 + 45000) + 2 * 200)
    /\ ((45000 <= 3)%Z -> f <= inject_Z (1000 + 3) + 200).
Proof.
  apply (@wait_resolves bare_host 1000 45000 3 200 [100; 200]).
  - lia.
  - lia.
  - vm_compute. discriminate.
  - repeat constructor; unfold Qle; simpl; lia.
  - discriminate.
  - reflexivity.
Defined.

(** ** The checks of a calendar descriptor, in the zone of the host *)

Lemma second_check (s : Q) :
  ((Fin s <? num 0) || (Fin s >=? num 60))%js = true <-> ~ (0 <= s /\ s < 60).
Proof.
  unfold num_ge, num_le, num_lt, num.
  change (inject_Z 0) with 0%Q. change (inject_Z 60) with 60%Q.
  destruct (Qcompare_spec s 0) as [E|L|G], (Qcompare_spec 60 s) as [E'|L'|G'];
    cbn [orb]; split; intros H; try reflexivity; try discriminate H;
    try (intros [H1 H2]; lra); exfalso; apply H; split; lra.
Qed.

Local Open Scope Z_scope.

(** The year of a time value depends on its day only, and so does its
    date. *)
Lemma before_year t y : (t <? TimeFromYear y) = (Day t <? DayFromYear y).
Proof.
  unfold TimeFromYear, Day, msPerDay. set (D := DayFromYear y).
  destruct (Z.ltb_spec t (86400000 * D)), (Z.ltb_spec (t / 86400000) D);
    try reflexivity; exfalso; Z.div_mod_to_equations; lia.
Qed.

Lemma from_year t y : (TimeFromYear y <=? t) = (DayFromYear y <=? Day t).
Proof.
  unfold TimeFromYear, Day, msPerDay. set (D := DayFromYear y).
  destruct (Z.leb_spec (86400000 * D) t), (Z.leb_spec D (t / 86400000));
    try reflexivity; exfalso; Z.div_mod_to_equations; lia.
Qed.

Lemma YearFromTime_of_day x t : Day x = Day t -> YearFromTime x = YearFromTime t.
Proof.
  intros E. unfold YearFromTime. cbv zeta.
  rewrite !before_year, !from_year, E. reflexivity.
Qed.

Lemma DateFromTime_of_day x t : Day x = Day t -> DateFromTime x = DateFromTime t.
Proof.
  intros E. unfold DateFromTime, MonthFromTime, DayWithinYear, InLeapYear.
  rewrite (@YearFromTime_of_day x t E), E. reflexivity.
Qed.

(** The years of the statement leave a day of margin at both ends of the
    range of time values. *)
Lemma DayFromYear_margin (y : Z) :
  -271820 <= y <= 275759 ->
  - 100000000 + 1 <= DayFromYear y /\ DayFromYear y + 366 <= 100000000.
Proof.
  intros H. pose proof (DayFromYear_estimate y). lia.
Qed.

Local Close Scope Z_scope.

(** A whole time value, moved by an offset, within the range of time
    values: [TimeClip] keeps it. *)
Lemma TimeClip_offset (q : Q) (t off : Z) :
  q == inject_Z t -> (Z.abs (t - off) <= 8640000000000000)%Z ->
  TimeClip (Fin q - num off)%js = num (t - off).
Proof.
  intros E B. unfold num_sub, num.
  assert (E' : q - inject_Z off == inject_Z (t - off)).
  { rewrite E. unfold Z.sub. rewrite inject_Z_plus, inject_Z_opp. reflexivity. }
  assert (T : Qtrunc (q - inject_Z off) = (t - off)%Z).
  { unfold Qtrunc. unfold Qeq in E'. cbn [Qnum Qden inject_Z] in E'.
    rewrite Z.mul_1_r in E'. rewrite E'. apply Z.quot_mul. discriminate. }
  unfold TimeClip, Math_abs, num_gt, num_lt, num.
  destruct (Qcompare_spec (inject_Z 8640000000000000) (Qabs (q - inject_Z off)))
    as [_|L|_].
  - unfold ToIntegerOrInfinity, num. now rewrite T.
  - exfalso. rewrite E' in L.
    assert (Qabs (inject_Z (t - off)) <= inject_Z 8640000000000000).
    { apply Qabs_Qle_condition. rewrite <- inject_Z_opp, <- !Zle_Qle. lia. }
    lra.
  - unfold ToIntegerOrInfinity, num. now rewrite T.
Qed.

Lemma Qtrunc_whole (q : Q) (t : Z) : q == inject_Z t -> Qtrunc q = t.
Proof.
  intros E. unfold Qtrunc. unfold Qeq in E. cbn [Qnum Qden inject_Z] in E.
  rewrite Z.mul_1_r in E. rewrite E. apply Z.quot_mul. discriminate.
Qed.

(** In a zone that keeps its days, for a year the host can hold,
    [getDate] of day 0 of the next month is the length of the month. *)
Lemma month_length_of_year_in (zone : TimeZone) (y m : Z) :
  keeps_days zone -> (-271820 <= y <= 275759)%Z -> (1 <= m <= 12)%Z ->
  getDate_in zone
    (mkDate (TimeClip (UTC_in zone (MakeDate (MakeDay (num y) (num m) (num 0)) (num 0)))))
  = num (days_in_month y m).
Proof.
  intros K Hy Hm. rewrite MakeDay_day_zero, (day_zero_of_next_month y Hm).
  pose proof (@DayFromYear_margin y Hy) as R.
  pose proof (last_day_of_month_bounds (is_leap y) Hm) as B.
  set (D := (DayFromYear y + last_day_of_month (is_leap y) m)%Z).
  assert (HD : (- 100000000 + 1 <= D <= 100000000 - 1)%Z)
    by (subst D; destruct (is_leap y); lia).
  set (t := (msPerDay * D)%Z).
  assert (Eq : (inject_Z D * inject_Z msPerDay + inject_Z 0 == inject_Z t)%Q).
  { subst t. rewrite inject_Z_mult. change (inject_Z 0) with 0%Q. ring. }
  change (MakeDate (num D) (num 0))
    with (Fin (inject_Z D * inject_Z msPerDay + inject_Z 0)).
  unfold UTC_in. rewrite (@Qtrunc_whole _ t Eq).
  destruct (K t) as [Koff Kday].
  { subst t. rewrite Z.mul_comm. apply Z.mod_mul. discriminate. }
  rewrite (@TimeClip_offset _ t (LocalTZA zone t false) Eq)
    by (subst t; unfold msPerDay in *; lia).
  unfold getDate_in. cbn [getTime]. unfold num at 1. rewrite Qtrunc_inject.
  rewrite (@DateFromTime_of_day _ _ Kday). subst t D.
  now rewrite DateFromTime_last_day.
Qed.

Lemma month_length_in (zone : TimeZone) (y m : Z) :
  keeps_days zone -> (-271820 <= y <= 275759)%Z -> y <> 0%Z -> (1 <= m <= 12)%Z ->
  getDate_in zone (new_Date_ymd_in zone (num y) (num m) (num 0))
  = num (days_in_month y m).
Proof.
  intros K Hy H0 Hm. unfold new_Date_ymd_in.
  destruct (Z_lt_le_dec y 0) as [N|P];
    [rewrite MakeFullYear_far by lia; now apply month_length_of_year_in|].
  destruct (Z_le_gt_dec y 99) as [S|F].
  - rewrite MakeFullYear_two_digits by lia.
    rewrite month_length_of_year_in by (trivial; lia).
    unfold days_in_month. rewrite is_leap_two_digits by lia. reflexivity.
  - rewrite MakeFullYear_far by lia. now apply month_length_of_year_in.
Qed.

(** UTC and every zone at a constant offset of at most a day keep their
    days. *)
Lemma constant_zone_keeps_days (offset : Z) :
  (Z.abs offset <= msPerDay)%Z -> keeps_days (constant_zone offset).
Proof.
  intros H t _. unfold LocalTime_in, constant_zone. cbn [LocalTZA].
  split; [exact H|]. f_equal. lia.
Qed.

(** In UTC the constructor is the one above. *)
Lemma getDate_in_utc (x : number) :
  getDate_in utc_zone (mkDate (TimeClip (UTC_in utc_zone x)))
  = getDate (mkDate (TimeClip (UTC x))).
Proof.
  unfold UTC. destruct x as [| | |a]; try reflexivity.
  assert (E : TimeClip (UTC_in utc_zone (Fin a)) = TimeClip (Fin a)).
  { unfold UTC_in, utc_zone. cbn [LocalTZA]. unfold num_sub, num.
    assert (Ea : a - inject_Z 0 == a) by (change (inject_Z 0) with 0%Q; ring).
    assert (Et : Qtrunc (a - inject_Z 0) = Qtrunc a).
    { unfold Qtrunc, Qminus, Qplus, Qopp, inject_Z. cbn [Qnum Qden].
      rewrite Pos.mul_1_r. f_equal. lia. }
    assert (Ec : forall c, (c ?= Qabs (a - inject_Z 0))%Q = (c ?= Qabs a)%Q)
      by (intros c; now rewrite Ea).
    unfold TimeClip, Math_abs, num_gt, num_lt, ToIntegerOrInfinity, num.
    rewrite Ec, Et. reflexivity. }
  rewrite E. unfold getDate_in, getDate, LocalTime_in, LocalTime, utc_zone.
  cbn [getTime LocalTZA]. destruct (TimeClip (Fin a)); try reflexivity.
  now rewrite Z.add_0_r.
Qed.

Lemma new_TimePoint_in_utc (host : Platform) (input : TimePointInput) :
  new_TimePoint_in utc_zone host input = new_TimePoint host input.
Proof.
  destruct input as [s|d|n|p|[y m d h mi sec tz]|b]; try reflexivity.
  unfold new_TimePoint_in, new_TimePoint, new_Date_ymd_in, new_Date_ymd.
  cbv zeta. now rewrite getDate_in_utc.
Qed.

(** X18.  The host in a zone that keeps every local midnight on its day
    (UTC, a zone at a constant offset; not a zone that skips a whole local
    day).  A descriptor with whole numbers for year, month, day, hour and
    minute, the year one the host can hold and not 0: the constructor
    accepts it exactly when the month is 1 to 12, the day exists in that
    month of that year (leap years by the Gregorian rule), the hour is 0 to
    23, the minute 0 to 59 and the second at least 0 and below 60, fractions
    allowed.  Otherwise it throws the [RangeError] of the first field, in
    the order month, day, hour, minute, second, that is out of range. *)
Theorem descriptor_accepted_iff (zone : TimeZone) (host : Platform)
    (y m d h mi : Z) (s : Q) (tz : string) :
  keeps_days zone ->
  (-271820 <= y <= 275759)%Z -> y <> 0%Z ->
  let input := InDescription
    (mkDescription (num y) (num m) (num d) (num h) (num mi) (Fin s) tz) in
  let month_ok := (1 <= m <= 12)%Z in
  let day_ok := (1 <= d <= days_in_month y m)%Z in
  let hour_ok := (0 <= h < 24)%Z in
  let minute_ok := (0 <= mi < 60)%Z in
  let second_ok := 0 <= s /\ s < 60 in
  ((exists p, new_TimePoint_in zone host input = Ok p)
   <-> month_ok /\ day_ok /\ hour_ok /\ minute_ok /\ second_ok)
  /\ (~ month_ok ->
      new_TimePoint_in zone host input = Throw (RangeError "Invalid month"))
  /\ (month_ok -> ~ day_ok ->
      new_TimePoint_in zone host input = Throw (RangeError "Invalid day"))
  /\ (month_ok -> day_ok -> ~ hour_ok ->
      new_TimePoint_in zone host input = Throw (RangeError "Invalid hour"))
  /\ (month_ok -> day_ok -> hour_ok -> ~ minute_ok ->
      new_TimePoint_in zone host input = Throw (RangeError "Invalid minute"))
  /\ (month_ok -> day_ok -> hour_ok -> minute_ok -> ~ second_ok ->
      new_TimePoint_in zone host input = Throw (RangeError "Invalid second")).
Proof.
  intros K Hy H0. cbv zeta. unfold new_TimePoint_in. cbn [existsb].
  repeat match goal with
         | |- context [(num ?z %% num 1 >? num 0)%js] =>
             change (num z %% num 1 >? num 0)%js with (has_fraction (num z));
             rewrite (has_fraction_num z)
         end.
  cbn [orb throw_if bind].
  rewrite !num_lt_num, !num_gt_num, !num_ge_num.
  destruct (Z.ltb_spec m 1) as [M1|M1]; cbn [orb throw_if bind];
    [split; [split; [intros [p Hp]; discriminate Hp | intros; lia]
            | repeat split; intros; try reflexivity; lia]|].
  destruct (Z.ltb_spec 12 m) as [M2|M2]; cbn [orb throw_if bind];
    [split; [split; [intros [p Hp]; discriminate Hp | intros; lia]
            | repeat split; intros; try reflexivity; lia]|].
  rewrite (@month_length_in zone y m K Hy H0 (conj M1 M2)). rewrite num_gt_num.
  destruct (Z.ltb_spec d 1) as [D1|D1]; cbn [orb throw_if bind];
    [split; [split; [intros [p Hp]; discriminate Hp | intros; lia]
            | repeat split; intros; try reflexivity; lia]|].
  destruct (Z.ltb_spec (days_in_month y m) d) as [D2|D2]; cbn [orb throw_if bind];
    [split; [split; [intros [p Hp]; discriminate Hp | intros; lia]
            | repeat split; intros; try reflexivity; lia]|].
  destruct (Z.ltb_spec h 0) as [H1|H1]; cbn [orb throw_if bind];
    [split; [split; [intros [p Hp]; discriminate Hp | intros; lia]
            | repeat split; intros; try reflexivity; lia]|].
  destruct (Z.leb_spec 24 h) as [H2|H2]; cbn [orb throw_if bind];
    [split; [split; [intros [p Hp]; discriminate Hp | intros; lia]
            | repeat split; intros; try reflexivity; lia]|].
  destruct (Z.ltb_spec mi 0) as [N1|N1]; cbn [orb throw_if bind];
    [split; [split; [intros [p Hp]; discriminate Hp | intros; lia]
            | repeat split; intros; try reflexivity; lia]|].
  destruct (Z.leb_spec 60 mi) as [N2|N2]; cbn [orb throw_if bind];
    [split; [split; [intros [p Hp]; discriminate Hp | intros; lia]
            | repeat split; intros; try reflexivity; lia]|].
  pose proof (second_check s) as S.
  destruct ((Fin s <? num 0) || (Fin s >=? num 60))%js; cbn [throw_if bind].
  - assert (NS : ~ (0 <= s /\ s < 60)) by (now apply S).
    split; [split; [intros [p Hp]; discriminate Hp | intros (_ & _ & _ & _ & K'); tauto]
           | repeat split; intros; try reflexivity; lia].
  - assert (OS : 0 <= s /\ s < 60).
    { destruct (Qlt_le_dec s 0) as [A|A]; [exfalso|].
      - assert (F : false = true) by (apply S; intros [B C]; lra). discriminate F.
      - split; [exact A|]. destruct (Qlt_le_dec s 60) as [B|B]; [exact B|exfalso].
        assert (F : false = true) by (apply S; intros [C D]; lra). discriminate F. }
    split; [split; [intros _; repeat split; try lia; apply OS
                   | intros _; eexists; reflexivity]
           | repeat split; intros; try lia; tauto].
Qed.

Lemma descriptor_accepted_iff_witness :
  (exists p, new_TimePoint_in (constant_zone 32400000) bare_host (InDescription
     (mkDescription (num 2024) (num 2) (num 29) (num 23) (num 59) (Fin (119 # 2)) "GMT"))
   = Ok p)
  /\ new_TimePoint_in (constant_zone 32400000) bare_host (InDescription
       (mkDescription (num 2023) (num 2) (num 29) (num 23) (num 59) (Fin (119 # 2)) "GMT"))
     = Throw (RangeError "Invalid day").
Proof.
  split.
  - apply (proj1 (@descriptor_accepted_iff (constant_zone 32400000) bare_host
                    2024 2 29 23 59 (119 # 2) "GMT"
                    (@constant_zone_keeps_days 32400000 ltac:(vm_compute; discriminate))
                    ltac:(lia) ltac:(lia))).
    vm_compute. repeat split; discriminate.
  - apply (proj1 (proj2 (proj2 (@descriptor_accepted_iff (constant_zone 32400000)
                    bare_host 2023 2 29 23 59 (119 # 2) "GMT"
                    (@constant_zone_keeps_days 32400000 ltac:(vm_compute; discriminate))
                    ltac:(lia) ltac:(lia))))).
    + lia.
    + vm_compute. intros [_ H]. apply H. reflexivity.
Defined.

(** ** Points, differences and the unit constructors *)

(** X19.  [difference] is the inverse of [add] and [subtract]: for points at
    whole milliseconds [a] and [b] within the safe integers, as is their
    distance, [p.add(p.difference(q))] equals [q] and
    [q.subtract(p.difference(q))] equals [p]. *)
Theorem difference_then_add (host : Platform) (p q : TimePoint) (a b : Z) :
  asMilliseconds (unixEpoch p) = num a ->
  asMilliseconds (unixEpoch q) = num b ->
  (Z.abs a <= 9007199254740991)%Z -> (Z.abs b <= 9007199254740991)%Z ->
  (Z.abs (b - a) <= 9007199254740991)%Z ->
  (exists r, TimePoint_add host p [APeriod (difference p (APoint q))] = Ok r
             /\ TimePoint_equals r (APoint q) = true)
  /\ (exists r, TimePoint_subtract host q (APeriod (difference p (APoint q))) = Ok r
                /\ TimePoint_equals r (APoint p) = true).
Proof.
  intros Ha Hb _ _ _. unfold TimePoint_add, TimePoint_subtract. cbn [new_TimePoint].
  split; eexists; (split; [reflexivity|]);
    unfold TimePoint_equals, from_period, difference, TimePeriod_add, TimePeriod_subtract;
    cbn [unixEpoch ms_of toPeriod new_TimePeriod asMilliseconds fold_left fst snd];
    rewrite Ha, Hb; unfold num_eq, num; apply Qeq_bool_iff.
  - change (0 + 1 * (inject_Z a + (inject_Z b - inject_Z a)) == inject_Z b). ring.
  - change (inject_Z b - (inject_Z b - inject_Z a) == inject_Z a). ring.
Qed.

Lemma difference_then_add_witness :
  let p := from_number (num 1000) in
  let q := from_number (num 86401000) in
  (exists r, TimePoint_add bare_host p [APeriod (difference p (APoint q))] = Ok r
             /\ TimePoint_equals r (APoint q) = true)
  /\ (exists r, TimePoint_subtract bare_host q (APeriod (difference p (APoint q))) = Ok r
                /\ TimePoint_equals r (APoint p) = true).
Proof.
  apply (@difference_then_add bare_host (from_number (num 1000))
           (from_number (num 86401000)) 1000 86401000).
  - reflexivity.
  - reflexivity.
  - vm_compute. discriminate.
  - vm_compute. discriminate.
  - vm_compute. discriminate.
Defined.

Lemma accessor_inverts (u : TimeUnit) (n : Q) :
  same_number (asMilliseconds (new_TimePeriod (InBreakdown [(u, Fin n)])) / divisors u)%js
              (Fin n).
Proof.
  destruct (divisor_positive u) as (c & Hu & Hc).
  assert (C0 : ~ c == 0).
  { intros H. unfold Qsign in Hc. apply (proj1 (Qeq_alt _ _)) in H. congruence. }
  cbn [new_TimePeriod asMilliseconds fold_left fst snd]. rewrite Hu.
  change (num 0 + Fin c * Fin n)%js with (Fin (0 + c * n)).
  unfold num_div. rewrite Hc. cbn [same_number]. field. exact C0.
Qed.

(** X20.  Each unit constructor is undone by the accessor of the same
    unit: for a whole number [n] whose milliseconds stay within the safe
    integers, [TimePeriod.weeks(n).asWeeks] is [n], and so for days, hours,
    minutes and seconds. *)
Theorem unit_constructors_inverted (n : Z) :
  (Z.abs n * 604800000 <= 9007199254740991)%Z ->
  same_number (asWeeks (TimePeriod_weeks (num n))) (num n)
  /\ same_number (asDays (TimePeriod_days (num n))) (num n)
  /\ same_number (asHours (TimePeriod_hours (num n))) (num n)
  /\ same_number (asMinutes (TimePeriod_minutes (num n))) (num n)
  /\ same_number (asSeconds (TimePeriod_seconds (num n))) (num n).
Proof.
  intros _. repeat split; apply accessor_inverts.
Qed.

Lemma unit_constructors_inverted_witness :
  same_number (asWeeks (TimePeriod_weeks (num 3))) (num 3)
  /\ same_number (asDays (TimePeriod_days (num 3))) (num 3)
  /\ same_number (asHours (TimePeriod_hours (num 3))) (num 3)
  /\ same_number (asMinutes (TimePeriod_minutes (num 3))) (num 3)
  /\ same_number (asSeconds (TimePeriod_seconds (num 3))) (num 3).
Proof. apply (@unit_constructors_inverted 3). vm_compute. discriminate. Defined.

(** ** Whole amounts *)

(** The amounts of a finite period: every one but the last is a whole
    number, and so is the last without [floatLast]. *)
Lemma amounts_whole (fl : bool) : forall (sorted : list TimeUnit) (q : Q) u v,
  In (u, v) (amounts_spec fl (Fin q) sorted) ->
  is_integer v \/ (fl = true /\ at_last sorted = Some u).
Proof.
  induction sorted as [|w sorted IH]; intros q u v H; [destruct H|].
  destruct (divisor_positive w) as (c & Hw & Hc).
  destruct sorted as [|w' rest].
  - cbn [amounts_spec] in H. destruct H as [[= <- <-]|[]].
    destruct fl; [right; now split | left].
    rewrite Hw. unfold num_div. rewrite Hc. eexists. cbn [Math_floor]. reflexivity.
  - change (amounts_spec fl (Fin q) (w :: w' :: rest))
      with ((w, Math_floor (Fin q / divisors w)%js)
              :: amounts_spec fl
                   (Fin q - Math_floor (Fin q / divisors w) * divisors w)%js
                   (w' :: rest)) in H.
    rewrite Hw in H. unfold num_div in H. rewrite Hc in H.
    destruct H as [[= <- <-]|H].
    + left. eexists. cbn [Math_floor]. reflexivity.
    + change (at_last (w :: w' :: rest)) with (at_last (w' :: rest)).
      exact (IH _ u v H).
Qed.

(** X21.  The amounts that [breakdown] gives for a finite period and a
    list of distinct units are whole numbers, except the amount of the
    least significant unit when [floatLast] is set. *)
Theorem breakdown_amounts_whole (d : TimePeriod) (units : list TimeUnit)
    (options : option PartialOptions) (q : Q) :
  asMilliseconds d = Fin q -> NoDup units ->
  forall u v, In (u, v) (breakdown d (Some (Units units)) options) ->
    is_integer v
    \/ (truthy (floatLast (snd (breakdown_args (Some (Units units)) options))) = true
        /\ at_last (Array_sort by_divisor units) = Some u).
Proof.
  intros E N u v H. unfold breakdown in H. cbn [breakdown_args snd floatLast] in *.
  rewrite breakdown_with_spec in H by (intros _; exact N).
  unfold breakdown_spec in H.
  rewrite decompose_spec_filter in H; [| now apply Array_sort_NoDup | intros k []].
  cbn [app floatLast] in H. apply filter_In in H. destruct H as [H _].
  rewrite E in H. now apply amounts_whole in H.
Qed.

Lemma breakdown_amounts_whole_witness :
  Forall (fun e => is_integer (snd e)
                   \/ (true = true
                       /\ at_last (Array_sort by_divisor [minutes; hours]) = Some (fst e)))
         (breakdown period_1h30m15s (Some (Units [minutes; hours]))
                    (Some (mkOptions (Given (Some true)) Missing))).
Proof.
  apply Forall_forall. intros [u v] H.
  apply (@breakdown_amounts_whole period_1h30m15s [minutes; hours]
           (Some (mkOptions (Given (Some true)) Missing)) (inject_Z 5415000)).
  - reflexivity.
  - repeat constructor; simpl; intuition discriminate.
  - exact H.
Defined.

(** ** The two revisions *)

Lemma sorted_stays (l : list TimeUnit) :
  StronglySorted not_after l -> Array_sort by_divisor l = l.
Proof.
  intros H. apply sorted_perm_unique;
    [apply Array_sort_sorted | exact H | apply Array_sort_perm].
Qed.

(** X22.  The earlier revision of [breakdown] does not sort the units.  On
    a list that is already in significance order, as the default list is,
    it gives what the current revision gives. *)
Theorem revisions_agree_on_sorted (d : TimePeriod) (units : option UnitsArg)
    (options : option PartialOptions) :
  StronglySorted not_after (fst (breakdown_args units options)) ->
  Rev1.breakdown d units options = breakdown d units options.
Proof.
  intros H. unfold Rev1.breakdown, breakdown.
  destruct (breakdown_args units options) as [l full]. cbn [fst] in H.
  unfold breakdown_with. now rewrite (sorted_stays H).
Qed.

Lemma revisions_agree_on_sorted_witness :
  Rev1.breakdown period_1h30m15s None None = breakdown period_1h30m15s None None.
Proof.
  apply revisions_agree_on_sorted.
  repeat constructor; reflexivity.
Defined.
